(** * MCP Slack servers: a shallow embedding of the hand-written dispatchers

    The repository ships four hand-written servers around one Slack tool:

    - [Ws]       server.js, JSON-RPC over a WebSocket;
    - [Http]     server-http.js (first file), JSON-RPC over HTTP POST;
    - [HttpDuo]  server-http.js (second file), HTTP POST behind the Duo
                 introspection middleware;
    - [DuoSse]   the Duo OAuth + SSE server (OAuth endpoints, session map,
                 connection registry).

    [Sse] holds the two request handlers that the SSE server built on the MCP
    SDK registers, and [Boot] the startup checks of the Duo HTTP server.

    Handlers are written as programs of a small free monad [Prog]: every
    [Date.now()], [crypto.randomBytes], [await fetch] and every reply is a
    node of the program, module state is read and written through [Load] and
    [Store], and JavaScript exceptions are [Throw]. [run] executes a program
    against an oracle that supplies the clock, the entropy, the network
    answers and whatever other handlers did to the module state while the
    program was suspended at an [await]. *)

From Stdlib Require Import ZArith List String Ascii Bool Lia DecimalString.
Import ListNotations.
Set Warnings "-register-all".
Open Scope string_scope.
Open Scope Z_scope.

(** ** JavaScript values that reach the handlers

    Everything the handlers inspect was produced by [JSON.parse] (a request
    body, the body of a [fetch] response), so a value is a JSON tree or
    [undefined]. Numbers are the integers: the only arithmetic in the servers
    is on millisecond and second counts. *)

Inductive JSON : Type :=
| JNull
| JBool (b : bool)
| JNum (n : Z)
| JStr (s : string)
| JArr (items : list JSON)
| JObj (members : list (string * JSON)).

(** [None] is [undefined]. *)
Definition Value := option JSON.
Definition undefined : Value := None.

(** Exceptions, each with its [message]: [Err] is [new Error(message)]
    thrown by the source, [TypeError] the engine's complaint about a
    property read on [undefined] or [null] or about a call of something that
    is not a function, [SyntaxError] a failed [JSON.parse] or
    [response.json()], [FetchError] a rejected [fetch]. *)
Inductive Exn : Type :=
| Err (message : string)
| TypeError (message : string)
| SyntaxError (message : string)
| FetchError (message : string).

Definition message_of (e : Exn) : string :=
  match e with
  | Err m | TypeError m | SyntaxError m | FetchError m => m
  end.

Fixpoint assoc {V : Type} (k : string) (l : list (string * V)) : option V :=
  match l with
  | [] => None
  | (k', v) :: r => if String.eqb k' k then Some v else assoc k r
  end.

(** [v.name] for the property names the servers read (none of them lives on
    a prototype): a [TypeError] on [undefined] and [null], the member of an
    object, [undefined] on every other value. *)
Definition prop (v : Value) (name : string) : Exn + Value :=
  match v with
  | None => inl (TypeError ("Cannot read properties of undefined (reading '" ++ name ++ "')"))
  | Some JNull => inl (TypeError ("Cannot read properties of null (reading '" ++ name ++ "')"))
  | Some (JObj ms) => inr (assoc name ms)
  | Some _ => inr None
  end.

(** [const { name } = v], where the source writes [v] as [expr]. *)
Definition destructure (v : Value) (expr name : string) : Exn + Value :=
  match v with
  | None =>
      inl (TypeError ("Cannot destructure property '" ++ name ++ "' of '" ++ expr
                        ++ "' as it is undefined."))
  | Some JNull =>
      inl (TypeError ("Cannot destructure property '" ++ name ++ "' of '" ++ expr
                        ++ "' as it is null."))
  | _ => prop v name
  end.

(** [v?.name] *)
Definition prop_opt (v : Value) (name : string) : Value :=
  match v with
  | Some (JObj ms) => assoc name ms
  | _ => None
  end.

(** Truthiness, as [if (v)], [!v], [a || b] and [c ? a : b] test it. *)
Definition truthy (v : Value) : bool :=
  match v with
  | None | Some JNull => false
  | Some (JBool b) => b
  | Some (JNum n) => negb (n =? 0)
  | Some (JStr s) => negb (String.eqb s "")
  | Some (JArr _) | Some (JObj _) => true
  end.

(** [a || b] *)
Definition js_or (a b : Value) : Value := if truthy a then a else b.

(** [v === 'literal'] *)
Definition is_str (v : Value) (lit : string) : bool :=
  match v with
  | Some (JStr s) => String.eqb s lit
  | _ => false
  end.

(** [a === b] between two values that come from different [JSON.parse]
    results: primitives compare by value, two arrays or two objects are
    different references. *)
Definition strict_eq (a b : Value) : bool :=
  match a, b with
  | None, None => true
  | Some JNull, Some JNull => true
  | Some (JBool x), Some (JBool y) => Bool.eqb x y
  | Some (JNum x), Some (JNum y) => x =? y
  | Some (JStr x), Some (JStr y) => String.eqb x y
  | _, _ => false
  end.

Definition Z_to_string (n : Z) : string := NilZero.string_of_int (Z.to_int n).

(** [String(v)], which is what a template literal applies to each hole.
    Inside [Array.prototype.join], [null] and [undefined] print as the empty
    string. *)
Fixpoint json_to_string (v : JSON) : string :=
  match v with
  | JNull => "null"
  | JBool true => "true"
  | JBool false => "false"
  | JNum n => Z_to_string n
  | JStr s => s
  | JArr items =>
      (fix join (l : list JSON) : string :=
         match l with
         | [] => ""
         | [x] => match x with JNull => "" | _ => json_to_string x end
         | x :: r => (match x with JNull => "" | _ => json_to_string x end)
                       ++ "," ++ join r
         end) items
  | JObj _ => "[object Object]"
  end.

Definition to_string (v : Value) : string :=
  match v with
  | None => "undefined"
  | Some j => json_to_string j
  end.

(** An object literal as [JSON.stringify] and [res.json] print it: a member
    whose value is [undefined] is left out. *)
Fixpoint obj_fields (fields : list (string * Value)) : list (string * JSON) :=
  match fields with
  | [] => []
  | (k, Some v) :: r => (k, v) :: obj_fields r
  | (_, None) :: r => obj_fields r
  end.

Definition obj (fields : list (string * Value)) : JSON := JObj (obj_fields fields).

(** JavaScript numbers produced by arithmetic: an integer or [NaN]. *)
Inductive JsNumber : Type :=
| Num (n : Z)
| NaN.

Definition js_add (a b : JsNumber) : JsNumber :=
  match a, b with
  | Num x, Num y => Num (x + y)
  | _, _ => NaN
  end.

Definition js_mul (a b : JsNumber) : JsNumber :=
  match a, b with
  | Num x, Num y => Num (x * y)
  | _, _ => NaN
  end.

(** [JSON.stringify] prints [NaN] as [null]. *)
Definition number_json (n : JsNumber) : JSON :=
  match n with
  | Num z => JNum z
  | NaN => JNull
  end.

(** An environment variable inside a template literal. *)
Definition env_string (v : option string) : string :=
  match v with
  | Some s => s
  | None => "undefined"
  end.

(** The double quote and the line feed. *)
Definition dquote : string := String (ascii_of_nat 34) EmptyString.
Definition nl : string := String (ascii_of_nat 10) EmptyString.

Definition str (s : string) : Value := Some (JStr s).
Definition num (n : Z) : Value := Some (JNum n).
Definition bool_value (b : bool) : Value := Some (JBool b).
Definition object (fields : list (string * Value)) : Value := Some (obj fields).
Definition array (items : list JSON) : Value := Some (JArr items).

(** ** Node's encodings and digest

    A [Buffer] is a list of bytes, each a [Z] below 256. *)

Definition bytes_of_string (s : string) : list Z :=
  map (fun c => Z.of_N (N_of_ascii c)) (list_ascii_of_string s).

Definition digit_of (alphabet : string) (n : Z) : string :=
  match String.get (Z.to_nat n) alphabet with
  | Some c => String c EmptyString
  | None => EmptyString
  end.

(** [buf.toString('hex')] *)
Fixpoint hex (bs : list Z) : string :=
  match bs with
  | [] => ""
  | b :: r =>
      digit_of "0123456789abcdef" (b / 16) ++ digit_of "0123456789abcdef" (b mod 16) ++ hex r
  end.

Definition base64_alphabet : string :=
  "ABCDEFGHIJKLMNOPQRSTUVWXYZabcdefghijklmnopqrstuvwxyz0123456789+/".

Definition base64url_alphabet : string :=
  "ABCDEFGHIJKLMNOPQRSTUVWXYZabcdefghijklmnopqrstuvwxyz0123456789-_".

(** Three bytes make four sextets; a tail of one or two bytes makes two or
    three, followed by [=] signs when the encoding pads. *)
Fixpoint base64_with (alphabet : string) (pad : bool) (bs : list Z) : string :=
  match bs with
  | [] => ""
  | [a] =>
      digit_of alphabet (a / 4) ++ digit_of alphabet ((a mod 4) * 16)
        ++ (if pad then "==" else "")
  | [a; b] =>
      digit_of alphabet (a / 4) ++ digit_of alphabet ((a mod 4) * 16 + b / 16)
        ++ digit_of alphabet ((b mod 16) * 4) ++ (if pad then "=" else "")
  | a :: b :: c :: r =>
      digit_of alphabet (a / 4) ++ digit_of alphabet ((a mod 4) * 16 + b / 16)
        ++ digit_of alphabet ((b mod 16) * 4 + c / 64) ++ digit_of alphabet (c mod 64)
        ++ base64_with alphabet pad r
  end.

(** [buf.toString('base64')] and [buf.toString('base64url')] *)
Definition base64 (bs : list Z) : string := base64_with base64_alphabet true bs.
Definition base64url (bs : list Z) : string := base64_with base64url_alphabet false bs.

Definition uri_unreserved (c : ascii) : bool :=
  let n := N_of_ascii c in
  ((65 <=? n) && (n <=? 90) || (97 <=? n) && (n <=? 122) || (48 <=? n) && (n <=? 57)
   || existsb (Ascii.eqb c) (list_ascii_of_string "-_.!~*'()"))%N.

(** [encodeURIComponent(s)] on the bytes of [s]. *)
Fixpoint encodeURIComponent (s : string) : string :=
  match s with
  | EmptyString => ""
  | String c r =>
      (if uri_unreserved c then String c EmptyString
       else let n := Z.of_N (N_of_ascii c) in
            "%" ++ digit_of "0123456789ABCDEF" (n / 16) ++ digit_of "0123456789ABCDEF" (n mod 16))
        ++ encodeURIComponent r
  end.

(** [s.split(sep)] for a one-character separator. *)
Fixpoint split_on (sep : ascii) (s : string) : list string :=
  match s with
  | EmptyString => [""]
  | String c r =>
      if Ascii.eqb c sep then "" :: split_on sep r
      else match split_on sep r with
           | [] => [String c EmptyString]
           | h :: t => String c h :: t
           end
  end.

(** [crypto.createHash('sha256')]: FIPS 180-4 on 32-bit words held in [Z],
    every sum reduced modulo [2^32]. *)
Module Sha256.

Definition wrap (x : Z) : Z := x mod 2 ^ 32.
Definition add32 (a b : Z) : Z := wrap (a + b).
Definition rotr (n x : Z) : Z := Z.lor (Z.shiftr x n) (wrap (Z.shiftl x (32 - n))).
Definition not32 (x : Z) : Z := Z.lxor x (2 ^ 32 - 1).

Definition Ch (x y z : Z) : Z := Z.lxor (Z.land x y) (Z.land (not32 x) z).
Definition Maj (x y z : Z) : Z := Z.lxor (Z.lxor (Z.land x y) (Z.land x z)) (Z.land y z).
Definition Sigma0 (x : Z) : Z := Z.lxor (Z.lxor (rotr 2 x) (rotr 13 x)) (rotr 22 x).
Definition Sigma1 (x : Z) : Z := Z.lxor (Z.lxor (rotr 6 x) (rotr 11 x)) (rotr 25 x).
Definition sigma0 (x : Z) : Z := Z.lxor (Z.lxor (rotr 7 x) (rotr 18 x)) (Z.shiftr x 3).
Definition sigma1 (x : Z) : Z := Z.lxor (Z.lxor (rotr 17 x) (rotr 19 x)) (Z.shiftr x 10).

(** The constants are the first 32 fractional bits of the square roots
    (initial state) and cube roots (round constants) of the first primes. *)
Definition is_prime (n : nat) : bool :=
  forallb (fun d => negb (Nat.eqb (n mod d) 0)) (seq 2 (n - 2)).

Definition primes : list Z :=
  Eval vm_compute in map Z.of_nat (filter is_prime (seq 2 310)).

Fixpoint cube_root_bits (bits : nat) (n acc : Z) : Z :=
  match bits with
  | O => acc
  | S b =>
      let c := acc + 2 ^ Z.of_nat b in
      if c * c * c <=? n then cube_root_bits b n c else cube_root_bits b n acc
  end.

Definition H0 : list Z :=
  Eval vm_compute in map (fun p => wrap (Z.sqrt (p * 2 ^ 64))) (firstn 8 primes).

Definition K : list Z :=
  Eval vm_compute in map (fun p => wrap (cube_root_bits 36 (p * 2 ^ 96) 0)) primes.

Fixpoint be_bytes (n : nat) (x : Z) : list Z :=
  match n with
  | O => []
  | S m => (x / 256 ^ Z.of_nat m) mod 256 :: be_bytes m x
  end.

(** Padding: a one bit, zeros up to 56 modulo 64, the bit length on 8 bytes. *)
Definition pad (msg : list Z) : list Z :=
  let len := Z.of_nat (List.length msg) in
  (msg ++ [128] ++ repeat 0 (Z.to_nat ((55 - len) mod 64)) ++ be_bytes 8 (8 * len))%list.

Fixpoint words (bs : list Z) : list Z :=
  match bs with
  | a :: b :: c :: d :: r => ((a * 256 + b) * 256 + c) * 256 + d :: words r
  | _ => []
  end.

Fixpoint blocks (n : nat) (ws : list Z) : list (list Z) :=
  match n with
  | O => []
  | S m => firstn 16 ws :: blocks m (skipn 16 ws)
  end.

(** The message schedule, kept as a window of the last sixteen words. *)
Fixpoint schedule (n : nat) (win : list Z) : list Z :=
  match n with
  | O => []
  | S m =>
      let w := add32 (add32 (sigma1 (nth 14 win 0)) (nth 9 win 0))
                     (add32 (sigma0 (nth 1 win 0)) (nth 0 win 0)) in
      w :: schedule m (skipn 1 win ++ [w])%list
  end.

Definition round (st : list Z) (kw : Z * Z) : list Z :=
  match st with
  | [a; b; c; d; e; f; g; h] =>
      let t1 := add32 (add32 (add32 h (Sigma1 e)) (add32 (Ch e f g) (fst kw))) (snd kw) in
      let t2 := add32 (Sigma0 a) (Maj a b c) in
      [add32 t1 t2; a; b; c; add32 d t1; e; f; g]
  | _ => st
  end.

Fixpoint zip_add (xs ys : list Z) : list Z :=
  match xs, ys with
  | x :: xr, y :: yr => add32 x y :: zip_add xr yr
  | _, _ => []
  end.

Definition compress (st block : list Z) : list Z :=
  zip_add st (fold_left round (combine K (block ++ schedule 48 block)%list) st).

Definition digest (msg : list Z) : list Z :=
  let padded := pad msg in
  let st := fold_left compress (blocks (List.length padded / 64) (words padded)) H0 in
  flat_map (be_bytes 4) st.

End Sha256.

(** ** [Map]: entries in insertion order

    [for (const [k, v] of m.entries())] visits the entries in the order of
    their first [set]; [set] on a key that is present replaces the value
    where it stands. *)

Class KeyEq (K : Type) : Type := {
  keq : K -> K -> bool;
  keq_eq : forall a b, keq a b = true <-> a = b
}.

#[export] Instance KeyEq_string : KeyEq string :=
  {| keq := String.eqb; keq_eq := String.eqb_eq |}.

#[export] Instance KeyEq_Z : KeyEq Z :=
  {| keq := Z.eqb; keq_eq := Z.eqb_eq |}.

Module JsMap.
Section Ops.
Context {K V : Type} {E : KeyEq K}.

Fixpoint get (m : list (K * V)) (k : K) : option V :=
  match m with
  | [] => None
  | (k', v) :: r => if keq k' k then Some v else get r k
  end.

Fixpoint set (m : list (K * V)) (k : K) (v : V) : list (K * V) :=
  match m with
  | [] => [(k, v)]
  | (k', v') :: r => if keq k' k then (k, v) :: r else (k', v') :: set r k v
  end.

Fixpoint delete (m : list (K * V)) (k : K) : list (K * V) :=
  match m with
  | [] => []
  | (k', v') :: r => if keq k' k then r else (k', v') :: delete r k
  end.
End Ops.
End JsMap.

(** ** Module state of the Duo OAuth + SSE server

    [authSessions] maps a state key to a session {e object}: the callback
    handler keeps the object it looked up across an [await] and assigns to
    its fields afterwards, so the map holds references into a store of
    objects ([objects], a reference is an index). Connection objects are
    never assigned to and are held by value. *)

Record Session : Type := {
  codeVerifier : string;
  timestamp : Z;
  authenticated : bool;
  accessToken : Value;
  refreshToken : Value;
  expiresAt : option JsNumber
}.

Record User : Type := {
  username : Value;
  displayName : Value;
  email : Value
}.

(** [res] names the response stream of the GET request that opened the
    connection. *)
Record Connection : Type := {
  res : Z;
  user : User;
  connectedAt : Z
}.

Record World : Type := {
  objects : list Session;
  authSessions : list (string * nat);
  sseConnections : list (Z * Connection);
  connectionIdCounter : Z
}.

Definition empty_world : World :=
  {| objects := []; authSessions := []; sseConnections := []; connectionIdCounter := 0 |}.

(** [authSessions.get(state)]: the reference the map holds and the object
    behind it (a reference of the map always points at an object). *)
Definition session_ref (w : World) (state : string) : option (nat * Session) :=
  match JsMap.get (authSessions w) state with
  | Some ref =>
      match nth_error (objects w) ref with
      | Some session => Some (ref, session)
      | None => None
      end
  | None => None
  end.

(** The session a state key refers to. *)
Definition session_of (w : World) (state : string) : option Session :=
  match JsMap.get (authSessions w) state with
  | Some ref => nth_error (objects w) ref
  | None => None
  end.

Fixpoint assign {A : Type} (l : list A) (i : nat) (f : A -> A) : list A :=
  match l, i with
  | [], _ => []
  | x :: r, O => f x :: r
  | x :: r, S j => x :: assign r j f
  end.

(** ** What a handler exchanges with the outside *)

Inductive Payload : Type :=
| FormBody (params : list (string * string))
| JsonBody (v : JSON).

Record Request : Type := {
  url : string;
  http_method : string;
  headers : list (string * string);
  body : Payload
}.

(** A settled [fetch]: [response.ok] is [200 <= status <= 299],
    [response.text()] is [body_text], [response.json()] resolves to the
    parsed body or rejects with a [SyntaxError]. *)
Record Response : Type := {
  status : Z;
  body_text : string;
  body_json : string + JSON
}.

Inductive FetchResult : Type :=
| Rejected (message : string)
| Resolved (r : Response).

Definition response_ok (r : Response) : bool := (200 <=? status r) && (status r <=? 299).

Inductive Page : Type :=
| AuthenticationSuccessful
| AuthenticationFailed (message : string)
| ExpressError.

Inductive ReplyBody : Type :=
| Json (v : JSON)
| Text (s : string)
| Html (p : Page).

Inductive Output : Type :=
| WsSend (msg : JSON)
| Reply (code : Z) (content : ReplyBody)
| SseWrite (stream : Z) (event : string) (data : JSON).

Inductive Event : Type :=
| Called (rq : Request)
| Sent (o : Output).

(** ** Handler programs *)

Inductive Prog (A : Type) : Type :=
| Ret (a : A)
| Throw (e : Exn)
| DateNow (k : Z -> Prog A)
| RandomBytes (n : nat) (k : list Z -> Prog A)
| Await (rq : Request) (k : FetchResult -> Prog A)
| Load (k : World -> Prog A)
| Store (w : World) (k : Prog A)
| Emit (o : Output) (k : Prog A).

Arguments Ret {A} a.
Arguments Throw {A} e.
Arguments DateNow {A} k.
Arguments RandomBytes {A} n k.
Arguments Await {A} rq k.
Arguments Load {A} k.
Arguments Store {A} w k.
Arguments Emit {A} o k.

Fixpoint bind {A B : Type} (p : Prog A) (f : A -> Prog B) : Prog B :=
  match p with
  | Ret a => f a
  | Throw e => Throw e
  | DateNow k => DateNow (fun t => bind (k t) f)
  | RandomBytes n k => RandomBytes n (fun bs => bind (k bs) f)
  | Await rq k => Await rq (fun r => bind (k r) f)
  | Load k => Load (fun w => bind (k w) f)
  | Store w k => Store w (bind k f)
  | Emit o k => Emit o (bind k f)
  end.

(** [try { p } catch (err) { h err }] *)
Fixpoint try_catch {A : Type} (p : Prog A) (h : Exn -> Prog A) : Prog A :=
  match p with
  | Ret a => Ret a
  | Throw e => h e
  | DateNow k => DateNow (fun t => try_catch (k t) h)
  | RandomBytes n k => RandomBytes n (fun bs => try_catch (k bs) h)
  | Await rq k => Await rq (fun r => try_catch (k r) h)
  | Load k => Load (fun w => try_catch (k w) h)
  | Store w k => Store w (try_catch k h)
  | Emit o k => Emit o (try_catch k h)
  end.

Declare Scope prog_scope.
Delimit Scope prog_scope with prog.
Notation "x <- p ;; q" := (bind p (fun x => q))
  (at level 100, p at next level, right associativity) : prog_scope.
Notation "p ;; q" := (bind p (fun _ => q))
  (at level 100, right associativity) : prog_scope.
Open Scope prog_scope.

Definition lift {A : Type} (r : Exn + A) : Prog A :=
  match r with
  | inl e => Throw e
  | inr a => Ret a
  end.

Definition now : Prog Z := DateNow Ret.
Definition randomBytes (n : nat) : Prog (list Z) := RandomBytes n Ret.
Definition load : Prog World := Load Ret.
Definition store (w : World) : Prog unit := Store w (Ret tt).
Definition emit (o : Output) : Prog unit := Emit o (Ret tt).

(** [await fetch(rq)] *)
Definition fetch (rq : Request) : Prog Response :=
  Await rq (fun r =>
    match r with
    | Rejected m => Throw (FetchError m)
    | Resolved resp => Ret resp
    end).

(** [await response.json()] *)
Definition json (r : Response) : Prog Value :=
  match body_json r with
  | inl m => Throw (SyntaxError m)
  | inr v => Ret (Some v)
  end.

(** ** Running a handler

    The oracle answers the [k]-th clock read, the [k]-th random byte and
    the [k]-th [fetch] of the run; [meanwhile k] is what the other handlers
    of the event loop did to the module state while the run was suspended
    at its [k]-th [await]. *)

Record Oracle : Type := {
  clock : nat -> Z;
  entropy : nat -> Z;
  network : nat -> Request -> FetchResult;
  meanwhile : nat -> World -> World
}.

Record Cursor : Type := {
  reads : nat;
  draws : nat;
  awaits : nat
}.

Definition start : Cursor := {| reads := 0; draws := 0; awaits := 0 |}.

(** [outcome] is [inl e] when [e] escaped the handler uncaught; [position]
    is how far into the oracle the run went. *)
Record Run (A : Type) : Type := {
  outcome : Exn + A;
  final : World;
  trace : list Event;
  position : Cursor
}.

Arguments outcome {A} r.
Arguments final {A} r.
Arguments trace {A} r.
Arguments position {A} r.

Definition logged {A : Type} (e : Event) (r : Run A) : Run A :=
  {| outcome := outcome r; final := final r; trace := e :: trace r;
     position := position r |}.

Fixpoint exec {A : Type} (o : Oracle) (c : Cursor) (p : Prog A) (w : World) : Run A :=
  match p with
  | Ret a => {| outcome := inr a; final := w; trace := []; position := c |}
  | Throw e => {| outcome := inl e; final := w; trace := []; position := c |}
  | DateNow k =>
      exec o {| reads := S (reads c); draws := draws c; awaits := awaits c |}
           (k (clock o (reads c))) w
  | RandomBytes n k =>
      exec o {| reads := reads c; draws := (draws c + n)%nat; awaits := awaits c |}
           (k (map (fun i => entropy o i mod 256) (seq (draws c) n))) w
  | Await rq k =>
      logged (Called rq)
        (exec o {| reads := reads c; draws := draws c; awaits := S (awaits c) |}
              (k (network o (awaits c) rq)) (meanwhile o (awaits c) w))
  | Load k => exec o c (k w) w
  | Store w' k => exec o c k w'
  | Emit out k => logged (Sent out) (exec o c k w)
  end.

Definition run {A : Type} (o : Oracle) (p : Prog A) (w : World) : Run A := exec o start p w.

(** What a run sent, and what it asked of the network. *)
Fixpoint outputs (tr : list Event) : list Output :=
  match tr with
  | [] => []
  | Sent o :: r => o :: outputs r
  | Called _ :: r => outputs r
  end.

Fixpoint calls (tr : list Event) : list Request :=
  match tr with
  | [] => []
  | Called rq :: r => rq :: calls r
  | Sent _ :: r => calls r
  end.

(** ** Pieces the servers share *)

(** The call to [chat.postMessage]. *)
Definition slack_request (token : string) (channel text : Value) : Request :=
  {| url := "https://slack.com/api/chat.postMessage";
     http_method := "POST";
     headers := [("Authorization", "Bearer " ++ token);
                 ("Content-Type", "application/json")];
     body := JsonBody (obj [("channel", channel); ("text", text)]) |}.

(** [{ jsonrpc: '2.0', id, result }] and [{ jsonrpc: '2.0', id, error: { code, message } }] *)
Definition rpc_result (id result : Value) : JSON :=
  obj [("jsonrpc", str "2.0"); ("id", id); ("result", result)].

Definition rpc_error (id : Value) (code : Z) (message : string) : JSON :=
  obj [("jsonrpc", str "2.0"); ("id", id);
       ("error", object [("code", num code); ("message", str message)])].

Definition text_content (text : string) : JSON :=
  obj [("type", str "text"); ("text", str text)].

(** The reply of the outermost [catch] of the WebSocket and HTTP servers. *)
Definition parse_error : JSON := rpc_error (Some JNull) (-32700) "Parse error".

(** [express.json()] and [bodyParser.json()] in front of a route, for a
    request that carries a JSON body: the middleware hands the route an
    object or an array; a body that [JSON.parse] rejects, or that is neither,
    fails the request with status 400 in Express's own error handler and the
    route does not run. *)
Definition express_json (JSON_parse : string -> option JSON) (raw : string)
    (route : Value -> Prog unit) : Prog unit :=
  match JSON_parse raw with
  | Some (JObj ms) => route (Some (JObj ms))
  | Some (JArr items) => route (Some (JArr items))
  | _ => emit (Reply 400 (Html ExpressError))
  end.

(** ** server.js: JSON-RPC over a WebSocket *)

Module Ws.
Section Server.
Variable SLACK_BOT_TOKEN : string.
Variable JSON_parse : string -> option JSON.

Definition initialize_result : Value :=
  object [("protocolVersion", str "2024-11-05");
          ("capabilities", object [("tools", object [])]);
          ("serverInfo", object [("name", str "slack-mcp"); ("version", str "1.0.0")])].

Definition tools_result : Value :=
  object [("tools", array [
    obj [("name", str "slack_post_message");
         ("description", str "Post a message to Slack");
         ("inputSchema", object [
            ("type", str "object");
            ("properties", object [("channel_id", object [("type", str "string")]);
                                   ("text", object [("type", str "string")])]);
            ("required", array [JStr "channel_id"; JStr "text"])])]])].

(** The inner [try] of the [tools/call] branch. *)
Definition slack_post_message (request args : Value) : Prog JSON :=
  try_catch
    (channel_id <- lift (prop args "channel_id") ;;
     text <- lift (prop args "text") ;;
     slackResponse <- fetch (slack_request SLACK_BOT_TOKEN channel_id text) ;;
     slackData <- json slackResponse ;;
     ok <- lift (prop slackData "ok") ;;
     id <- lift (prop request "id") ;;
     if truthy ok then
       Ret (rpc_result id (object [
              ("content", array [text_content ("Sent: " ++ dquote ++ to_string text ++ dquote)])]))
     else
       error <- lift (prop slackData "error") ;;
       Ret (rpc_result id (object [
              ("content", array [text_content ("Error: " ++ to_string error)]);
              ("isError", bool_value true)])))
    (fun err =>
       id <- lift (prop request "id") ;;
       Ret (rpc_error id (-32000) (message_of err))).

(** [if (response) { ws.send(JSON.stringify(response)) }] *)
Definition finish (response : option JSON) : Prog unit :=
  match response with
  | Some r => emit (WsSend r)
  | None => Ret tt
  end.

(** [ws.on('message', async (data) => ...)] *)
Definition on_message (data : string) : Prog unit :=
  try_catch
    (request <- match JSON_parse data with
                | Some v => Ret (Some v)
                | None => Throw (SyntaxError "Unexpected token")
                end ;;
     method <- lift (prop request "method") ;;
     if is_str method "initialize" then
       (id <- lift (prop request "id") ;;
        finish (Some (rpc_result id initialize_result)))
     else if is_str method "tools/list" then
       (id <- lift (prop request "id") ;;
        finish (Some (rpc_result id tools_result)))
     else if is_str method "tools/call" then
       (params <- lift (prop request "params") ;;
        name <- lift (destructure params "request.params" "name") ;;
        args <- lift (prop params "arguments") ;;
        if is_str name "slack_post_message" then
          (response <- slack_post_message request args ;;
           finish (Some response))
        else finish None)
     else if is_str method "notifications/initialized" then Ret tt
     else finish None)
    (fun err => emit (WsSend parse_error)).
End Server.
End Ws.

(** ** server-http.js, first file: JSON-RPC over HTTP POST *)

Module Http.
Section Server.
Variable SLACK_BOT_TOKEN : string.
Variable JSON_parse : string -> option JSON.

Definition initialize_result : Value :=
  object [("protocolVersion", str "2024-11-05");
          ("capabilities", object [("tools", object [])]);
          ("serverInfo", object [("name", str "slack-mcp-http"); ("version", str "1.0.0")])].

Definition slack_post_message (request args : Value) : Prog JSON :=
  try_catch
    (channel_id <- lift (prop args "channel_id") ;;
     text <- lift (prop args "text") ;;
     slackResponse <- fetch (slack_request SLACK_BOT_TOKEN channel_id text) ;;
     slackData <- json slackResponse ;;
     ok <- lift (prop slackData "ok") ;;
     id <- lift (prop request "id") ;;
     if truthy ok then
       Ret (rpc_result id (object [
              ("content", array [text_content ("Sent: " ++ dquote ++ to_string text ++ dquote)])]))
     else
       error <- lift (prop slackData "error") ;;
       Ret (rpc_result id (object [
              ("content", array [text_content ("Error: " ++ to_string error)]);
              ("isError", bool_value true)])))
    (fun err =>
       id <- lift (prop request "id") ;;
       Ret (rpc_error id (-32000) (message_of err))).

(** [if (response) { res.json(response) } else { res.status(400).json(...) }] *)
Definition finish (request : Value) (response : option JSON) : Prog unit :=
  match response with
  | Some r => emit (Reply 200 (Json r))
  | None =>
      id <- lift (prop request "id") ;;
      emit (Reply 400 (Json (rpc_error id (-32601) "Method not found")))
  end.

(** [app.post('/mcp', async (req, res) => ...)] with [request = req.body] *)
Definition post_mcp (request : Value) : Prog unit :=
  try_catch
    (method <- lift (prop request "method") ;;
     if is_str method "initialize" then
       (id <- lift (prop request "id") ;;
        finish request (Some (rpc_result id initialize_result)))
     else if is_str method "tools/list" then
       (id <- lift (prop request "id") ;;
        finish request (Some (rpc_result id Ws.tools_result)))
     else if is_str method "tools/call" then
       (params <- lift (prop request "params") ;;
        name <- lift (destructure params "request.params" "name") ;;
        args <- lift (prop params "arguments") ;;
        if is_str name "slack_post_message" then
          (response <- slack_post_message request args ;;
           finish request (Some response))
        else finish request None)
     else if is_str method "notifications/initialized" then emit (Reply 200 (Text "OK"))
     else finish request None)
    (fun err => emit (Reply 500 (Json parse_error))).

(** The route behind [app.use(express.json())]. *)
Definition serve (raw : string) : Prog unit := express_json JSON_parse raw post_mcp.
End Server.
End Http.

(** ** The Duo gate, the same text in both Duo servers *)

Module Verification.
(** What [verifyDuoToken] returns: [{ valid: false }], or [valid: true]
    with the identity read from the introspection body. *)
Record t : Type := {
  valid : bool;
  username : Value;
  displayName : Value;
  email : Value;
  expiresAt : Value
}.

Definition invalid : t :=
  {| valid := false; username := None; displayName := None; email := None;
     expiresAt := None |}.
End Verification.

Section Gate.
Variable DUO_TOKEN_INTROSPECTION_ENDPOINT : option string.
Variable DUO_CLIENT_ID : option string.
Variable DUO_CLIENT_SECRET : option string.

(** ['Basic ' + Buffer.from(`${DUO_CLIENT_ID}:${DUO_CLIENT_SECRET}`).toString('base64')] *)
Definition basic_credentials : string :=
  "Basic " ++ base64 (bytes_of_string
                        (env_string DUO_CLIENT_ID ++ ":" ++ env_string DUO_CLIENT_SECRET)).

Definition introspection_request (token : string) : Request :=
  {| url := env_string DUO_TOKEN_INTROSPECTION_ENDPOINT;
     http_method := "POST";
     headers := [("Content-Type", "application/x-www-form-urlencoded");
                 ("Authorization", basic_credentials)];
     body := FormBody [("token", token)] |}.

Definition verifyDuoToken (token : string) : Prog Verification.t :=
  try_catch
    (response <- fetch (introspection_request token) ;;
     if negb (response_ok response) then
       Throw (Err ("Token introspection failed: " ++ Z_to_string (status response)))
     else
       data <- json response ;;
       active <- lift (prop data "active") ;;
       if negb (truthy active) then Throw (Err "Token is not active")
       else
         username <- lift (prop data "username") ;;
         display_name <- lift (prop data "display_name") ;;
         email <- lift (prop data "email") ;;
         exp <- lift (prop data "exp") ;;
         Ret {| Verification.valid := true;
                Verification.username := username;
                Verification.displayName := js_or display_name username;
                Verification.email := email;
                Verification.expiresAt := exp |})
    (fun error => Ret Verification.invalid).
End Gate.

(** [extractToken(req)] on [req.headers.authorization]; [None] is [null]. *)
Definition extractToken (authHeader : option string) : option string :=
  match authHeader with
  | None => None
  | Some h =>
      if String.eqb h "" then None
      else match split_on " " h with
           | [p0; p1] => if String.eqb p0 "Bearer" then Some p1 else None
           | _ => None
           end
  end.

(** [!token] on what [extractToken] returned. *)
Definition no_token (token : option string) : bool :=
  match token with
  | None => true
  | Some t => String.eqb t ""
  end.

(** ** server-http.js, second file: HTTP POST behind the Duo middleware *)

Module HttpDuo.
Section Server.
Variable SLACK_BOT_TOKEN : string.
Variable DUO_ENABLED : bool.
Variable DUO_TOKEN_INTROSPECTION_ENDPOINT : option string.
Variable DUO_CLIENT_ID : option string.
Variable DUO_CLIENT_SECRET : option string.
Variable JSON_parse : string -> option JSON.

(** [authenticateRequest(req, res, next)]; [next] receives [req.user]. *)
Definition authenticateRequest (authorization : option string)
    (next : User -> Prog unit) : Prog unit :=
  if negb DUO_ENABLED then
    next {| username := None; displayName := str "Anonymous User"; email := None |}
  else
    let token := extractToken authorization in
    if no_token token then
      emit (Reply 401 (Json (rpc_error (Some JNull) (-32600) "Authorization token required")))
    else
      verification <- verifyDuoToken DUO_TOKEN_INTROSPECTION_ENDPOINT DUO_CLIENT_ID
                        DUO_CLIENT_SECRET (match token with Some t => t | None => "" end) ;;
      if negb (Verification.valid verification) then
        emit (Reply 401 (Json (rpc_error (Some JNull) (-32600) "Invalid or expired token")))
      else
        next {| username := Verification.username verification;
                displayName := Verification.displayName verification;
                email := Verification.email verification |}.

Definition initialize_result : Value :=
  object [("protocolVersion", str "2024-11-05");
          ("capabilities", object [("tools", object [])]);
          ("serverInfo", object [("name", str "slack-mcp-http-duo");
                                 ("version", str "1.0.0");
                                 ("duoEnabled", bool_value DUO_ENABLED)])].

Definition tools_result : Value :=
  object [("tools", array [
    obj [("name", str "slack_post_message");
         ("description", str "Post a message to Slack (with your username)");
         ("inputSchema", object [
            ("type", str "object");
            ("properties", object [
               ("channel_id", object [("type", str "string");
                  ("description", str "Slack channel ID (e.g., C08286T5HPV)")]);
               ("text", object [("type", str "string");
                  ("description", str "Message text to post")])]);
            ("required", array [JStr "channel_id"; JStr "text"])])]])].

Definition slack_post_message (userName request args : Value) : Prog JSON :=
  try_catch
    (text <- lift (prop args "text") ;;
     let messageText :=
       if DUO_ENABLED then str ("*[" ++ to_string userName ++ "]* " ++ to_string text)
       else text in
     channel_id <- lift (prop args "channel_id") ;;
     slackResponse <- fetch (slack_request SLACK_BOT_TOKEN channel_id messageText) ;;
     slackData <- json slackResponse ;;
     ok <- lift (prop slackData "ok") ;;
     id <- lift (prop request "id") ;;
     if truthy ok then
       ts <- lift (prop slackData "ts") ;;
       let resultMessage :=
         if DUO_ENABLED then
           "Message posted successfully as " ++ to_string userName ++ nl
             ++ "Channel: " ++ to_string channel_id ++ nl
             ++ "Timestamp: " ++ to_string ts
         else "Sent: " ++ dquote ++ to_string text ++ dquote in
       Ret (rpc_result id (object [("content", array [text_content resultMessage])]))
     else
       error <- lift (prop slackData "error") ;;
       Ret (rpc_result id (object [
              ("content", array [text_content ("Error: " ++ to_string error)]);
              ("isError", bool_value true)])))
    (fun err =>
       id <- lift (prop request "id") ;;
       Ret (rpc_error id (-32000) (message_of err))).

Definition finish (request : Value) (response : option JSON) : Prog unit :=
  match response with
  | Some r => emit (Reply 200 (Json r))
  | None =>
      id <- lift (prop request "id") ;;
      emit (Reply 400 (Json (rpc_error id (-32601) "Method not found")))
  end.

(** The route, once the middleware called [next()]. *)
Definition dispatch (request : Value) (user : User) : Prog unit :=
  try_catch
    (let userName := displayName user in
     method <- lift (prop request "method") ;;
     if is_str method "initialize" then
       (id <- lift (prop request "id") ;;
        finish request (Some (rpc_result id initialize_result)))
     else if is_str method "tools/list" then
       (id <- lift (prop request "id") ;;
        finish request (Some (rpc_result id tools_result)))
     else if is_str method "tools/call" then
       (params <- lift (prop request "params") ;;
        name <- lift (destructure params "request.params" "name") ;;
        args <- lift (prop params "arguments") ;;
        if is_str name "slack_post_message" then
          (response <- slack_post_message userName request args ;;
           finish request (Some response))
        else finish request None)
     else if is_str method "notifications/initialized" then emit (Reply 200 (Text "OK"))
     else finish request None)
    (fun err => emit (Reply 500 (Json parse_error))).

(** [app.post('/mcp', authenticateRequest, async (req, res) => ...)] *)
Definition post_mcp (authorization : option string) (request : Value) : Prog unit :=
  authenticateRequest authorization (dispatch request).

Definition serve (authorization : option string) (raw : string) : Prog unit :=
  express_json JSON_parse raw (post_mcp authorization).
End Server.
End HttpDuo.

(** ** The Duo OAuth + SSE server *)

Module DuoSse.
Section Server.
Variable DUO_API_HOSTNAME : option string.
Variable DUO_CLIENT_ID : option string.
Variable DUO_CLIENT_SECRET : option string.
Variable DUO_TOKEN_INTROSPECTION_ENDPOINT : option string.
(** [process.env.DUO_REDIRECT_URI || `https://${...}/auth/callback`] *)
Variable DUO_REDIRECT_URI : string.
(** [process.env.SLACK_BOT_TOKEN], read on every call of [postToSlack]. *)
Variable SLACK_BOT_TOKEN : option string.
Variable JSON_parse : string -> option JSON.
(** [Number(s)] on a string, left to the engine. *)
Variable StringToNumber : string -> JsNumber.

(** [!v] on an environment variable. *)
Definition missing (v : option string) : bool :=
  match v with
  | None => true
  | Some s => String.eqb s ""
  end.

(** A query parameter that passes [if (!v)]: a string that is not empty.
    Repeated and bracketed parameters, which Express turns into arrays and
    objects, are not modelled. *)
Definition present (v : option string) : option string :=
  match v with
  | Some s => if String.eqb s "" then None else Some s
  | None => None
  end.

(** [sendSSE(res, eventType, data)] *)
Definition sendSSE (res : Z) (eventType : string) (data : JSON) : Prog unit :=
  emit (SseWrite res eventType data).

Definition sendJSONRPCResponse (res : Z) (id result : Value) : Prog unit :=
  sendSSE res "message" (rpc_result id result).

Definition sendJSONRPCError (res : Z) (id : Value) (code : Z) (message : string) : Prog unit :=
  sendSSE res "message" (rpc_error id code message).

(** [postToSlack(channel, text, username)] *)
Definition postToSlack (channel text username : Value) : Prog Value :=
  if missing SLACK_BOT_TOKEN then Throw (Err "SLACK_BOT_TOKEN が設定されていません")
  else
    response <- fetch (slack_request (env_string SLACK_BOT_TOKEN) channel
                         (str ("*[" ++ to_string username ++ "]* " ++ to_string text))) ;;
    data <- json response ;;
    ok <- lift (prop data "ok") ;;
    if negb (truthy ok) then
      error <- lift (prop data "error") ;;
      Throw (Err (to_string (js_or error (str "Slack API エラー"))))
    else Ret data.

(** *** OAuth endpoints *)

Definition new_session (codeVerifier : string) (t : Z) : Session :=
  {| codeVerifier := codeVerifier; timestamp := t; authenticated := false;
     accessToken := None; refreshToken := None; expiresAt := None |}.

(** [authSessions.set(state, { ... })] with a freshly allocated object *)
Definition set_session (state : string) (s : Session) : Prog unit :=
  w <- load ;;
  store {| objects := (objects w ++ [s])%list;
           authSessions := JsMap.set (authSessions w) state (List.length (objects w));
           sseConnections := sseConnections w;
           connectionIdCounter := connectionIdCounter w |}.

(** [authSessions.delete(key)] *)
Definition delete_session (key : string) : Prog unit :=
  w <- load ;;
  store {| objects := objects w;
           authSessions := JsMap.delete (authSessions w) key;
           sseConnections := sseConnections w;
           connectionIdCounter := connectionIdCounter w |}.

(** The body of [for (const [key, value] of authSessions.entries())],
    over the entries still to visit. *)
Fixpoint sweep_entries (entries : list (string * nat)) : Prog unit :=
  match entries with
  | [] => Ret tt
  | (key, ref) :: rest =>
      t <- now ;;
      w <- load ;;
      match nth_error (objects w) ref with
      | Some value =>
          if t - timestamp value >? 10 * 60 * 1000 then delete_session key else Ret tt
      | None => Ret tt
      end ;;
      sweep_entries rest
  end.

Definition sweep : Prog unit :=
  w <- load ;;
  sweep_entries (authSessions w).

Definition authUrl (state codeChallenge : string) : string :=
  "https://" ++ env_string DUO_API_HOSTNAME ++ "/oauth/v1/authorize?"
    ++ "response_type=code&"
    ++ "client_id=" ++ encodeURIComponent (env_string DUO_CLIENT_ID) ++ "&"
    ++ "redirect_uri=" ++ encodeURIComponent DUO_REDIRECT_URI ++ "&"
    ++ "state=" ++ state ++ "&"
    ++ "code_challenge=" ++ codeChallenge ++ "&"
    ++ "code_challenge_method=S256&"
    ++ "scope=openid".

(** [app.get('/auth/duo-initiate', ...)] *)
Definition auth_duo_initiate : Prog unit :=
  if missing DUO_API_HOSTNAME || missing DUO_CLIENT_ID then
    emit (Reply 500 (Json (obj [("error", str "Duo OAuth not configured")])))
  else
    state_bytes <- randomBytes 32 ;;
    let state := hex state_bytes in
    verifier_bytes <- randomBytes 32 ;;
    let codeVerifier := base64url verifier_bytes in
    let codeChallenge := base64url (Sha256.digest (bytes_of_string codeVerifier)) in
    t <- now ;;
    set_session state (new_session codeVerifier t) ;;
    sweep ;;
    emit (Reply 200 (Json (obj [("authUrl", str (authUrl state codeChallenge));
                                ("state", str state)]))).

Definition token_request (code codeVerifier : string) : Request :=
  {| url := "https://" ++ env_string DUO_API_HOSTNAME ++ "/oauth/v1/token";
     http_method := "POST";
     headers := [("Content-Type", "application/x-www-form-urlencoded");
                 ("Authorization", basic_credentials DUO_CLIENT_ID DUO_CLIENT_SECRET)];
     body := FormBody [("grant_type", "authorization_code");
                       ("code", code);
                       ("redirect_uri", DUO_REDIRECT_URI);
                       ("code_verifier", codeVerifier)] |}.

(** [session.field = ...] on the object behind [ref] *)
Definition assign_session (ref : nat) (f : Session -> Session) : Prog unit :=
  w <- load ;;
  store {| objects := assign (objects w) ref f;
           authSessions := authSessions w;
           sseConnections := sseConnections w;
           connectionIdCounter := connectionIdCounter w |}.

(** [Number(v)] as [*] applies it. *)
Definition to_number (v : Value) : JsNumber :=
  match v with
  | None => NaN
  | Some JNull => Num 0
  | Some (JBool b) => Num (if b then 1 else 0)
  | Some (JNum n) => Num n
  | Some (JStr s) => StringToNumber s
  | Some j => StringToNumber (json_to_string j)
  end.

(** [app.get('/auth/callback', ...)] with [{ code, state } = req.query] *)
Definition auth_callback (code state : option string) : Prog unit :=
  match present code, present state with
  | Some code, Some state =>
      w <- load ;;
      match session_ref w state with
      | None => emit (Reply 400 (Text "Invalid or expired session"))
      | Some (ref, session) =>
          try_catch
            (tokenResponse <- fetch (token_request code (codeVerifier session)) ;;
             if negb (response_ok tokenResponse) then
               Throw (Err ("Token exchange failed: " ++ Z_to_string (status tokenResponse)
                             ++ " - " ++ body_text tokenResponse))
             else
               tokenData <- json tokenResponse ;;
               assign_session ref (fun s =>
                 {| codeVerifier := codeVerifier s; timestamp := timestamp s;
                    authenticated := true;
                    accessToken := accessToken s; refreshToken := refreshToken s;
                    expiresAt := expiresAt s |}) ;;
               access_token <- lift (prop tokenData "access_token") ;;
               assign_session ref (fun s =>
                 {| codeVerifier := codeVerifier s; timestamp := timestamp s;
                    authenticated := authenticated s;
                    accessToken := access_token; refreshToken := refreshToken s;
                    expiresAt := expiresAt s |}) ;;
               refresh_token <- lift (prop tokenData "refresh_token") ;;
               assign_session ref (fun s =>
                 {| codeVerifier := codeVerifier s; timestamp := timestamp s;
                    authenticated := authenticated s;
                    accessToken := accessToken s; refreshToken := refresh_token;
                    expiresAt := expiresAt s |}) ;;
               t <- now ;;
               expires_in <- lift (prop tokenData "expires_in") ;;
               assign_session ref (fun s =>
                 {| codeVerifier := codeVerifier s; timestamp := timestamp s;
                    authenticated := authenticated s;
                    accessToken := accessToken s; refreshToken := refreshToken s;
                    expiresAt :=
                      Some (js_add (Num t) (js_mul (to_number expires_in) (Num 1000))) |}) ;;
               emit (Reply 200 (Html AuthenticationSuccessful)))
            (fun error => emit (Reply 500 (Html (AuthenticationFailed (message_of error)))))
      end
  | _, _ => emit (Reply 400 (Text "Missing code or state parameter"))
  end.

(** [app.get('/auth/status', ...)] with [{ state } = req.query] *)
Definition auth_status (state : option string) : Prog unit :=
  match present state with
  | None => emit (Reply 400 (Json (obj [("error", str "Missing state parameter")])))
  | Some state =>
      w <- load ;;
      match session_of w state with
      | None =>
          emit (Reply 200 (Json (obj [("authenticated", bool_value false);
                                      ("error", str "Session not found")])))
      | Some session =>
          emit (Reply 200 (Json (obj [
            ("authenticated", bool_value (authenticated session));
            ("token", if authenticated session then accessToken session else None);
            ("expiresAt", option_map number_json (expiresAt session))])))
      end
  end.

(** *** The SSE stream and its registry *)

(** [++connectionIdCounter] *)
Definition next_connection_id : Prog Z :=
  w <- load ;;
  store {| objects := objects w;
           authSessions := authSessions w;
           sseConnections := sseConnections w;
           connectionIdCounter := connectionIdCounter w + 1 |} ;;
  Ret (connectionIdCounter w + 1).

(** [sseConnections.set(id, c)] *)
Definition set_connection (id : Z) (c : Connection) : Prog unit :=
  w <- load ;;
  store {| objects := objects w;
           authSessions := authSessions w;
           sseConnections := JsMap.set (sseConnections w) id c;
           connectionIdCounter := connectionIdCounter w |}.

(** [sseConnections.delete(id)] *)
Definition delete_connection (id : Z) : Prog unit :=
  w <- load ;;
  store {| objects := objects w;
           authSessions := authSessions w;
           sseConnections := JsMap.delete (sseConnections w) id;
           connectionIdCounter := connectionIdCounter w |}.

Definition verify (token : string) : Prog Verification.t :=
  verifyDuoToken DUO_TOKEN_INTROSPECTION_ENDPOINT DUO_CLIENT_ID DUO_CLIENT_SECRET token.

(** [app.get('/mcp', ...)] *)
Definition get_mcp (authorization : option string) : Prog unit :=
  match extractToken authorization with
  | None => emit (Reply 401 (Json (obj [("error", str "Authorization token required")])))
  | Some token =>
      if String.eqb token "" then
        emit (Reply 401 (Json (obj [("error", str "Authorization token required")])))
      else
        verification <- verify token ;;
        if negb (Verification.valid verification) then
          emit (Reply 401 (Json (obj [("error", str "Invalid or expired token")])))
        else
          connectionId <- next_connection_id ;;
          t <- now ;;
          set_connection connectionId
            {| res := connectionId;
               user := {| username := Verification.username verification;
                          displayName := Verification.displayName verification;
                          email := Verification.email verification |};
               connectedAt := t |} ;;
          sendSSE connectionId "endpoint"
            (obj [("path", str "/mcp");
                  ("connectionId", num connectionId);
                  ("authenticated", bool_value true);
                  ("user", Verification.displayName verification)])
  end.

(** [req.on('close', ...)] of the stream registered under [connectionId] *)
Definition on_close (connectionId : Z) : Prog unit := delete_connection connectionId.

(** The first connection, in registration order, whose
    [conn.user.email === email]. *)
Fixpoint find_connection (conns : list (Z * Connection)) (email_ : Value)
    : option Connection :=
  match conns with
  | [] => None
  | (_, conn) :: rest =>
      if strict_eq (email (user conn)) email_ then Some conn
      else find_connection rest email_
  end.

Definition tools_result : Value :=
  object [("tools", array [
    obj [("name", str "postMessage");
         ("description", str "Slackチャンネルにメッセージを投稿します（ユーザー名付き）");
         ("inputSchema", object [
            ("type", str "object");
            ("properties", object [
               ("channel", object [("type", str "string");
                  ("description", str "チャンネルID（例: C08286T5HPV）")]);
               ("text", object [("type", str "string");
                  ("description", str "投稿するメッセージ")])]);
            ("required", array [JStr "channel"; JStr "text"])])]])].

Definition initialize_result : Value :=
  object [("protocolVersion", str "2024-11-05");
          ("capabilities", object [("tools", object [])]);
          ("serverInfo", object [("name", str "slack-mcp-server-duo");
                                 ("version", str "1.0.0")])].

Definition ok_reply : Prog unit := emit (Reply 200 (Json (obj [("status", str "ok")]))).

(** The [try] block of the POST route, with the connection found. *)
Definition dispatch (message : Value) (sseRes : Z) (userName : Value) : Prog unit :=
  method <- lift (prop message "method") ;;
  id <- lift (prop message "id") ;;
  if is_str method "initialize" then
    sendJSONRPCResponse sseRes id initialize_result ;;
    ok_reply
  else if is_str method "tools/list" then
    sendJSONRPCResponse sseRes id tools_result ;;
    ok_reply
  else if is_str method "tools/call" then
    params <- lift (prop message "params") ;;
    let toolName := prop_opt params "name" in
    let args := prop_opt params "arguments" in
    if is_str toolName "postMessage" then
      channel <- lift (destructure args "args" "channel") ;;
      text <- lift (prop args "text") ;;
      match text with
      | Some (JStr _) => Ret tt
      | None => Throw (TypeError "Cannot read properties of undefined (reading 'substring')")
      | Some JNull => Throw (TypeError "Cannot read properties of null (reading 'substring')")
      | Some _ => Throw (TypeError "text.substring is not a function")
      end ;;
      result <- postToSlack channel text userName ;;
      ts <- lift (prop result "ts") ;;
      sendJSONRPCResponse sseRes id
        (object [("content", array [text_content
           ("メッセージを投稿しました（" ++ to_string userName ++ "として）" ++ nl
              ++ "チャンネル: " ++ to_string channel ++ nl
              ++ "タイムスタンプ: " ++ to_string ts)])]) ;;
      ok_reply
    else
      sendJSONRPCError sseRes id (-32601) ("Unknown tool: " ++ to_string toolName) ;;
      emit (Reply 400 (Json (obj [("error", str "Unknown tool")])))
  else
    match method with
    | Some (JStr m) =>
        if negb (String.eqb m "") && String.prefix "notifications/" m then ok_reply
        else
          sendJSONRPCError sseRes id (-32601) "Method not found" ;;
          emit (Reply 400 (Json (obj [("error", str "Method not found")])))
    | _ =>
        if truthy method then
          Throw (TypeError "message.method.startsWith is not a function")
        else
          sendJSONRPCError sseRes id (-32601) "Method not found" ;;
          emit (Reply 400 (Json (obj [("error", str "Method not found")])))
    end.

(** [app.post('/mcp', ...)] with [message = req.body] *)
Definition post_mcp (authorization : option string) (message : Value) : Prog unit :=
  lift (prop message "method") ;;
  id <- lift (prop message "id") ;;
  match extractToken authorization with
  | None => emit (Reply 401 (Json (obj [("error", str "Authorization token required")])))
  | Some token =>
      if String.eqb token "" then
        emit (Reply 401 (Json (obj [("error", str "Authorization token required")])))
      else
        verification <- verify token ;;
        if negb (Verification.valid verification) then
          emit (Reply 401 (Json (obj [("error", str "Invalid or expired token")])))
        else
          w <- load ;;
          match find_connection (sseConnections w) (Verification.email verification) with
          | None =>
              emit (Reply 404 (Json (obj [("error", str
                "No active SSE connection found. Please establish GET /mcp connection first.")])))
          | Some targetConnection =>
              try_catch
                (dispatch message (res targetConnection)
                          (displayName (user targetConnection)))
                (fun error =>
                   sendJSONRPCError (res targetConnection) id (-32603) (message_of error) ;;
                   emit (Reply 500 (Json (obj [("error", str (message_of error))]))))
          end
  end.

Definition serve (authorization : option string) (raw : string) : Prog unit :=
  express_json JSON_parse raw (post_mcp authorization).

(** The body of the [setInterval] callback, over the entries to visit. *)
Fixpoint cleanup_entries (t : Z) (entries : list (Z * Connection)) : Prog unit :=
  match entries with
  | [] => Ret tt
  | (connectionId, conn) :: rest =>
      (if t - connectedAt conn >? 3600000 then delete_connection connectionId else Ret tt) ;;
      cleanup_entries t rest
  end.

Definition cleanup : Prog unit :=
  t <- now ;;
  w <- load ;;
  cleanup_entries t (sseConnections w).
End Server.
End DuoSse.

(** ** A JSON decoder to run the servers on concrete text

    The handlers above take [JSON.parse] as a parameter and every theorem
    holds for any decoder. [JsonText.parse] is a decoder for the fragment
    without fractions, exponents and [\u] escapes, and [JsonText.print]
    writes a value back as text; the examples run on both. *)

Module JsonText.

Definition is_ws (c : ascii) : bool :=
  let n := nat_of_ascii c in
  Nat.eqb n 32 || Nat.eqb n 9 || Nat.eqb n 10 || Nat.eqb n 13.

Definition is_digit (c : ascii) : bool :=
  let n := nat_of_ascii c in Nat.leb 48 n && Nat.leb n 57.

Fixpoint skip_ws (s : string) : string :=
  match s with
  | String c r => if is_ws c then skip_ws r else s
  | EmptyString => s
  end.

(** After the opening quote: the decoded characters and what follows the
    closing quote. *)
Fixpoint string_body (s : string) : option (string * string) :=
  match s with
  | EmptyString => None
  | String c r =>
      if Nat.eqb (nat_of_ascii c) 34 then Some (EmptyString, r)
      else if Nat.eqb (nat_of_ascii c) 92 then
        match r with
        | String e r' =>
            let n := nat_of_ascii e in
            let decoded :=
              if Nat.eqb n 34 || Nat.eqb n 92 || Nat.eqb n 47 then Some e
              else if Nat.eqb n 110 then Some (ascii_of_nat 10)
              else if Nat.eqb n 116 then Some (ascii_of_nat 9)
              else if Nat.eqb n 114 then Some (ascii_of_nat 13)
              else if Nat.eqb n 98 then Some (ascii_of_nat 8)
              else if Nat.eqb n 102 then Some (ascii_of_nat 12)
              else None in
            match decoded, string_body r' with
            | Some d, Some (body, rest) => Some (String d body, rest)
            | _, _ => None
            end
        | EmptyString => None
        end
      else if Nat.ltb (nat_of_ascii c) 32 then None
      else match string_body r with
           | Some (body, rest) => Some (String c body, rest)
           | None => None
           end
  end.

Fixpoint digits (acc : Z) (s : string) : Z * string :=
  match s with
  | String c r =>
      if is_digit c then digits (10 * acc + (Z.of_nat (nat_of_ascii c) - 48)) r
      else (acc, s)
  | EmptyString => (acc, s)
  end.

(** An integer literal: no leading zero before another digit, and no
    fraction or exponent after it. *)
Definition natural (s : string) : option (Z * string) :=
  match s with
  | String c r =>
      if is_digit c then
        let (n, rest) := digits 0 s in
        let leading_zero :=
          Nat.eqb (nat_of_ascii c) 48
          && match r with String d _ => is_digit d | EmptyString => false end in
        let continues :=
          match rest with
          | String d _ =>
              let k := nat_of_ascii d in Nat.eqb k 46 || Nat.eqb k 101 || Nat.eqb k 69
          | EmptyString => false
          end in
        if leading_zero || continues then None else Some (n, rest)
      else None
  | EmptyString => None
  end.

Definition literal (word : string) (v : JSON) (s : string) : option (JSON * string) :=
  if String.prefix word s
  then Some (v, String.substring (String.length word)
                                 (String.length s - String.length word) s)
  else None.

Fixpoint value (fuel : nat) (s : string) : option (JSON * string) :=
  match fuel with
  | O => None
  | S f =>
      match skip_ws s with
      | EmptyString => None
      | String c r =>
          let n := nat_of_ascii c in
          if Nat.eqb n 123 then
            match skip_ws r with
            | String c' r' =>
                if Nat.eqb (nat_of_ascii c') 125 then Some (JObj [], r')
                else members f (skip_ws r) []
            | EmptyString => None
            end
          else if Nat.eqb n 91 then
            match skip_ws r with
            | String c' r' =>
                if Nat.eqb (nat_of_ascii c') 93 then Some (JArr [], r')
                else items f (skip_ws r) []
            | EmptyString => None
            end
          else if Nat.eqb n 34 then
            match string_body r with
            | Some (body, rest) => Some (JStr body, rest)
            | None => None
            end
          else if Nat.eqb n 45 then
            match natural r with
            | Some (k, rest) => Some (JNum (- k), rest)
            | None => None
            end
          else if is_digit c then
            match natural (String c r) with
            | Some (k, rest) => Some (JNum k, rest)
            | None => None
            end
          else if Nat.eqb n 116 then literal "true" (JBool true) (String c r)
          else if Nat.eqb n 102 then literal "false" (JBool false) (String c r)
          else if Nat.eqb n 110 then literal "null" JNull (String c r)
          else None
      end
  end
with members (fuel : nat) (s : string) (acc : list (string * JSON))
    : option (JSON * string) :=
  match fuel with
  | O => None
  | S f =>
      match s with
      | String q r =>
          if Nat.eqb (nat_of_ascii q) 34 then
            match string_body r with
            | Some (key, rest) =>
                match skip_ws rest with
                | String colon rest' =>
                    if Nat.eqb (nat_of_ascii colon) 58 then
                      match value f rest' with
                      | Some (v, rest'') =>
                          let acc' := JsMap.set acc key v in
                          match skip_ws rest'' with
                          | String d r'' =>
                              if Nat.eqb (nat_of_ascii d) 44 then members f (skip_ws r'') acc'
                              else if Nat.eqb (nat_of_ascii d) 125 then Some (JObj acc', r'')
                              else None
                          | EmptyString => None
                          end
                      | None => None
                      end
                    else None
                | EmptyString => None
                end
            | None => None
            end
          else None
      | EmptyString => None
      end
  end
with items (fuel : nat) (s : string) (acc : list JSON) : option (JSON * string) :=
  match fuel with
  | O => None
  | S f =>
      match value f s with
      | Some (v, rest) =>
          match skip_ws rest with
          | String d r =>
              if Nat.eqb (nat_of_ascii d) 44 then items f r (acc ++ [v])%list
              else if Nat.eqb (nat_of_ascii d) 93 then Some (JArr (acc ++ [v])%list, r)
              else None
          | EmptyString => None
          end
      | None => None
      end
  end.

(** The whole text is one value, with blanks around it at most. *)
Definition parse (s : string) : option JSON :=
  match value (S (String.length s)) s with
  | Some (v, rest) =>
      match skip_ws rest with
      | EmptyString => Some v
      | String _ _ => None
      end
  | None => None
  end.

Fixpoint quote_body (s : string) : string :=
  match s with
  | EmptyString => EmptyString
  | String c r =>
      let n := nat_of_ascii c in
      if Nat.eqb n 34 || Nat.eqb n 92 then String (ascii_of_nat 92) (String c (quote_body r))
      else if Nat.eqb n 10 then String (ascii_of_nat 92) (String "n" (quote_body r))
      else String c (quote_body r)
  end.

Definition quote (s : string) : string := dquote ++ quote_body s ++ dquote.

Fixpoint print (v : JSON) : string :=
  match v with
  | JNull => "null"
  | JBool true => "true"
  | JBool false => "false"
  | JNum n => Z_to_string n
  | JStr s => quote s
  | JArr l =>
      "[" ++ (fix go (l : list JSON) : string :=
                match l with
                | [] => ""
                | [x] => print x
                | x :: r => print x ++ "," ++ go r
                end) l ++ "]"
  | JObj ms =>
      "{" ++ (fix go (ms : list (string * JSON)) : string :=
                match ms with
                | [] => ""
                | [(k, x)] => quote k ++ ":" ++ print x
                | (k, x) :: r => quote k ++ ":" ++ print x ++ "," ++ go r
                end) ms ++ "}"
  end.

End JsonText.

(** ** The four servers behind one entry *)

Inductive Variant : Type :=
| WebSocket
| PlainHttp
| DuoHttp
| DuoSseStream.

(** [process.env] and the engine primitives a deployment runs with. The
    WebSocket and HTTP servers exit at startup without [SLACK_BOT_TOKEN]. *)
Record Deployment : Type := {
  SLACK_BOT_TOKEN : option string;
  DUO_ENABLED : bool;
  DUO_API_HOSTNAME : option string;
  DUO_CLIENT_ID : option string;
  DUO_CLIENT_SECRET : option string;
  DUO_TOKEN_INTROSPECTION_ENDPOINT : option string;
  DUO_REDIRECT_URI : string;
  JSON_parse : string -> option JSON;
  StringToNumber : string -> JsNumber
}.

(** A WebSocket frame, or a POST to [/mcp] with a JSON body [raw] and the
    given [Authorization] header. *)
Definition receive (d : Deployment) (v : Variant) (authorization : option string)
    (raw : string) : Prog unit :=
  match v with
  | WebSocket => Ws.on_message (env_string (SLACK_BOT_TOKEN d)) (JSON_parse d) raw
  | PlainHttp => Http.serve (env_string (SLACK_BOT_TOKEN d)) (JSON_parse d) raw
  | DuoHttp =>
      HttpDuo.serve (env_string (SLACK_BOT_TOKEN d)) (DUO_ENABLED d)
        (DUO_TOKEN_INTROSPECTION_ENDPOINT d) (DUO_CLIENT_ID d) (DUO_CLIENT_SECRET d)
        (JSON_parse d) authorization raw
  | DuoSseStream =>
      DuoSse.serve (DUO_CLIENT_ID d) (DUO_CLIENT_SECRET d)
        (DUO_TOKEN_INTROSPECTION_ENDPOINT d) (SLACK_BOT_TOKEN d) (JSON_parse d)
        authorization raw
  end.

(** The name under which a variant registers the Slack tool. *)
Definition tool_name (v : Variant) : string :=
  match v with
  | DuoSseStream => "postMessage"
  | _ => "slack_post_message"
  end.

(** The JSON-RPC messages among what a run sent: the frames of the
    WebSocket, the JSON bodies of the HTTP replies, the [message] events of
    the SSE stream. *)
Definition rpc_reply (v : Variant) (o : Output) : option JSON :=
  match v, o with
  | WebSocket, WsSend m => Some m
  | PlainHttp, Reply _ (Json m) => Some m
  | DuoHttp, Reply _ (Json m) => Some m
  | DuoSseStream, SseWrite _ event m => if String.eqb event "message" then Some m else None
  | _, _ => None
  end.

Fixpoint rpc_replies (v : Variant) (outs : list Output) : list JSON :=
  match outs with
  | [] => []
  | o :: r =>
      match rpc_reply v o with
      | Some m => m :: rpc_replies v r
      | None => rpc_replies v r
      end
  end.

(** [error.code] of a JSON-RPC message. *)
Definition error_code (m : JSON) : Value := prop_opt (prop_opt (Some m) "error") "code".

(** ** Vocabulary of the statements *)

(** What [verifyDuoToken] makes of a settled introspection call (proved in
    [exec_verifyDuoToken]). *)
Definition verdict (r : FetchResult) : Verification.t :=
  match r with
  | Rejected _ => Verification.invalid
  | Resolved resp =>
      if response_ok resp then
        match body_json resp with
        | inr (JObj ms) =>
            if truthy (assoc "active" ms) then
              {| Verification.valid := true;
                 Verification.username := assoc "username" ms;
                 Verification.displayName := js_or (assoc "display_name" ms) (assoc "username" ms);
                 Verification.email := assoc "email" ms;
                 Verification.expiresAt := assoc "exp" ms |}
            else Verification.invalid
        | _ => Verification.invalid
        end
      else Verification.invalid
  end.

Definition has_space (s : string) : bool :=
  existsb (Ascii.eqb " ") (list_ascii_of_string s).

(** The header is exactly [Bearer <token>]: the word, one space, and a
    token with no space in it. *)
Definition bearer_form (h : string) : Prop :=
  exists token, h = "Bearer " ++ token /\ token <> "" /\ has_space token = false.


(** A [Map] holds a key once. *)
Fixpoint distinct_keys {K V : Type} {E : KeyEq K} (m : list (K * V)) : bool :=
  match m with
  | [] => true
  | (k, _) :: r => negb (existsb (fun kv => keq (fst kv) k) r) && distinct_keys r
  end.

(** The body the route sees came through the JSON middleware. *)
Definition decoded (message : Value) : Prop :=
  match message with
  | Some (JObj _) | Some (JArr _) => True
  | _ => False
  end.

(** The Duo gate lets the bearer of [token] through: the header carries it and
    the introspection call, the first call of the run, finds it active. *)
Definition passes (d : Deployment) (o : Oracle) (authorization : option string)
    (token : string) : Prop :=
  extractToken authorization = Some token
  /\ token <> ""
  /\ Verification.valid
       (verdict (network o 0
          (introspection_request (DUO_TOKEN_INTROSPECTION_ENDPOINT d) (DUO_CLIENT_ID d)
             (DUO_CLIENT_SECRET d) token))) = true.

(** The request reaches the dispatcher of variant [v]: nothing guards the
    WebSocket and the plain HTTP server; the Duo HTTP server is open when
    Duo is disabled and gated otherwise; the Duo SSE server is gated and
    needs an open stream registered under the caller's email. *)
Definition admitted (d : Deployment) (v : Variant) (authorization : option string)
    (o : Oracle) (w : World) : Prop :=
  match v with
  | WebSocket | PlainHttp => True
  | DuoHttp => DUO_ENABLED d = false \/ exists token, passes d o authorization token
  | DuoSseStream =>
      exists token,
        passes d o authorization token
        /\ DuoSse.find_connection (sseConnections (meanwhile o 0 w))
             (Verification.email
                (verdict (network o 0
                   (introspection_request (DUO_TOKEN_INTROSPECTION_ENDPOINT d)
                      (DUO_CLIENT_ID d) (DUO_CLIENT_SECRET d) token)))) <> None
  end.






(** Whatever a program sends, on any of its paths, satisfies [P]. *)
Fixpoint sends_only {A : Type} (P : Output -> Prop) (p : Prog A) : Prop :=
  match p with
  | Ret _ | Throw _ => True
  | DateNow k => forall t, sends_only P (k t)
  | RandomBytes _ k => forall bs, sends_only P (k bs)
  | Await _ k => forall r, sends_only P (k r)
  | Load k => forall w, sends_only P (k w)
  | Store _ k => sends_only P k
  | Emit o k => P o /\ sends_only P k
  end.

(** The JSON an output carries, on whichever channel. *)
Definition payload (o : Output) : option JSON :=
  match o with
  | WsSend m => Some m
  | Reply _ (Json m) => Some m
  | SseWrite _ _ m => Some m
  | Reply _ _ => None
  end.

(** [{ jsonrpc: '2.0', id: null, error: { code: -32700, ... } }] *)
Definition is_parse_error (m : JSON) : Prop :=
  prop_opt (Some m) "jsonrpc" = str "2.0"
  /\ prop_opt (Some m) "id" = Some JNull
  /\ error_code m = num (-32700).

Definition no_parse_error (o : Output) : Prop :=
  forall m, payload o = Some m -> error_code m <> num (-32700).

(** The module states the handlers move between: each [Map] holds a key
    once and every reference of the session map points at an object. *)
Definition well_formed (w : World) : Prop :=
  distinct_keys (authSessions w) = true
  /\ distinct_keys (sseConnections w) = true
  /\ forall state ref, In (state, ref) (authSessions w) ->
                       (ref < List.length (objects w))%nat.

(** Every state a program stores satisfies [Inv], as long as every state
    it loads does. *)
Fixpoint keeps {A : Type} (Inv : World -> Prop) (p : Prog A) : Prop :=
  match p with
  | Ret _ | Throw _ => True
  | DateNow k => forall t, keeps Inv (k t)
  | RandomBytes _ k => forall bs, keeps Inv (k bs)
  | Await _ k => forall r, keeps Inv (k r)
  | Load k => forall w, Inv w -> keeps Inv (k w)
  | Store w k => Inv w /\ keeps Inv k
  | Emit _ k => keeps Inv k
  end.

(** ** Sample deployment, oracle and state for the examples *)

Definition sample_deployment : Deployment :=
  {| SLACK_BOT_TOKEN := Some "xoxb-sample";
     DUO_ENABLED := true;
     DUO_API_HOSTNAME := Some "api-example.duosecurity.com";
     DUO_CLIENT_ID := Some "client-id";
     DUO_CLIENT_SECRET := Some "client-secret";
     DUO_TOKEN_INTROSPECTION_ENDPOINT :=
       Some "https://api-example.duosecurity.com/oauth/v1/introspect";
     DUO_REDIRECT_URI := "https://mcp.example.com/auth/callback";
     JSON_parse := JsonText.parse;
     StringToNumber := fun _ => NaN |}.

Definition respond (code : Z) (v : JSON) : FetchResult :=
  Resolved {| status := code; body_text := JsonText.print v; body_json := inr v |}.

(** A network where introspection answers for an active user, the token
    endpoint issues tokens and Slack answers [slack]. *)
Definition sample_network (slack : JSON) (k : nat) (rq : Request) : FetchResult :=
  if String.eqb (url rq) "https://slack.com/api/chat.postMessage" then respond 200 slack
  else if String.eqb (url rq) "https://api-example.duosecurity.com/oauth/v1/token" then
    respond 200 (obj [("access_token", str "at-1"); ("refresh_token", str "rt-1");
                      ("expires_in", num 3600)])
  else
    respond 200 (obj [("active", bool_value true); ("username", str "alice");
                      ("display_name", str "Alice"); ("email", str "alice@example.com");
                      ("exp", num 1900000000)]).

Definition sample_oracle (slack : JSON) : Oracle :=
  {| clock := fun k => 1700000000000 + Z.of_nat k;
     entropy := fun k => Z.of_nat (7 * k + 3);
     network := sample_network slack;
     meanwhile := fun _ w => w |}.

Definition slack_ok : JSON := obj [("ok", bool_value true); ("ts", str "123.456")].
Definition slack_channel_not_found : JSON :=
  obj [("ok", bool_value false); ("error", str "channel_not_found")].

Definition alice : User :=
  {| username := str "alice"; displayName := str "Alice"; email := str "alice@example.com" |}.

(** One open stream, Alice's, and two pending sessions: one eleven minutes
    old and one a minute old at the sample clock. *)
Definition sample_world : World :=
  {| objects := [ {| codeVerifier := "verifier-old"; timestamp := 1700000000000 - 660000;
                     authenticated := false; accessToken := None; refreshToken := None;
                     expiresAt := None |};
                  {| codeVerifier := "verifier-recent"; timestamp := 1700000000000 - 60000;
                     authenticated := false; accessToken := None; refreshToken := None;
                     expiresAt := None |} ];
     authSessions := [("state-old", 0%nat); ("state-recent", 1%nat)];
     sseConnections := [(1, {| res := 1; user := alice; connectedAt := 1700000000000 - 5000 |})];
     connectionIdCounter := 1 |}.

Definition request_text (id : Z) (method : string) (params : Value) : string :=
  JsonText.print (obj [("jsonrpc", str "2.0"); ("id", num id); ("method", str method);
                       ("params", params)]).

Definition call_text (tool : string) (channel_key : string) : string :=
  request_text 7 "tools/call"
    (object [("name", str tool);
             ("arguments", object [(channel_key, str "C123"); ("text", str "hi")])]).

(** The sessions a sweep leaves in the map, entry by entry: the [k]-th
    clock read decides the entry visited with it (proved in
    [exec_sweep_entries]). *)
Fixpoint swept (clk : nat -> Z) (k : nat) (objs : list Session)
    (entries m : list (string * nat)) : list (string * nat) :=
  match entries with
  | [] => m
  | (key, ref) :: rest =>
      swept clk (S k) objs rest
        match nth_error objs ref with
        | Some value =>
            if clk k - timestamp value >? 10 * 60 * 1000 then JsMap.delete m key else m
        | None => m
        end
  end.

(** The handlers of a deployment. *)
Module Deployed.
Definition initiate (d : Deployment) : Prog unit :=
  DuoSse.auth_duo_initiate (DUO_API_HOSTNAME d) (DUO_CLIENT_ID d) (DUO_REDIRECT_URI d).

Definition callback (d : Deployment) (code state : option string) : Prog unit :=
  DuoSse.auth_callback (DUO_API_HOSTNAME d) (DUO_CLIENT_ID d) (DUO_CLIENT_SECRET d)
    (DUO_REDIRECT_URI d) (StringToNumber d) code state.

Definition exchange (d : Deployment) (code codeVerifier : string) : Request :=
  DuoSse.token_request (DUO_API_HOSTNAME d) (DUO_CLIENT_ID d) (DUO_CLIENT_SECRET d)
    (DUO_REDIRECT_URI d) code codeVerifier.

Definition introspect (d : Deployment) (token : string) : Request :=
  introspection_request (DUO_TOKEN_INTROSPECTION_ENDPOINT d) (DUO_CLIENT_ID d)
    (DUO_CLIENT_SECRET d) token.

Definition verify (d : Deployment) (token : string) : Prog Verification.t :=
  verifyDuoToken (DUO_TOKEN_INTROSPECTION_ENDPOINT d) (DUO_CLIENT_ID d)
    (DUO_CLIENT_SECRET d) token.

Definition open_stream (d : Deployment) (authorization : option string) : Prog unit :=
  DuoSse.get_mcp (DUO_CLIENT_ID d) (DUO_CLIENT_SECRET d)
    (DUO_TOKEN_INTROSPECTION_ENDPOINT d) authorization.

Definition post_sse (d : Deployment) (authorization : option string) (message : Value)
    : Prog unit :=
  DuoSse.post_mcp (DUO_CLIENT_ID d) (DUO_CLIENT_SECRET d)
    (DUO_TOKEN_INTROSPECTION_ENDPOINT d) (SLACK_BOT_TOKEN d) authorization message.

Definition post_duo (d : Deployment) (authorization : option string) (request : Value)
    : Prog unit :=
  HttpDuo.post_mcp (env_string (SLACK_BOT_TOKEN d)) (DUO_ENABLED d)
    (DUO_TOKEN_INTROSPECTION_ENDPOINT d) (DUO_CLIENT_ID d) (DUO_CLIENT_SECRET d)
    authorization request.
End Deployed.

(** [req.user] as the middleware fills it in. *)
Definition verified_user (v : Verification.t) : User :=
  {| username := Verification.username v;
     displayName := Verification.displayName v;
     email := Verification.email v |}.

(** Bob holds a valid token and no open stream: the only stream is Alice's. *)
Definition bob_network (k : nat) (rq : Request) : FetchResult :=
  respond 200 (obj [("active", bool_value true); ("username", str "bob");
                    ("email", str "bob@example.com")]).

Definition bob_oracle : Oracle :=
  {| clock := fun k => 1700000000000 + Z.of_nat k;
     entropy := fun k => Z.of_nat k;
     network := bob_network;
     meanwhile := fun _ w => w |}.

(** The module state with another session map. *)
Definition with_sessions (w : World) (m : list (string * nat)) : World :=
  {| objects := objects w; authSessions := m; sseConnections := sseConnections w;
     connectionIdCounter := connectionIdCounter w |}.

(** The state key and the code verifier an initiation draws from the
    entropy of its run: the first and the second 32 bytes. *)
Definition fresh_state (o : Oracle) : string :=
  hex (map (fun i => entropy o i mod 256) (seq 0 32)).

Definition fresh_verifier (o : Oracle) : string :=
  base64url (map (fun i => entropy o i mod 256) (seq 32 32)).

(** The module state after [authSessions.set] of an initiation. *)
Definition with_new_session (o : Oracle) (w : World) : World :=
  {| objects := (objects w ++ [DuoSse.new_session (fresh_verifier o) (clock o 0)])%list;
     authSessions := JsMap.set (authSessions w) (fresh_state o) (List.length (objects w));
     sseConnections := sseConnections w;
     connectionIdCounter := connectionIdCounter w |}.

(** [new URL(url).searchParams.get(name)] on a URL whose parameter values
    need no decoding. *)
Definition query_param (name url : string) : option string :=
  match split_on "?" url with
  | _ :: q :: _ =>
      (fix find (pairs : list string) : option string :=
         match pairs with
         | [] => None
         | binding :: rest =>
             match split_on "=" binding with
             | key :: value :: _ => if String.eqb key name then Some value else find rest
             | _ => find rest
             end
         end) (split_on "&" q)
  | _ => None
  end.

(** ** Every path of a handler

    [paths p tr Q E]: started after the events [tr], and whatever the
    clock, the entropy, the network and the module state give it, [p]
    either returns some [a] with [Q a tr'] or throws some [e] with
    [E e tr'], where [tr'] holds the events up to that point. *)

Fixpoint paths {A : Type} (p : Prog A) (tr : list Event)
    (Q : A -> list Event -> Prop) (E : Exn -> list Event -> Prop) : Prop :=
  match p with
  | Ret a => Q a tr
  | Throw e => E e tr
  | DateNow k => forall t, paths (k t) tr Q E
  | RandomBytes _ k => forall bs, paths (k bs) tr Q E
  | Await rq k => forall r, paths (k r) (tr ++ [Called rq])%list Q E
  | Load k => forall w, paths (k w) tr Q E
  | Store _ k => paths k tr Q E
  | Emit o k => paths k (tr ++ [Sent o])%list Q E
  end.

(** The HTTP replies, the WebSocket frames and the events written to SSE
    streams among the events of a run. *)
Fixpoint replies (tr : list Event) : list (Z * ReplyBody) :=
  match tr with
  | [] => []
  | Sent (Reply code content) :: r => (code, content) :: replies r
  | _ :: r => replies r
  end.

Fixpoint frames (tr : list Event) : list JSON :=
  match tr with
  | [] => []
  | Sent (WsSend m) :: r => m :: frames r
  | _ :: r => frames r
  end.

Fixpoint stream_writes (tr : list Event) : list (Z * string * JSON) :=
  match tr with
  | [] => []
  | Sent (SseWrite stream event data) :: r => (stream, event, data) :: stream_writes r
  | _ :: r => stream_writes r
  end.

(** A server whose dispatcher sits behind the Duo gate. *)
Definition gated (d : Deployment) (v : Variant) : bool :=
  match v with
  | DuoHttp => DUO_ENABLED d
  | DuoSseStream => true
  | WebSocket | PlainHttp => false
  end.

(** A reply carries the [id] of the request, or [null] with one of the two
    codes the servers send without looking at the request. *)
Definition echoes (request : Value) (m : JSON) : Prop :=
  prop_opt (Some m) "id" = prop_opt request "id"
  \/ (prop_opt (Some m) "id" = Some JNull
      /\ (error_code m = num (-32700) \/ error_code m = num (-32600))).

(** What one request makes a server ask of the network: nothing, the Slack
    call with the bot token, the introspection of the token the header
    carries, or that introspection followed by the Slack call. [guarded]
    tells whether the dispatcher sits behind the Duo gate. *)
Inductive asked (d : Deployment) (authorization : option string) (guarded : bool)
    : list Request -> Prop :=
| asked_nothing : asked d authorization guarded []
| asked_slack (channel text : Value) :
    guarded = false ->
    asked d authorization guarded
      [slack_request (env_string (SLACK_BOT_TOKEN d)) channel text]
| asked_duo (token : string) :
    guarded = true -> extractToken authorization = Some token -> token <> "" ->
    asked d authorization guarded [Deployed.introspect d token]
| asked_duo_slack (token : string) (channel text : Value) :
    guarded = true -> extractToken authorization = Some token -> token <> "" ->
    asked d authorization guarded
      [Deployed.introspect d token;
       slack_request (env_string (SLACK_BOT_TOKEN d)) channel text].



(** An oracle for the examples whose network answers by the request alone
    and whose other handlers do nothing. *)
Definition oracle_answering (answer : Request -> FetchResult) : Oracle :=
  {| clock := fun k => 1700000000000 + Z.of_nat k;
     entropy := fun k => Z.of_nat k;
     network := fun _ rq => answer rq;
     meanwhile := fun _ w => w |}.

(** Introspection answers that the token is not active. *)
Definition inactive (rq : Request) : FetchResult :=
  respond 200 (obj [("active", bool_value false)]).

(** The first member of [arguments] a variant reads when it calls Slack. *)
Definition first_argument (v : Variant) : string :=
  match v with
  | DuoHttp => "text"
  | DuoSseStream => "channel"
  | WebSocket | PlainHttp => "channel_id"
  end.

(** How a variant sends a JSON-RPC message back with status [code]:
    a frame of the socket, or the body of the HTTP reply. *)
Definition answer (v : Variant) (code : Z) (m : JSON) : Output :=
  match v with
  | WebSocket => WsSend m
  | _ => Reply code (Json m)
  end.


(** The network of the examples with Slack out of reach. *)
Definition slack_unreachable (rq : Request) : FetchResult :=
  if String.eqb (url rq) "https://slack.com/api/chat.postMessage"
  then Rejected "fetch failed"
  else sample_network slack_ok 0 rq.


(** The member of [arguments] a variant takes the channel from. *)
Definition channel_key (v : Variant) : string :=
  match v with
  | DuoSseStream => "channel"
  | _ => "channel_id"
  end.



(** Every character of [s] is one of [alphabet]. *)
Definition within (alphabet s : string) : bool :=
  forallb (fun c => existsb (Ascii.eqb c) (list_ascii_of_string alphabet))
          (list_ascii_of_string s).

(** A byte of a [Buffer]. *)
Definition byte (b : Z) : Prop := 0 <= b < 256.

(** The length of [buf.toString('base64url')] for a buffer of [n] bytes. *)
Fixpoint base64url_length (n : nat) : nat :=
  match n with
  | O => 0
  | 1%nat => 2
  | 2%nat => 3
  | S (S (S m)) => 4 + base64url_length m
  end.

(** The token endpoint refuses every exchange. *)
Definition exchange_refused (rq : Request) : FetchResult :=
  Resolved {| status := 400; body_text := "invalid_grant"; body_json := inl "Unexpected token" |}.

(** The token endpoint answers 200 with the body [null]. *)
Definition exchange_null (rq : Request) : FetchResult := respond 200 JNull.


(** The routes and timers of the Duo OAuth + SSE server, as handlers of a
    deployment. *)
Inductive handler (d : Deployment) : Prog unit -> Prop :=
| handles_initiate : handler d (Deployed.initiate d)
| handles_callback (code state : option string) : handler d (Deployed.callback d code state)
| handles_status (state : option string) : handler d (DuoSse.auth_status state)
| handles_open (authorization : option string) :
    handler d (Deployed.open_stream d authorization)
| handles_post (authorization : option string) (message : Value) :
    handler d (Deployed.post_sse d authorization message)
| handles_close (id : Z) : handler d (DuoSse.on_close id)
| handles_cleanup : handler d DuoSse.cleanup.

(** Every registered connection got its id from the counter. *)
Definition ids_issued (w : World) : Prop :=
  forall id c, In (id, c) (sseConnections w) -> id <= connectionIdCounter w.

(** The cleanup timer, reading the clock at [t], finds the connection more
    than an hour old. *)
Definition expired (t : Z) (c : Connection) : bool := t - connectedAt c >? 3600000.

(** Alice with two open streams. *)
Definition two_streams : World :=
  {| objects := [];
     authSessions := [];
     sseConnections :=
       [(1, {| res := 1; user := alice; connectedAt := 1700000000000 - 9000 |});
        (2, {| res := 2; user := alice; connectedAt := 1700000000000 - 5000 |})];
     connectionIdCounter := 2 |}.


(** ** The SSE server built on the MCP SDK

    The SDK owns the transport and the JSON-RPC envelope; the repository
    registers two request handlers with it. A handler returns its result to
    the SDK or throws. *)

Module Sse.
Section Server.
Variable SLACK_BOT_TOKEN : string.

(** [server.setRequestHandler(ListToolsRequestSchema, ...)] *)
Definition list_tools : Prog JSON :=
  Ret (obj [("tools", array [
    obj [("name", str "slack_post_message");
         ("description", str "Post a message to Slack");
         ("inputSchema", object [
            ("type", str "object");
            ("properties", object [
               ("channel_id", object [("type", str "string");
                  ("description", str "Slack channel ID")]);
               ("text", object [("type", str "string");
                  ("description", str "Message text to post")])]);
            ("required", array [JStr "channel_id"; JStr "text"])])]])]).


(** [app.post('/message', ...)] *)
Definition post_message : Prog unit := emit (Reply 202 (Text "Accepted")).
End Server.
End Sse.

(** ** Startup of the Duo HTTP server *)

(** [process.env] *)
Definition Env := string -> option string.

Inductive Started : Type :=
| Exited (code : Z)
| Listening (d : Deployment).

Module Boot.
(** The top of the second file of server-http.js, down to [app.listen]:
    the settings it reads and the two checks that end the process. The
    engine's [JSON.parse] comes with the deployment. *)
Definition duo_http (JSON_parse : string -> option JSON) (env : Env) : Started :=
  let SLACK_BOT_TOKEN := env "SLACK_BOT_TOKEN" in
  let DUO_ENABLED :=
    match env "DUO_ENABLED" with
    | Some v => String.eqb v "true"
    | None => false
    end in
  let DUO_TOKEN_INTROSPECTION_ENDPOINT := env "DUO_TOKEN_INTROSPECTION_ENDPOINT" in
  let DUO_CLIENT_ID := env "DUO_CLIENT_ID" in
  let DUO_CLIENT_SECRET := env "DUO_CLIENT_SECRET" in
  if DuoSse.missing SLACK_BOT_TOKEN then Exited 1
  else if DUO_ENABLED
          && (DuoSse.missing DUO_TOKEN_INTROSPECTION_ENDPOINT
              || DuoSse.missing DUO_CLIENT_ID || DuoSse.missing DUO_CLIENT_SECRET)
  then Exited 1
  else Listening {| SLACK_BOT_TOKEN := SLACK_BOT_TOKEN;
                    DUO_ENABLED := DUO_ENABLED;
                    DUO_API_HOSTNAME := None;
                    DUO_CLIENT_ID := DUO_CLIENT_ID;
                    DUO_CLIENT_SECRET := DUO_CLIENT_SECRET;
                    DUO_TOKEN_INTROSPECTION_ENDPOINT := DUO_TOKEN_INTROSPECTION_ENDPOINT;
                    DUO_REDIRECT_URI := "";
                    JSON_parse := JSON_parse;
                    StringToNumber := fun _ => NaN |}.
End Boot.

(** An environment that spells the switch in capitals. *)
Definition shouting_env (name : string) : option string :=
  if String.eqb name "SLACK_BOT_TOKEN" then Some "xoxb-sample"
  else if String.eqb name "DUO_ENABLED" then Some "TRUE"
  else None.

(** * Theorems *)

(** ** The encodings and the digest on known vectors *)

Example sha256_abc :
  hex (Sha256.digest (bytes_of_string "abc"))
  = "ba7816bf8f01cfea414140de5dae2223b00361a396177a9cb410ff61f20015ad".
Proof. vm_compute. reflexivity. Qed.

Example sha256_two_blocks :
  hex (Sha256.digest
         (bytes_of_string "abcdbcdecdefdefgefghfghighijhijkijkljklmklmnlmnomnopnopq"))
  = "248d6a61d20638b8e5c026930c3e6039a33ce45964ff2167f6ecedd419db06c1".
Proof. vm_compute. reflexivity. Qed.

(** The verifier and challenge of RFC 7636, appendix B. *)
Example pkce_rfc7636 :
  base64url (Sha256.digest (bytes_of_string "dBjftJeZ4CVP-mB92K27uhbUJU1p1r_wW1gFWFOEjXk"))
  = "E9Melhoa2OwvFrEMTJguCHaoeK1t8URWbuGJSstw-cM".
Proof. vm_compute. reflexivity. Qed.

Example base64_padding :
  base64 (bytes_of_string "Ma") = "TWE=" /\ base64url (bytes_of_string "M") = "TQ".
Proof. split; reflexivity. Qed.

Example encodeURIComponent_redirect :
  encodeURIComponent "https://mcp.example.com/auth/callback"
  = "https%3A%2F%2Fmcp.example.com%2Fauth%2Fcallback".
Proof. reflexivity. Qed.

Example parse_print_roundtrip :
  JsonText.parse (call_text "nope" "channel_id")
  = Some (obj [("jsonrpc", str "2.0"); ("id", num 7); ("method", str "tools/call");
               ("params", object [("name", str "nope");
                                  ("arguments", object [("channel_id", str "C123");
                                                        ("text", str "hi")])])]).
Proof. vm_compute. reflexivity. Qed.

(** ** Running programs *)

Lemma exec_bind {A B : Type} (p : Prog A) (f : A -> Prog B) o c w :
  exec o c (bind p f) w =
  match outcome (exec o c p w) with
  | inl e =>
      {| outcome := inl e; final := final (exec o c p w); trace := trace (exec o c p w);
         position := position (exec o c p w) |}
  | inr a =>
      let r' := exec o (position (exec o c p w)) (f a) (final (exec o c p w)) in
      {| outcome := outcome r'; final := final r';
         trace := (trace (exec o c p w) ++ trace r')%list; position := position r' |}
  end.
Proof.
  revert c w.
  induction p as [a|e|k IH|n k IH|rq k IH|k IH|w' k IH|out k IH]; intros c w; cbn.
  - destruct (exec o c (f a) w); reflexivity.
  - reflexivity.
  - apply IH.
  - apply IH.
  - rewrite IH. destruct (outcome (exec _ _ (k _) _)); reflexivity.
  - apply IH.
  - apply IH.
  - rewrite IH. destruct (outcome (exec _ _ k _)); reflexivity.
Qed.

Lemma outputs_app (a b : list Event) : outputs (a ++ b) = (outputs a ++ outputs b)%list.
Proof.
  induction a as [|[rq|o] a IH]; cbn; [reflexivity|apply IH|now rewrite IH].
Qed.

Lemma calls_app (a b : list Event) : calls (a ++ b) = (calls a ++ calls b)%list.
Proof.
  induction a as [|[rq|o] a IH]; cbn; [reflexivity|now rewrite IH|apply IH].
Qed.

(** ** [verifyDuoToken] *)

(** [verifyDuoToken] is one introspection call followed by [verdict]: it returns,
    whatever the network answers. *)
Lemma exec_verifyDuoToken {B : Type} endpoint id secret token (f : Verification.t -> Prog B)
    o c w :
  exec o c (bind (verifyDuoToken endpoint id secret token) f) w =
  logged (Called (introspection_request endpoint id secret token))
    (exec o {| reads := reads c; draws := draws c; awaits := S (awaits c) |}
       (f (verdict (network o (awaits c) (introspection_request endpoint id secret token))))
       (meanwhile o (awaits c) w)).
Proof.
  unfold verifyDuoToken, fetch. cbn.
  destruct (network o (awaits c) _) as [m|resp]; cbn; [reflexivity|].
  destruct (response_ok resp); cbn; [|reflexivity].
  unfold json. destruct (body_json resp) as [m|data]; cbn; [reflexivity|].
  destruct data as [| b | n | s | items | ms]; cbn; try reflexivity.
  destruct (truthy (assoc "active" ms)); cbn; reflexivity.
Qed.


Lemma response_ok_range (r : Response) :
  response_ok r = true <-> 200 <= status r <= 299.
Proof.
  unfold response_ok. rewrite andb_true_iff, !Z.leb_le. tauto.
Qed.




Example verdict_active_false :
  verdict (respond 200 (obj [("active", bool_value false)])) = Verification.invalid
  /\ verdict (respond 401 (obj [("active", bool_value true)])) = Verification.invalid
  /\ verdict (Rejected "ECONNREFUSED") = Verification.invalid
  /\ Verification.valid (verdict (respond 200 (obj [("active", bool_value true)]))) = true.
Proof. repeat split. Qed.

(** ** [extractToken] *)

Lemma split_on_not_nil (sep : ascii) (s : string) : split_on sep s <> [].
Proof.
  destruct s as [|c r]; cbn; [discriminate|].
  destruct (Ascii.eqb c sep); [discriminate|].
  destruct (split_on sep r); discriminate.
Qed.

(** Joining the parts with the separator gives the string back. *)
Lemma split_on_concat (sep : ascii) (s : string) :
  String.concat (String sep EmptyString) (split_on sep s) = s.
Proof.
  induction s as [|c r IH]; [reflexivity|].
  pose proof (split_on_not_nil sep r) as Hne.
  cbn [split_on]. destruct (Ascii.eqb c sep) eqn:Hc.
  - apply Ascii.eqb_eq in Hc. subst c.
    destruct (split_on sep r) as [|h t]; [contradiction|].
    change (String sep (String.concat (String sep EmptyString) (h :: t)) = String sep r).
    now rewrite IH.
  - destruct (split_on sep r) as [|h t]; [contradiction|].
    rewrite <- IH. destruct t; reflexivity.
Qed.

(** No part holds the separator. *)
Lemma split_on_parts (sep : ascii) (s : string) :
  Forall (fun p => existsb (Ascii.eqb sep) (list_ascii_of_string p) = false)
         (split_on sep s).
Proof.
  induction s as [|c r IH]; [repeat constructor|].
  cbn [split_on]. destruct (Ascii.eqb c sep) eqn:Hc.
  - constructor; [reflexivity|exact IH].
  - destruct (split_on sep r) as [|h t]; [repeat constructor; cbn|].
    + rewrite Ascii.eqb_sym, Hc. reflexivity.
    + inversion IH as [|? ? Hh Ht]; subst. constructor; [|exact Ht].
      cbn. rewrite Ascii.eqb_sym, Hc. exact Hh.
Qed.

Lemma split_on_whole (sep : ascii) (s : string) :
  existsb (Ascii.eqb sep) (list_ascii_of_string s) = false -> split_on sep s = [s].
Proof.
  induction s as [|c r IH]; [reflexivity|].
  cbn. rewrite Ascii.eqb_sym. destruct (Ascii.eqb c sep); cbn; [discriminate|].
  intros H. now rewrite (IH H).
Qed.

(** [extractToken] returns a token exactly for [Bearer], one space, and a
    token without a space. *)
Lemma extractToken_Some (h token : string) :
  extractToken (Some h) = Some token <->
  h = "Bearer " ++ token /\ has_space token = false.
Proof.
  split.
  - unfold extractToken. destruct (String.eqb h ""); [discriminate|].
    pose proof (split_on_concat " " h) as Hc.
    pose proof (split_on_parts " " h) as Hp.
    destruct (split_on " " h) as [|p0 [|p1 [|p2 t]]]; try discriminate.
    destruct (String.eqb_spec p0 "Bearer") as [->|]; [|discriminate].
    intros [= <-]. split.
    + rewrite <- Hc. reflexivity.
    + inversion Hp as [|? ? _ Hp1]; subst. inversion Hp1; subst. assumption.
  - intros [-> Hs]. unfold extractToken. cbn.
    unfold has_space in Hs. rewrite (split_on_whole " " token Hs). reflexivity.
Qed.

Lemma no_token_without_bearer_form (authorization : option string) :
  (forall h, authorization = Some h -> ~ bearer_form h) ->
  no_token (extractToken authorization) = true.
Proof.
  intros Hn. destruct authorization as [h|]; [|reflexivity].
  destruct (extractToken (Some h)) as [token|] eqn:He; [|reflexivity].
  cbn. destruct (String.eqb_spec token "") as [|Hne]; [reflexivity|].
  exfalso. apply (Hn h eq_refl). apply extractToken_Some in He as [-> Hs].
  exists token. auto.
Qed.

Example extractToken_cases :
  extractToken (Some "Bearer abc") = Some "abc"
  /\ extractToken (Some "bearer abc") = None
  /\ extractToken (Some "Bearer") = None
  /\ extractToken (Some "Bearer a b") = None
  /\ extractToken (Some "Bearer  abc") = None
  /\ extractToken (Some "Bearer ") = Some ""
  /\ extractToken None = None.
Proof. repeat split. Qed.

(** C8. A protected request whose [Authorization] header is absent or is
    not exactly [Bearer <token>] is answered with HTTP 401 at once: the Duo
    HTTP middleware (when Duo is enabled) and both routes of the Duo SSE
    server reply 401, make no network call, so no introspection, and leave
    the module state alone. *)
Theorem gate_rejects_malformed_header (d : Deployment) (authorization : option string)
    (message : Value) (o : Oracle) (w : World) :
  (forall h, authorization = Some h -> ~ bearer_form h) ->
  DUO_ENABLED d = true ->
  decoded message ->
  let duo := run o (Deployed.post_duo d authorization message) w in
  let opened := run o (Deployed.open_stream d authorization) w in
  let posted := run o (Deployed.post_sse d authorization message) w in
  (trace duo
   = [Sent (Reply 401 (Json (rpc_error (Some JNull) (-32600) "Authorization token required")))]
   /\ outcome duo = inr tt /\ final duo = w)
  /\ (trace opened
      = [Sent (Reply 401 (Json (obj [("error", str "Authorization token required")])))]
      /\ outcome opened = inr tt /\ final opened = w)
  /\ (trace posted
      = [Sent (Reply 401 (Json (obj [("error", str "Authorization token required")])))]
      /\ outcome posted = inr tt /\ final posted = w).
Proof.
  intros Hform Hduo Hmsg. pose proof (no_token_without_bearer_form _ Hform) as Hno.
  cbv zeta. split; [|split].
  - unfold Deployed.post_duo, HttpDuo.post_mcp, HttpDuo.authenticateRequest, run.
    rewrite Hduo, Hno. cbn. auto.
  - unfold Deployed.open_stream, DuoSse.get_mcp, run.
    destruct (extractToken authorization) as [token|]; cbn in *.
    + rewrite Hno. cbn. auto.
    + auto.
  - unfold Deployed.post_sse, DuoSse.post_mcp, run.
    destruct message as [[| b | n | s | items | ms]|]; cbn in Hmsg; try contradiction;
      cbn; (destruct (extractToken authorization) as [token|]; cbn in *;
            [rewrite Hno; cbn; auto | auto]).
Qed.

Lemma gate_rejects_malformed_header_witness :
  let d := sample_deployment in
  let o := sample_oracle slack_ok in
  let message := JsonText.parse (request_text 1 "initialize" None) in
  trace (run o (Deployed.post_duo d (Some "Basic dXNlcjpwdw==") message) sample_world)
  = [Sent (Reply 401 (Json (rpc_error (Some JNull) (-32600) "Authorization token required")))]
  /\ trace (run o (Deployed.post_sse d (Some "Bearer") message) sample_world)
     = [Sent (Reply 401 (Json (obj [("error", str "Authorization token required")])))].
Proof.
  cbv zeta. split.
  - apply (gate_rejects_malformed_header sample_deployment (Some "Basic dXNlcjpwdw==")
             (JsonText.parse (request_text 1 "initialize" None))
             (sample_oracle slack_ok) sample_world).
    + intros h [= <-] (token & Heq & _). discriminate Heq.
    + reflexivity.
    + vm_compute. exact I.
  - apply (gate_rejects_malformed_header sample_deployment (Some "Bearer")
             (JsonText.parse (request_text 1 "initialize" None))
             (sample_oracle slack_ok) sample_world).
    + intros h [= <-] (token & Heq & _). discriminate Heq.
    + reflexivity.
    + vm_compute. exact I.
Defined.

(** ** The Duo SSE route *)

Lemma find_connection_none (conns : list (Z * Connection)) (e : Value) :
  (forall id conn, In (id, conn) conns -> strict_eq (email (user conn)) e = false) <->
  DuoSse.find_connection conns e = None.
Proof.
  induction conns as [|[id conn] rest IH]; cbn.
  - split; [reflexivity|intros _ ? ? []].
  - split.
    + intros H. rewrite (H id conn (or_introl eq_refl)). apply IH.
      intros id' conn' Hin. apply (H id' conn'). now right.
    + destruct (strict_eq (email (user conn)) e) eqn:Hc; [discriminate|].
      intros Hnone id' conn' [[= <- <-]|Hin]; [exact Hc|].
      now apply (proj2 IH Hnone id' conn').
Qed.

(** Up to the lookup of the stream, the POST route is the token check. *)
Lemma post_sse_admitted (d : Deployment) authorization message token o w :
  decoded message ->
  extractToken authorization = Some token ->
  token <> "" ->
  Verification.valid (verdict (network o 0 (Deployed.introspect d token))) = true ->
  run o (Deployed.post_sse d authorization message) w =
  logged (Called (Deployed.introspect d token))
    (exec o {| reads := 0; draws := 0; awaits := 1 |}
       match DuoSse.find_connection (sseConnections (meanwhile o 0 w))
               (Verification.email (verdict (network o 0 (Deployed.introspect d token)))) with
       | None =>
           emit (Reply 404 (Json (obj [("error", str
             "No active SSE connection found. Please establish GET /mcp connection first.")])))
       | Some targetConnection =>
           try_catch
             (DuoSse.dispatch (SLACK_BOT_TOKEN d) message (res targetConnection)
                (displayName (user targetConnection)))
             (fun error =>
                DuoSse.sendJSONRPCError (res targetConnection) (prop_opt message "id")
                  (-32603) (message_of error) ;;
                emit (Reply 500 (Json (obj [("error", str (message_of error))]))))
       end
       (meanwhile o 0 w)).
Proof.
  intros Hmsg Hext Hne Hvalid.
  apply String.eqb_neq in Hne.
  unfold Deployed.post_sse, Deployed.introspect, DuoSse.post_mcp, DuoSse.verify, run in *.
  destruct message as [[| b | n | s | items | ms]|]; cbn in Hmsg; try contradiction;
    cbn [lift prop bind]; rewrite Hext, Hne, exec_verifyDuoToken; cbn [start awaits reads draws];
    rewrite Hvalid; reflexivity.
Qed.

(** C10. In the Duo SSE server, an authenticated POST to [/mcp] for which
    no registered stream has a user email [===] the caller's verified email
    is answered 404 before any dispatch: the run consists of the
    introspection call and that reply, so nothing is written to a stream
    and Slack is not called, and the handler writes nothing to the module
    state (it ends in the state the event loop handed it back after the
    introspection call). *)
Theorem post_without_stream_is_404 (d : Deployment) (authorization : option string)
    (message : Value) (token : string) (o : Oracle) (w : World) :
  decoded message ->
  extractToken authorization = Some token ->
  token <> "" ->
  Verification.valid (verdict (network o 0 (Deployed.introspect d token))) = true ->
  (forall id conn, In (id, conn) (sseConnections (meanwhile o 0 w)) ->
     strict_eq (email (user conn))
       (Verification.email (verdict (network o 0 (Deployed.introspect d token)))) = false) ->
  let r := run o (Deployed.post_sse d authorization message) w in
  trace r
  = [Called (Deployed.introspect d token);
     Sent (Reply 404 (Json (obj [("error", str
       "No active SSE connection found. Please establish GET /mcp connection first.")])))]
  /\ outcome r = inr tt
  /\ final r = meanwhile o 0 w
  /\ sseConnections (final r) = sseConnections (meanwhile o 0 w)
  /\ authSessions (final r) = authSessions (meanwhile o 0 w).
Proof.
  intros Hmsg Hext Hne Hvalid Hnone. cbv zeta.
  rewrite (post_sse_admitted d authorization message token o w Hmsg Hext Hne Hvalid).
  apply find_connection_none in Hnone. rewrite Hnone. cbn. auto.
Qed.

Lemma post_without_stream_is_404_witness :
  let r := run bob_oracle
             (Deployed.post_sse sample_deployment (Some "Bearer bobs-token")
                (JsonText.parse (call_text "postMessage" "channel")))
             sample_world in
  outputs (trace r)
  = [Reply 404 (Json (obj [("error", str
       "No active SSE connection found. Please establish GET /mcp connection first.")]))]
  /\ final r = sample_world.
Proof.
  cbv zeta.
  destruct (post_without_stream_is_404 sample_deployment (Some "Bearer bobs-token")
              (JsonText.parse (call_text "postMessage" "channel")) "bobs-token"
              bob_oracle sample_world) as (Ht & _ & Hf & _).
  - vm_compute. exact I.
  - reflexivity.
  - discriminate.
  - reflexivity.
  - intros id conn [[= <- <-]|[]]. reflexivity.
  - rewrite Ht, Hf. split; reflexivity.
Defined.

(** ** The dispatchers behind their gates *)

Lemma rpc_result_id (id result : Value) :
  prop_opt (Some (rpc_result id result)) "id" = id.
Proof. destruct id, result; reflexivity. Qed.

Lemma rpc_result_result (id : Value) (result : JSON) :
  prop_opt (Some (rpc_result id (Some result))) "result" = Some result.
Proof. destruct id; reflexivity. Qed.

Lemma rpc_error_id (id : Value) (code : Z) (message : string) :
  prop_opt (Some (rpc_error id code message)) "id" = id.
Proof. destruct id; reflexivity. Qed.

Lemma rpc_error_code (id : Value) (code : Z) (message : string) :
  error_code (rpc_error id code message) = num code.
Proof. destruct id; reflexivity. Qed.

Lemma rpc_error_message (id : Value) (code : Z) (message : string) :
  prop_opt (prop_opt (Some (rpc_error id code message)) "error") "message" = str message.
Proof. destruct id; reflexivity. Qed.

(** With Duo disabled the middleware calls the route for an anonymous user. *)
Lemma post_duo_open (d : Deployment) authorization request o w :
  DUO_ENABLED d = false ->
  run o (Deployed.post_duo d authorization request) w =
  exec o start
    (HttpDuo.dispatch (env_string (SLACK_BOT_TOKEN d)) false request
       {| username := None; displayName := str "Anonymous User"; email := None |}) w.
Proof.
  intros Hoff. unfold Deployed.post_duo, HttpDuo.post_mcp, HttpDuo.authenticateRequest, run.
  rewrite Hoff. reflexivity.
Qed.

(** With Duo enabled and a token that passes, it calls the route for the
    verified user, after the introspection call. *)
Lemma post_duo_admitted (d : Deployment) authorization request token o w :
  DUO_ENABLED d = true ->
  passes d o authorization token ->
  run o (Deployed.post_duo d authorization request) w =
  logged (Called (Deployed.introspect d token))
    (exec o {| reads := 0; draws := 0; awaits := 1 |}
       (HttpDuo.dispatch (env_string (SLACK_BOT_TOKEN d)) true request
          (verified_user (verdict (network o 0 (Deployed.introspect d token)))))
       (meanwhile o 0 w)).
Proof.
  intros Hon (Hext & Hne & Hvalid). apply String.eqb_neq in Hne.
  unfold Deployed.post_duo, Deployed.introspect, HttpDuo.post_mcp,
    HttpDuo.authenticateRequest, run in *.
  rewrite Hon, Hext. cbn [negb no_token]. rewrite Hne, exec_verifyDuoToken.
  cbn [start awaits reads draws]. rewrite Hvalid. reflexivity.
Qed.

(** A body that decodes to an object reaches the route of every variant. *)
Lemma receive_object (d : Deployment) (v : Variant) authorization raw ms :
  JSON_parse d raw = Some (JObj ms) ->
  receive d v authorization raw =
  match v with
  | WebSocket => Ws.on_message (env_string (SLACK_BOT_TOKEN d)) (JSON_parse d) raw
  | PlainHttp => Http.post_mcp (env_string (SLACK_BOT_TOKEN d)) (Some (JObj ms))
  | DuoHttp => Deployed.post_duo d authorization (Some (JObj ms))
  | DuoSseStream => Deployed.post_sse d authorization (Some (JObj ms))
  end.
Proof.
  intros Hp. destruct v; cbn; unfold Http.serve, HttpDuo.serve, DuoSse.serve, express_json;
    rewrite ?Hp; reflexivity.
Qed.

(** ** [initialize] *)




(** ** [tools/call] *)









Example slack_failure_on_the_stream :
  outputs (trace (run (sample_oracle slack_channel_not_found)
                    (receive sample_deployment DuoSseStream (Some "Bearer tok")
                       (call_text "postMessage" "channel"))
                    sample_world))
  = [SseWrite 1 "message" (rpc_error (num 7) (-32603) "channel_not_found");
     Reply 500 (Json (obj [("error", str "channel_not_found")]))].
Proof. vm_compute. reflexivity. Qed.

(** A [tools/call] for a tool that is not registered: on the plain HTTP,
    Duo HTTP and Duo SSE servers the caller gets exactly one JSON-RPC error
    with code -32601 and the request's [id]. *)
Lemma unknown_tool_is_method_not_found (d : Deployment) (v : Variant)
    (authorization : option string) (raw : string) (ms ps : list (string * JSON))
    (o : Oracle) (w : World) :
  v <> WebSocket ->
  JSON_parse d raw = Some (JObj ms) ->
  assoc "method" ms = Some (JStr "tools/call") ->
  assoc "params" ms = Some (JObj ps) ->
  is_str (assoc "name" ps) (tool_name v) = false ->
  admitted d v authorization o w ->
  exists reply,
    rpc_replies v (outputs (trace (run o (receive d v authorization raw) w))) = [reply]
    /\ error_code reply = num (-32601)
    /\ prop_opt (Some reply) "id" = assoc "id" ms.
Proof.
  intros Hv Hp Hm Hps Hn Hadm.
  rewrite (receive_object d v authorization raw ms Hp).
  destruct v; [contradiction| | |]; cbn in Hadm, Hn.
  - exists (rpc_error (assoc "id" ms) (-32601) "Method not found").
    unfold run, Http.post_mcp. cbn. rewrite Hm. cbn. rewrite Hps. cbn. rewrite Hn. cbn.
    split; [reflexivity|]. split; [apply rpc_error_code|apply rpc_error_id].
  - exists (rpc_error (assoc "id" ms) (-32601) "Method not found").
    assert (Hrun : forall c w' on u,
      exec o c (HttpDuo.dispatch (env_string (SLACK_BOT_TOKEN d)) on (Some (JObj ms)) u) w'
      = logged (Sent (Reply 400 (Json (rpc_error (assoc "id" ms) (-32601) "Method not found"))))
          {| outcome := inr tt; final := w'; trace := []; position := c |}).
    { intros c w' on u. unfold HttpDuo.dispatch. cbn. rewrite Hm. cbn. rewrite Hps. cbn.
      rewrite Hn. cbn. reflexivity. }
    destruct (DUO_ENABLED d) eqn:Hon.
    + destruct Hadm as [Hoff|[token Hpass]]; [discriminate|].
      rewrite (post_duo_admitted d authorization _ token o w Hon Hpass), Hrun.
      split; [reflexivity|]. split; [apply rpc_error_code|apply rpc_error_id].
    + rewrite (post_duo_open d authorization _ o w Hon), Hrun.
      split; [reflexivity|]. split; [apply rpc_error_code|apply rpc_error_id].
  - exists (rpc_error (assoc "id" ms) (-32601) ("Unknown tool: " ++ to_string (assoc "name" ps))).
    destruct Hadm as (token & (Hext & Hne & Hvalid) & Hconn).
    rewrite (post_sse_admitted d authorization (Some (JObj ms)) token o w I Hext Hne Hvalid).
    unfold Deployed.introspect.
    destruct (DuoSse.find_connection _ _) as [conn|]; [|contradiction].
    unfold DuoSse.dispatch. cbn. rewrite Hm. cbn. rewrite Hps. cbn. rewrite Hn. cbn.
    split; [reflexivity|]. split; [apply rpc_error_code|apply rpc_error_id].
Qed.

(** On the WebSocket server the same request is not answered at all:
    [response] stays [null] and [if (response)] has no [else]. *)
Lemma ws_unknown_tool_unanswered (token : string) (parse : string -> option JSON)
    (raw : string) (ms ps : list (string * JSON)) (o : Oracle) (w : World) :
  parse raw = Some (JObj ms) ->
  assoc "method" ms = Some (JStr "tools/call") ->
  assoc "params" ms = Some (JObj ps) ->
  is_str (assoc "name" ps) "slack_post_message" = false ->
  trace (run o (Ws.on_message token parse raw) w) = []
  /\ outcome (run o (Ws.on_message token parse raw) w) = inr tt.
Proof.
  intros Hp Hm Hps Hn. unfold run, Ws.on_message. rewrite Hp. cbn. rewrite Hm. cbn.
  rewrite Hps. cbn. rewrite Hn. cbn. auto.
Qed.

(** C2, at the failing input: the call of the unregistered tool [nope]
    with id 7. The WebSocket server sends nothing; the plain HTTP server
    answers the same body with the -32601 error. *)
Theorem ws_unknown_tool_no_reply :
  let raw := call_text "nope" "channel_id" in
  let o := sample_oracle slack_ok in
  trace (run o (receive sample_deployment WebSocket None raw) sample_world) = []
  /\ outputs (trace (run o (receive sample_deployment PlainHttp None raw) sample_world))
     = [Reply 400 (Json (rpc_error (num 7) (-32601) "Method not found"))].
Proof. vm_compute. split; reflexivity. Qed.

(** ** Malformed JSON *)

Lemma sends_only_bind {A B : Type} (P : Output -> Prop) (p : Prog A) (f : A -> Prog B) :
  sends_only P p -> (forall a, sends_only P (f a)) -> sends_only P (bind p f).
Proof.
  intros Hp Hf. induction p as [a|e|k IH|n k IH|rq k IH|k IH|w' k IH|out k IH]; cbn in *;
    auto.
  destruct Hp. auto.
Qed.

Lemma sends_only_try_catch {A : Type} (P : Output -> Prop) (p : Prog A) (h : Exn -> Prog A) :
  sends_only P p -> (forall e, sends_only P (h e)) -> sends_only P (try_catch p h).
Proof.
  intros Hp Hh. induction p as [a|e|k IH|n k IH|rq k IH|k IH|w' k IH|out k IH]; cbn in *;
    auto.
  destruct Hp. auto.
Qed.

Lemma sends_only_lift {A : Type} (P : Output -> Prop) (r : Exn + A) : sends_only P (lift r).
Proof. destruct r; exact I. Qed.

Lemma sends_only_exec {A : Type} (P : Output -> Prop) (p : Prog A) o c w :
  sends_only P p -> Forall P (outputs (trace (exec o c p w))).
Proof.
  revert c w. induction p as [a|e|k IH|n k IH|rq k IH|k IH|w' k IH|out k IH];
    intros c w Hp; cbn in *; auto.
  destruct Hp. constructor; auto.
Qed.

Lemma sends_only_verifyDuoToken (P : Output -> Prop) endpoint id secret token :
  sends_only P (verifyDuoToken endpoint id secret token).
Proof.
  unfold verifyDuoToken, fetch. cbn. intros [m|resp]; cbn; [exact I|].
  destruct (response_ok resp); cbn; [|exact I].
  unfold json. destruct (body_json resp) as [m|data]; cbn; [exact I|].
  destruct data as [| b | n | s | items | ms]; cbn; try exact I.
  destruct (truthy (assoc "active" ms)); exact I.
Qed.

Lemma no_parse_error_result (code : Z) (id result : Value) :
  no_parse_error (Reply code (Json (rpc_result id result)))
  /\ forall stream event, no_parse_error (SseWrite stream event (rpc_result id result)).
Proof.
  split; [|intros stream event]; intros m [= <-]; destruct id, result; discriminate.
Qed.

Lemma no_parse_error_error (id : Value) (code : Z) (message : string) stream event :
  code <> -32700 -> no_parse_error (SseWrite stream event (rpc_error id code message)).
Proof.
  intros Hc m [= <-]. rewrite rpc_error_code. intros [= H]. contradiction.
Qed.

(** Walks a handler: binds, catches, branches, and the leaves that send. *)
Ltac walk :=
  repeat first
    [ exact I
    | apply sends_only_lift
    | apply sends_only_verifyDuoToken
    | apply sends_only_bind
    | apply sends_only_try_catch
    | apply no_parse_error_error; discriminate
    | apply (proj2 (no_parse_error_result 0 _ _))
    | progress intros
    | match goal with
      | |- sends_only _ (match ?x with _ => _ end) => destruct x
      | |- sends_only _ (if ?b then _ else _) => destruct b
      | |- sends_only _ (json _) => unfold json
      | |- _ /\ _ => split
      | |- no_parse_error (Reply _ (Json (obj _))) =>
          let m := fresh in let H := fresh in
          intros m H; injection H as <-; discriminate
      end
    | progress cbn [sends_only emit store load now bind lift DuoSse.sendSSE
                    DuoSse.sendJSONRPCResponse DuoSse.sendJSONRPCError DuoSse.ok_reply
                    fetch json] ].

(** The POST route of the Duo SSE server has no reply with code -32700:
    whatever the header, the decoded body, the answers of the network and
    the registry, nothing it sends carries that code. *)
Lemma duo_sse_never_sends_parse_error (d : Deployment) authorization message :
  sends_only no_parse_error (Deployed.post_sse d authorization message).
Proof.
  unfold Deployed.post_sse, DuoSse.post_mcp, DuoSse.verify, DuoSse.dispatch,
    DuoSse.postToSlack.
  walk.
Qed.

(** On the WebSocket, a frame that [JSON.parse] rejects is answered with
    the parse error and nothing else. *)
Lemma ws_malformed_is_parse_error (token : string) (parse : string -> option JSON)
    (raw : string) (o : Oracle) (w : World) :
  parse raw = None ->
  trace (run o (Ws.on_message token parse raw) w) = [Sent (WsSend parse_error)]
  /\ is_parse_error parse_error.
Proof.
  intros Hp. unfold run, Ws.on_message. rewrite Hp. cbn. repeat split.
Qed.

(** Behind the JSON middleware, the same body never reaches the route. *)
Lemma http_malformed_stops_at_middleware (d : Deployment) (v : Variant)
    (authorization : option string) (raw : string) (o : Oracle) (w : World) :
  v <> WebSocket ->
  JSON_parse d raw = None ->
  trace (run o (receive d v authorization raw) w) = [Sent (Reply 400 (Html ExpressError))].
Proof.
  intros Hv Hp. destruct v; [contradiction| | |]; cbn;
    unfold Http.serve, HttpDuo.serve, DuoSse.serve, express_json; rewrite Hp; reflexivity.
Qed.

(** What the catch of the plain HTTP route does answer with the parse
    error: an exception thrown while dispatching a decoded body, such as a
    [tools/call] without [params]. *)
Example http_parse_error_without_params :
  outputs (trace (run (sample_oracle slack_ok)
                    (receive sample_deployment PlainHttp None
                       (request_text 3 "tools/call" None))
                    sample_world))
  = [Reply 500 (Json parse_error)].
Proof. vm_compute. reflexivity. Qed.

(** C3, at the failing input: the body [{oops], which is not JSON. The
    WebSocket server answers with the parse error; on the three HTTP
    servers the JSON middleware answers 400 itself with Express's error
    page, the route and its catch do not run, and no JSON-RPC message is
    sent. *)
Theorem malformed_body_on_each_variant :
  let raw := "{oops" in
  let o := sample_oracle slack_ok in
  let sent v := outputs (trace (run o (receive sample_deployment v (Some "Bearer tok") raw)
                                  sample_world)) in
  JSON_parse sample_deployment raw = None
  /\ sent WebSocket = [WsSend parse_error]
  /\ sent PlainHttp = [Reply 400 (Html ExpressError)]
  /\ sent DuoHttp = [Reply 400 (Html ExpressError)]
  /\ sent DuoSseStream = [Reply 400 (Html ExpressError)].
Proof. vm_compute. repeat split. Qed.

(** ** [Map] facts *)

Section MapFacts.
Context {K V : Type} {E : KeyEq K}.

Lemma keq_refl (k : K) : keq k k = true.
Proof. now apply keq_eq. Qed.

Lemma keq_neq (a b : K) : a <> b -> keq a b = false.
Proof.
  intros H. destruct (keq a b) eqn:Hk; [|reflexivity]. apply keq_eq in Hk. contradiction.
Qed.

Lemma get_set_same (m : list (K * V)) k v : JsMap.get (JsMap.set m k v) k = Some v.
Proof.
  induction m as [|[k' v'] r IH]; cbn.
  - now rewrite keq_refl.
  - destruct (keq k' k) eqn:Hk; cbn; [now rewrite keq_refl|now rewrite Hk].
Qed.

Lemma get_set_other (m : list (K * V)) k k' v :
  k <> k' -> JsMap.get (JsMap.set m k v) k' = JsMap.get m k'.
Proof.
  intros Hne. induction m as [|[k0 v0] r IH]; cbn.
  - now rewrite keq_neq.
  - destruct (keq k0 k) eqn:Hk; cbn.
    + apply keq_eq in Hk. subst k0. now rewrite keq_neq.
    + now rewrite IH.
Qed.

Lemma get_delete_other (m : list (K * V)) k k' :
  k <> k' -> JsMap.get (JsMap.delete m k) k' = JsMap.get m k'.
Proof.
  intros Hne. induction m as [|[k0 v0] r IH]; cbn; [reflexivity|].
  destruct (keq k0 k) eqn:Hk; cbn.
  - apply keq_eq in Hk. subst k0. now rewrite keq_neq.
  - now rewrite IH.
Qed.

Lemma get_none_absent (m : list (K * V)) k :
  JsMap.get m k = None <-> existsb (fun kv => keq (fst kv) k) m = false.
Proof.
  induction m as [|[k0 v0] r IH]; cbn; [tauto|].
  destruct (keq k0 k); cbn; [split; discriminate|exact IH].
Qed.

Lemma get_delete_none (m : list (K * V)) k k' :
  JsMap.get m k' = None -> JsMap.get (JsMap.delete m k) k' = None.
Proof.
  induction m as [|[k0 v0] r IH]; cbn; [reflexivity|].
  destruct (keq k0 k') eqn:Hk'; [discriminate|]. intros H.
  destruct (keq k0 k); cbn; [exact H|]. rewrite Hk'. auto.
Qed.

Lemma get_delete_same (m : list (K * V)) k :
  distinct_keys m = true -> JsMap.get (JsMap.delete m k) k = None.
Proof.
  induction m as [|[k0 v0] r IH]; cbn; [reflexivity|].
  intros [Hfresh Hd]%andb_true_iff. apply negb_true_iff in Hfresh.
  destruct (keq k0 k) eqn:Hk; cbn.
  - apply keq_eq in Hk. subst k0. now apply get_none_absent.
  - rewrite Hk. auto.
Qed.

Lemma absent_delete (m : list (K * V)) k k' :
  existsb (fun kv => keq (fst kv) k') m = false ->
  existsb (fun kv => keq (fst kv) k') (JsMap.delete m k) = false.
Proof.
  intros H. apply get_none_absent, get_delete_none, get_none_absent, H.
Qed.

Lemma absent_set (m : list (K * V)) k k' v :
  k <> k' ->
  existsb (fun kv => keq (fst kv) k') m = false ->
  existsb (fun kv => keq (fst kv) k') (JsMap.set m k v) = false.
Proof.
  intros Hne H. apply get_none_absent. rewrite get_set_other by exact Hne.
  now apply get_none_absent.
Qed.

Lemma distinct_delete (m : list (K * V)) k :
  distinct_keys m = true -> distinct_keys (JsMap.delete m k) = true.
Proof.
  induction m as [|[k0 v0] r IH]; cbn; [reflexivity|].
  intros [Hfresh Hd]%andb_true_iff. destruct (keq k0 k); [exact Hd|]. cbn.
  apply andb_true_iff. split; [|auto].
  apply negb_true_iff, absent_delete. now apply negb_true_iff.
Qed.

Lemma distinct_set (m : list (K * V)) k v :
  distinct_keys m = true -> distinct_keys (JsMap.set m k v) = true.
Proof.
  induction m as [|[k0 v0] r IH]; cbn; [reflexivity|].
  intros [Hfresh Hd]%andb_true_iff. destruct (keq k0 k) eqn:Hk; cbn.
  - apply keq_eq in Hk. subst k0. now rewrite Hfresh, Hd.
  - apply andb_true_iff. split; [|auto].
    apply negb_true_iff, absent_set; [|now apply negb_true_iff].
    intros ->. now rewrite keq_refl in Hk.
Qed.

Lemma get_in (m : list (K * V)) k v : JsMap.get m k = Some v -> In (k, v) m.
Proof.
  induction m as [|[k0 v0] r IH]; cbn; [discriminate|].
  destruct (keq k0 k) eqn:Hk.
  - apply keq_eq in Hk. subst k0. intros [= ->]. now left.
  - intros H. right. auto.
Qed.

Lemma in_get (m : list (K * V)) k v :
  distinct_keys m = true -> In (k, v) m -> JsMap.get m k = Some v.
Proof.
  induction m as [|[k0 v0] r IH]; cbn; [intros _ []|].
  intros [Hfresh Hd]%andb_true_iff [[= -> ->]|Hin].
  - now rewrite keq_refl.
  - destruct (keq k0 k) eqn:Hk; [|auto].
    apply keq_eq in Hk. subst k0. apply negb_true_iff in Hfresh.
    apply get_none_absent in Hfresh. rewrite (IH Hd Hin) in Hfresh. discriminate.
Qed.

End MapFacts.

(** ** The sweep *)

(** The loop visits every entry, reads the clock once per entry, sends
    nothing and leaves the map [swept]. *)
Lemma exec_sweep_entries (o : Oracle) (entries : list (string * nat)) (c : Cursor) (w : World) :
  exec o c (DuoSse.sweep_entries entries) w =
  {| outcome := inr tt;
     final := with_sessions w (swept (clock o) (reads c) (objects w) entries (authSessions w));
     trace := [];
     position := {| reads := reads c + List.length entries; draws := draws c;
                    awaits := awaits c |} |}.
Proof.
  revert c w. induction entries as [|[key ref] rest IH]; intros c w.
  - cbn. rewrite Nat.add_0_r. destruct c, w; reflexivity.
  - cbn [DuoSse.sweep_entries]. cbn [now bind exec load].
    destruct (nth_error (objects w) ref) as [value|] eqn:Hv.
    + destruct (clock o (reads c) - timestamp value >? _) eqn:Hold.
      * cbn. rewrite IH. cbn. change (10 * 60 * 1000) with 600000 in *.
        rewrite Hv, Hold, Nat.add_succ_r. reflexivity.
      * cbn. rewrite IH. cbn. change (10 * 60 * 1000) with 600000 in *.
        rewrite Hv, Hold, Nat.add_succ_r. reflexivity.
    + cbn. rewrite IH. cbn. rewrite Hv, Nat.add_succ_r. reflexivity.
Qed.

Lemma run_sweep (o : Oracle) (w : World) :
  run o DuoSse.sweep w =
  {| outcome := inr tt;
     final := with_sessions w (swept (clock o) 0 (objects w) (authSessions w) (authSessions w));
     trace := [];
     position := {| reads := List.length (authSessions w); draws := 0; awaits := 0 |} |}.
Proof. unfold run, DuoSse.sweep. cbn. now rewrite exec_sweep_entries. Qed.

(** A session no reading of the loop finds older than ten minutes keeps
    its entry. The loop started at reading [n] takes the readings
    [n .. n + length entries - 1]. *)
Lemma swept_keeps (clk : nat -> Z) (objs : list Session) (state : string) (ref : nat)
    (s : Session) (entries : list (string * nat)) :
  (forall r, In (state, r) entries -> nth_error objs r = Some s) ->
  forall n m,
    (forall k, (n <= k < n + List.length entries)%nat ->
               clk k - timestamp s <= 10 * 60 * 1000) ->
    JsMap.get m state = Some ref ->
    JsMap.get (swept clk n objs entries m) state = Some ref.
Proof.
  induction entries as [|[key ref'] rest IH]; intros Hs n m Hrecent Hget; cbn.
  - exact Hget.
  - apply IH.
    + intros r Hin. apply Hs. now right.
    + intros k Hk. apply Hrecent. cbn. lia.
    + destruct (nth_error objs ref') as [value|] eqn:Hv; [|exact Hget].
      destruct (clk n - timestamp value >? _) eqn:Hold; [|exact Hget].
      destruct (String.eqb_spec key state) as [->|Hne].
      * rewrite (Hs ref' (or_introl eq_refl)) in Hv. injection Hv as <-.
        apply Z.gtb_lt in Hold. assert (Hn : (n <= n < n + S (List.length rest))%nat) by lia.
        specialize (Hrecent n Hn). lia.
      * now rewrite get_delete_other.
Qed.

(** A session every reading of the loop finds older than ten minutes
    loses its entry. *)
Lemma swept_drops (clk : nat -> Z) (objs : list Session) (state : string) (ref : nat)
    (s : Session) (entries : list (string * nat)) :
  nth_error objs ref = Some s ->
  forall n m,
    (forall k, (n <= k < n + List.length entries)%nat ->
               clk k - timestamp s > 10 * 60 * 1000) ->
    distinct_keys m = true ->
    In (state, ref) entries \/ JsMap.get m state = None ->
    JsMap.get (swept clk n objs entries m) state = None.
Proof.
  intros Hobj. induction entries as [|[key ref'] rest IH]; intros n m Hold Hd Hcase; cbn.
  - destruct Hcase as [[]|H]. exact H.
  - assert (Hrest : forall k, (S n <= k < S n + List.length rest)%nat ->
                              clk k - timestamp s > 10 * 60 * 1000).
    { intros k Hk. apply Hold. cbn. lia. }
    assert (Hn : clk n - timestamp s > 10 * 60 * 1000) by (apply Hold; cbn; lia).
    change (10 * 60 * 1000) with 600000 in *.
    destruct Hcase as [[[= -> ->]|Hin]|Hnone].
    + rewrite Hobj. apply Z.gt_lt, Z.gtb_lt in Hn. rewrite Hn.
      apply IH; [exact Hrest|now apply distinct_delete|]. right. now apply get_delete_same.
    + destruct (nth_error objs ref') as [value|]; [|apply IH; auto].
      destruct (clk n - timestamp value >? _); [|apply IH; auto].
      apply IH; [exact Hrest|now apply distinct_delete|]. now left.
    + destruct (nth_error objs ref') as [value|]; [|apply IH; auto].
      destruct (clk n - timestamp value >? _); [|apply IH; auto].
      apply IH; [exact Hrest|now apply distinct_delete|]. right. now apply get_delete_none.
Qed.

Lemma length_set {K V : Type} {E : KeyEq K} (m : list (K * V)) k v :
  (List.length (JsMap.set m k v) <= S (List.length m))%nat.
Proof.
  induction m as [|[k0 v0] r IH]; cbn; [lia|]. destruct (keq k0 k); cbn; lia.
Qed.

Lemma session_of_with_sessions (w : World) (m : list (string * nat)) (state : string) :
  session_of (with_sessions w m) state
  = match JsMap.get m state with
    | Some ref => nth_error (objects w) ref
    | None => None
    end.
Proof. reflexivity. Qed.

(** A configured initiation stores the new session, sweeps, and replies
    with the URL and the state key. *)
Lemma run_initiate (d : Deployment) (o : Oracle) (w : World) :
  DuoSse.missing (DUO_API_HOSTNAME d) = false ->
  DuoSse.missing (DUO_CLIENT_ID d) = false ->
  run o (Deployed.initiate d) w =
  let w1 := with_new_session o w in
  {| outcome := inr tt;
     final := with_sessions w1 (swept (clock o) 1 (objects w1) (authSessions w1)
                                  (authSessions w1));
     trace := [Sent (Reply 200 (Json (obj [
                ("authUrl", str (DuoSse.authUrl (DUO_API_HOSTNAME d) (DUO_CLIENT_ID d)
                                   (DUO_REDIRECT_URI d) (fresh_state o)
                                   (base64url (Sha256.digest
                                      (bytes_of_string (fresh_verifier o))))));
                ("state", str (fresh_state o))])))];
     position := {| reads := 1 + List.length (authSessions w1); draws := 64; awaits := 0 |} |}.
Proof.
  intros Hhost Hid. unfold run, Deployed.initiate, DuoSse.auth_duo_initiate.
  rewrite Hhost, Hid. cbn [orb].
  cbn [randomBytes now bind exec start reads draws awaits DuoSse.set_session load store
       DuoSse.sweep Nat.add].
  rewrite exec_bind, exec_sweep_entries. reflexivity.
Qed.

Lemma session_of_with_new_session (o : Oracle) (w : World) (state : string) (s : Session) :
  state <> fresh_state o ->
  session_of w state = Some s ->
  session_of (with_new_session o w) state = Some s
  /\ exists ref, JsMap.get (authSessions (with_new_session o w)) state = Some ref
                 /\ nth_error (objects (with_new_session o w)) ref = Some s.
Proof.
  intros Hne. unfold session_of. cbn [with_new_session authSessions objects].
  rewrite get_set_other by congruence.
  destruct (JsMap.get (authSessions w) state) as [ref|]; [|discriminate].
  intros Hs. assert (Hlt : (ref < List.length (objects w))%nat).
  { apply nth_error_Some. congruence. }
  rewrite nth_error_app1 by exact Hlt. split; [exact Hs|]. exists ref.
  split; [reflexivity|]. rewrite nth_error_app1 by exact Hlt. exact Hs.
Qed.

(** C5. A sweep removes from the session map every session that each
    clock reading of the run finds more than ten minutes old, and keeps
    every session that no reading finds more than ten minutes old (ten
    minutes sharp included). This holds for the loop run on any state, and
    for the loop where the program runs it, inside a configured flow
    initiation, for every key other than the one just drawn. A run reads
    the clock at most once per entry, and once more for the new session. *)
Theorem sweep_drops_old_keeps_recent (d : Deployment) (o : Oracle) (w : World)
    (state : string) (s : Session) :
  distinct_keys (authSessions w) = true ->
  session_of w state = Some s ->
  let readings (P : Z -> Prop) :=
    forall k, (k <= S (List.length (authSessions w)))%nat -> P (clock o k) in
  let swept_world := final (run o DuoSse.sweep w) in
  let after := final (run o (Deployed.initiate d) w) in
  (readings (fun t => t - timestamp s > 10 * 60 * 1000) ->
   JsMap.get (authSessions swept_world) state = None)
  /\ (readings (fun t => t - timestamp s <= 10 * 60 * 1000) ->
      session_of swept_world state = Some s)
  /\ (DuoSse.missing (DUO_API_HOSTNAME d) = false ->
      DuoSse.missing (DUO_CLIENT_ID d) = false ->
      state <> fresh_state o ->
      (readings (fun t => t - timestamp s > 10 * 60 * 1000) ->
       JsMap.get (authSessions after) state = None)
      /\ (readings (fun t => t - timestamp s <= 10 * 60 * 1000) ->
          session_of after state = Some s)).
Proof.
  intros Hd Hs. cbv zeta. rewrite run_sweep. cbn [final].
  assert (Hloop : forall w0 n,
    distinct_keys (authSessions w0) = true ->
    session_of w0 state = Some s ->
    (n + List.length (authSessions w0) <= S (S (List.length (authSessions w))))%nat ->
    let m := swept (clock o) n (objects w0) (authSessions w0) (authSessions w0) in
    ((forall k, (k <= S (List.length (authSessions w)))%nat ->
                clock o k - timestamp s > 10 * 60 * 1000) -> JsMap.get m state = None)
    /\ ((forall k, (k <= S (List.length (authSessions w)))%nat ->
                   clock o k - timestamp s <= 10 * 60 * 1000) ->
        session_of (with_sessions w0 m) state = Some s)).
  { intros w0 n Hd0 Hs0 Hlen. cbv zeta. unfold session_of in Hs0.
    destruct (JsMap.get (authSessions w0) state) as [ref|] eqn:Hget; [|discriminate].
    split.
    - intros Hold. apply (swept_drops (clock o) (objects w0) state ref s); auto.
      + intros k Hk. apply Hold. lia.
      + left. now apply get_in.
    - intros Hrecent. rewrite session_of_with_sessions.
      rewrite (swept_keeps (clock o) (objects w0) state ref s); auto.
      + intros r Hin. apply (in_get _ _ _ Hd0) in Hin. congruence.
      + intros k Hk. apply Hrecent. lia. }
  split; [apply (Hloop w 0%nat Hd Hs); lia|]. split; [apply (Hloop w 0%nat Hd Hs); lia|].
  intros Hhost Hid Hne. rewrite (run_initiate d o w Hhost Hid). cbv zeta. cbn [final].
  destruct (session_of_with_new_session o w state s Hne Hs) as (Hs1 & _).
  assert (Hd1 : distinct_keys (authSessions (with_new_session o w)) = true)
    by (apply distinct_set; exact Hd).
  assert (Hlen : (1 + List.length (authSessions (with_new_session o w))
                  <= S (S (List.length (authSessions w))))%nat).
  { cbn [with_new_session authSessions]. pose proof (length_set (authSessions w)
      (fresh_state o) (List.length (objects w))). lia. }
  destruct (Hloop (with_new_session o w) 1%nat Hd1 Hs1 Hlen) as (Hold & Hrecent).
  split; [exact Hold|exact Hrecent].
Qed.

Lemma sweep_drops_old_keeps_recent_witness :
  let after := final (run (sample_oracle slack_ok) (Deployed.initiate sample_deployment)
                        sample_world) in
  JsMap.get (authSessions after) "state-old" = None
  /\ option_map codeVerifier (session_of after "state-recent") = Some "verifier-recent".
Proof.
  cbv zeta. split.
  - destruct (sweep_drops_old_keeps_recent sample_deployment (sample_oracle slack_ok)
                sample_world "state-old"
                {| codeVerifier := "verifier-old"; timestamp := 1700000000000 - 660000;
                   authenticated := false; accessToken := None; refreshToken := None;
                   expiresAt := None |} eq_refl eq_refl) as (_ & _ & H).
    destruct (H eq_refl eq_refl) as (Hold & _).
    + intros Heq. vm_compute in Heq. discriminate Heq.
    + apply Hold. intros k Hk.
      change (1700000000000 + Z.of_nat k - (1700000000000 - 660000) > 10 * 60 * 1000). lia.
  - destruct (sweep_drops_old_keeps_recent sample_deployment (sample_oracle slack_ok)
                sample_world "state-recent"
                {| codeVerifier := "verifier-recent"; timestamp := 1700000000000 - 60000;
                   authenticated := false; accessToken := None; refreshToken := None;
                   expiresAt := None |} eq_refl eq_refl) as (_ & _ & H).
    destruct (H eq_refl eq_refl) as (_ & Hrecent).
    + intros Heq. vm_compute in Heq. discriminate Heq.
    + rewrite Hrecent; [reflexivity|]. intros k Hk.
      change (k <= 3)%nat in Hk.
      change (1700000000000 + Z.of_nat k - (1700000000000 - 60000) <= 10 * 60 * 1000). lia.
Defined.

(** ** The authorization-code flow *)


(** Without a code, without a state, or with a state the map does not
    hold, the callback replies 400 and does nothing else. *)
Lemma run_callback_refused (d : Deployment) (o : Oracle) (w : World)
    (code state : option string) :
  (forall s, DuoSse.present state = Some s -> JsMap.get (authSessions w) s = None) ->
  run o (Deployed.callback d code state) w =
  {| outcome := inr tt;
     final := w;
     trace := [Sent (Reply 400 (Text
                match DuoSse.present code, DuoSse.present state with
                | Some _, Some _ => "Invalid or expired session"
                | _, _ => "Missing code or state parameter"
                end))];
     position := start |}.
Proof.
  intros Habsent. unfold run, Deployed.callback, DuoSse.auth_callback.
  destruct (DuoSse.present code) as [c|]; [|reflexivity].
  destruct (DuoSse.present state) as [s|]; [|reflexivity].
  cbn. unfold session_ref. rewrite (Habsent s eq_refl). reflexivity.
Qed.

(** The session stored by an initiation survives the sweep of the same
    run when the clock does not advance by more than ten minutes within
    the run. *)
Lemma initiate_keeps_new_session (o : Oracle) (w : World) :
  distinct_keys (authSessions w) = true ->
  (forall k, (k <= S (List.length (authSessions w)))%nat ->
             clock o k - clock o 0 <= 10 * 60 * 1000) ->
  let w1 := with_new_session o w in
  session_of (with_sessions w1 (swept (clock o) 1 (objects w1) (authSessions w1)
                                  (authSessions w1)))
             (fresh_state o)
  = Some (DuoSse.new_session (fresh_verifier o) (clock o 0)).
Proof.
  intros Hd Hclock. cbv zeta. rewrite session_of_with_sessions.
  assert (Hget : JsMap.get (authSessions (with_new_session o w)) (fresh_state o)
                 = Some (List.length (objects w))) by apply get_set_same.
  assert (Hobj : nth_error (objects (with_new_session o w)) (List.length (objects w))
                 = Some (DuoSse.new_session (fresh_verifier o) (clock o 0))).
  { cbn [with_new_session objects]. rewrite nth_error_app2 by lia.
    now rewrite Nat.sub_diag. }
  rewrite (swept_keeps (clock o) (objects (with_new_session o w)) (fresh_state o)
             (List.length (objects w))
             (DuoSse.new_session (fresh_verifier o) (clock o 0))).
  - exact Hobj.
  - intros r Hin. apply in_get in Hin; [|now apply distinct_set].
    cbn [with_new_session authSessions] in Hin. rewrite get_set_same in Hin.
    injection Hin as <-. exact Hobj.
  - intros k Hk. cbn [DuoSse.new_session timestamp]. apply Hclock.
    cbn [with_new_session authSessions] in Hk.
    pose proof (length_set (authSessions w) (fresh_state o) (List.length (objects w))). lia.
  - exact Hget.
Qed.

(** C1 as stated fails on the callback: a state value no initiation
    produced is not always answered with the session-not-found error. With
    an empty state, or with no code, the guard in front of the lookup
    answers [Missing code or state parameter]. *)
Lemma callback_unknown_state_counterexample :
  let d := sample_deployment in
  let o := sample_oracle slack_ok in
  JsMap.get (authSessions sample_world) "" = None
  /\ JsMap.get (authSessions sample_world) "deadbeef" = None
  /\ outputs (trace (run o (Deployed.callback d (Some "abc") (Some "")) sample_world))
     = [Reply 400 (Text "Missing code or state parameter")]
  /\ outputs (trace (run o (Deployed.callback d None (Some "deadbeef")) sample_world))
     = [Reply 400 (Text "Missing code or state parameter")]
  /\ outputs (trace (run o (Deployed.callback d (Some "abc") (Some "")) sample_world))
     <> [Reply 400 (Text "Invalid or expired session")].
Proof. cbv zeta. repeat split; try reflexivity. discriminate. Qed.

(** C1, amended. A configured initiation replies with the authorization
    URL and the state key; the [code_challenge] of that URL is the unpadded
    base64url of the SHA-256 digest of the code verifier stored in the
    session under that key, and that session has [authenticated = false] and
    no tokens. An initiation that is not configured replies 500 and stores
    nothing. A callback whose state is not a key of the session map makes no
    network call, leaves the module state alone and replies 400: with
    [Invalid or expired session] when code and state are both present, with
    [Missing code or state parameter] otherwise. *)
Theorem pkce_challenge_and_unknown_state (d : Deployment) (o : Oracle) (w : World)
    (code state : option string) :
  distinct_keys (authSessions w) = true ->
  (forall k, (k <= S (List.length (authSessions w)))%nat ->
             clock o k - clock o 0 <= 10 * 60 * 1000) ->
  (forall s, state = Some s -> JsMap.get (authSessions w) s = None) ->
  let started := run o (Deployed.initiate d) w in
  let returned := run o (Deployed.callback d code state) w in
  (DuoSse.missing (DUO_API_HOSTNAME d) = false ->
   DuoSse.missing (DUO_CLIENT_ID d) = false ->
   exists session,
     session_of (final started) (fresh_state o) = Some session
     /\ authenticated session = false
     /\ accessToken session = None
     /\ codeVerifier session = fresh_verifier o
     /\ outputs (trace started)
        = [Reply 200 (Json (obj [
             ("authUrl", str (DuoSse.authUrl (DUO_API_HOSTNAME d) (DUO_CLIENT_ID d)
                                (DUO_REDIRECT_URI d) (fresh_state o)
                                (base64url (Sha256.digest
                                   (bytes_of_string (codeVerifier session))))));
             ("state", str (fresh_state o))]))])
  /\ (DuoSse.missing (DUO_API_HOSTNAME d) || DuoSse.missing (DUO_CLIENT_ID d) = true ->
      trace started
      = [Sent (Reply 500 (Json (obj [("error", str "Duo OAuth not configured")])))]
      /\ final started = w)
  /\ calls (trace returned) = []
  /\ final returned = w
  /\ outputs (trace returned)
     = [Reply 400 (Text match DuoSse.present code, DuoSse.present state with
                        | Some _, Some _ => "Invalid or expired session"
                        | _, _ => "Missing code or state parameter"
                        end)].
Proof.
  intros Hd Hclock Hstate. cbv zeta. split; [|split].
  - intros Hhost Hid. exists (DuoSse.new_session (fresh_verifier o) (clock o 0)).
    rewrite (run_initiate d o w Hhost Hid). cbv zeta. cbn [final trace outputs].
    split; [apply (initiate_keeps_new_session o w Hd Hclock)|]. repeat split.
  - intros Hmissing. unfold run, Deployed.initiate, DuoSse.auth_duo_initiate.
    rewrite Hmissing. split; reflexivity.
  - rewrite run_callback_refused.
    + repeat split.
    + intros s Hs. apply Hstate. unfold DuoSse.present in Hs.
      destruct state as [s'|]; [|discriminate].
      destruct (String.eqb s' ""); [discriminate|]. congruence.
Qed.

Lemma pkce_challenge_and_unknown_state_witness :
  let d := sample_deployment in
  let o := sample_oracle slack_ok in
  (exists session,
     session_of (final (run o (Deployed.initiate d) sample_world)) (fresh_state o)
     = Some session
     /\ authenticated session = false)
  /\ outputs (trace (run o (Deployed.callback d (Some "abc") (Some "deadbeef")) sample_world))
     = [Reply 400 (Text "Invalid or expired session")].
Proof.
  cbv zeta.
  destruct (pkce_challenge_and_unknown_state sample_deployment (sample_oracle slack_ok)
              sample_world (Some "abc") (Some "deadbeef") eq_refl)
    as (Hstart & _ & _ & _ & Hreply).
  - intros k Hk. change (1700000000000 + Z.of_nat k - (1700000000000 + 0) <= 10 * 60 * 1000).
    change (k <= 3)%nat in Hk. lia.
  - intros s [= <-]. reflexivity.
  - split; [|exact Hreply].
    destruct (Hstart eq_refl eq_refl) as (session & Hs & Ha & _). exists session. auto.
Defined.

(** The sample initiation: the state key, the challenge read back from the
    URL, and the verifier the session holds. *)
Example sample_initiation :
  let o := sample_oracle slack_ok in
  let r := run o (Deployed.initiate sample_deployment) sample_world in
  match outputs (trace r) with
  | [Reply 200 (Json reply)] =>
      prop_opt (Some reply) "state" = str (fresh_state o)
      /\ option_map (query_param "state") (option_map json_to_string (prop_opt (Some reply) "authUrl"))
         = Some (Some (fresh_state o))
      /\ option_map (query_param "code_challenge")
           (option_map json_to_string (prop_opt (Some reply) "authUrl"))
         = Some (option_map (fun s => base64url (Sha256.digest (bytes_of_string (codeVerifier s))))
                   (session_of (final r) (fresh_state o)))
      /\ option_map (query_param "code_challenge_method")
           (option_map json_to_string (prop_opt (Some reply) "authUrl"))
         = Some (Some "S256")
  | _ => False
  end.
Proof. vm_compute. repeat split. Qed.

Lemma nth_error_assign_same {A : Type} (l : list A) (i : nat) (f : A -> A) :
  nth_error (assign l i f) i = option_map f (nth_error l i).
Proof.
  revert i. induction l as [|x r IH]; intros [|i]; cbn; auto.
Qed.


(** The status route is a pure lookup. *)
Lemma run_status (o : Oracle) (w : World) (state : option string) :
  run o (DuoSse.auth_status state) w =
  {| outcome := inr tt;
     final := w;
     trace := [Sent match DuoSse.present state with
                    | None => Reply 400 (Json (obj [("error", str "Missing state parameter")]))
                    | Some key =>
                        match session_of w key with
                        | None =>
                            Reply 200 (Json (obj [("authenticated", bool_value false);
                                                  ("error", str "Session not found")]))
                        | Some session =>
                            Reply 200 (Json (obj [
                              ("authenticated", bool_value (authenticated session));
                              ("token", if authenticated session
                                        then accessToken session else None);
                              ("expiresAt", option_map number_json (expiresAt session))]))
                        end
                    end];
     position := start |}.
Proof.
  unfold run, DuoSse.auth_status. destruct (DuoSse.present state) as [key|]; [|reflexivity].
  cbn. destruct (session_of w key); reflexivity.
Qed.




(** A 2xx answer whose body is not JSON is a failed exchange: the callback
    replies with the failure page and the session is as it was. *)
Lemma callback_unparseable_body (d : Deployment) (o : Oracle) (w : World)
    (code state : string) (ref : nat) (s : Session) (resp : Response) (m : string) :
  code <> "" ->
  state <> "" ->
  JsMap.get (authSessions w) state = Some ref ->
  nth_error (objects w) ref = Some s ->
  network o 0 (Deployed.exchange d code (codeVerifier s)) = Resolved resp ->
  200 <= status resp <= 299 ->
  body_json resp = inl m ->
  let r := run o (Deployed.callback d (Some code) (Some state)) w in
  outputs (trace r) = [Reply 500 (Html (AuthenticationFailed m))]
  /\ final r = meanwhile o 0 w.
Proof.
  intros Hcode Hstate Hget Hobj Hnet Hstatus Hbody. cbv zeta.
  apply String.eqb_neq in Hcode. apply String.eqb_neq in Hstate.
  apply response_ok_range in Hstatus.
  unfold run, Deployed.callback, Deployed.exchange, DuoSse.auth_callback, DuoSse.present in *.
  rewrite Hcode, Hstate. cbn [bind load exec]. unfold session_ref. rewrite Hget, Hobj.
  cbn [fetch try_catch bind exec start awaits reads draws]. rewrite Hnet.
  cbn [try_catch bind exec]. rewrite Hstatus. cbn [negb]. unfold json. rewrite Hbody.
  cbn. auto.
Qed.

(** The whole flow on the samples: initiate, exchange the code for the
    state just issued, ask for the status. *)
Example flow_end_to_end :
  let o := sample_oracle slack_ok in
  let d := sample_deployment in
  let w1 := final (run o (Deployed.initiate d) sample_world) in
  let w2 := final (run o (Deployed.callback d (Some "code-1") (Some (fresh_state o))) w1) in
  calls (trace (run o (Deployed.callback d (Some "code-1") (Some (fresh_state o))) w1))
  = [Deployed.exchange d "code-1" (fresh_verifier o)]
  /\ outputs (trace (run o (DuoSse.auth_status (Some (fresh_state o))) w2))
     = [Reply 200 (Json (obj [("authenticated", bool_value true);
                              ("token", str "at-1");
                              ("expiresAt", num 1700003600000)]))]
  /\ outputs (trace (run o (DuoSse.auth_status (Some (fresh_state o))) w1))
     = [Reply 200 (Json (obj [("authenticated", bool_value false)]))].
Proof. vm_compute. repeat split. Qed.

(** Scenario 2 of the specification on the plain HTTP server. *)
Example slack_success_over_http :
  outputs (trace (run (sample_oracle slack_ok)
                    (receive sample_deployment PlainHttp None
                       (call_text "slack_post_message" "channel_id"))
                    sample_world))
  = [Reply 200 (Json (rpc_result (num 7)
       (object [("content", array [text_content ("Sent: " ++ dquote ++ "hi" ++ dquote)])])))].
Proof. vm_compute. reflexivity. Qed.

(** ** The module state stays well formed *)

Lemma keeps_bind {A B : Type} (Inv : World -> Prop) (p : Prog A) (f : A -> Prog B) :
  keeps Inv p -> (forall a, keeps Inv (f a)) -> keeps Inv (bind p f).
Proof.
  intros Hp Hf. induction p as [a|e|k IH|n k IH|rq k IH|k IH|w' k IH|out k IH]; cbn in *;
    auto.
  destruct Hp. auto.
Qed.

Lemma keeps_try_catch {A : Type} (Inv : World -> Prop) (p : Prog A) (h : Exn -> Prog A) :
  keeps Inv p -> (forall e, keeps Inv (h e)) -> keeps Inv (try_catch p h).
Proof.
  intros Hp Hh. induction p as [a|e|k IH|n k IH|rq k IH|k IH|w' k IH|out k IH]; cbn in *;
    auto.
  destruct Hp. auto.
Qed.

Lemma keeps_lift {A : Type} (Inv : World -> Prop) (r : Exn + A) : keeps Inv (lift r).
Proof. destruct r; exact I. Qed.

(** A program that keeps [Inv], started in a state with [Inv] on an event
    loop whose other handlers keep [Inv], ends in a state with [Inv]. *)
Lemma keeps_exec {A : Type} (Inv : World -> Prop) (p : Prog A) o c w :
  keeps Inv p -> (forall k w', Inv w' -> Inv (meanwhile o k w')) -> Inv w ->
  Inv (final (exec o c p w)).
Proof.
  intros Hp Hloop. revert c w Hp.
  induction p as [a|e|k IH|n k IH|rq k IH|k IH|w' k IH|out k IH];
    intros c w Hp Hw; cbn in *; auto.
  destruct Hp. auto.
Qed.

Lemma keeps_verifyDuoToken (Inv : World -> Prop) endpoint id secret token :
  keeps Inv (verifyDuoToken endpoint id secret token).
Proof.
  unfold verifyDuoToken, fetch. cbn. intros [m|resp]; cbn; [exact I|].
  destruct (response_ok resp); cbn; [|exact I].
  unfold json. destruct (body_json resp) as [m|data]; cbn; [exact I|].
  destruct data as [| b | n | s | items | ms]; cbn; try exact I.
  destruct (truthy (assoc "active" ms)); exact I.
Qed.

Lemma in_set {K V : Type} {E : KeyEq K} (m : list (K * V)) k v k' v' :
  In (k', v') (JsMap.set m k v) -> (k', v') = (k, v) \/ In (k', v') m.
Proof.
  induction m as [|[k0 v0] r IH]; cbn.
  - intros [H|[]]. now left.
  - destruct (keq k0 k); cbn; intros [H|H]; auto. destruct (IH H); auto.
Qed.

Lemma in_delete {K V : Type} {E : KeyEq K} (m : list (K * V)) k k' v' :
  In (k', v') (JsMap.delete m k) -> In (k', v') m.
Proof.
  induction m as [|[k0 v0] r IH]; cbn; [auto|].
  destruct (keq k0 k); cbn; intros H; auto. destruct H; auto.
Qed.

Lemma length_assign {A : Type} (l : list A) (i : nat) (f : A -> A) :
  List.length (assign l i f) = List.length l.
Proof.
  revert i. induction l as [|x r IH]; intros [|i]; cbn; auto.
Qed.

Lemma well_formed_set_session (w : World) (state : string) (s : Session) :
  well_formed w ->
  well_formed {| objects := (objects w ++ [s])%list;
                 authSessions := JsMap.set (authSessions w) state (List.length (objects w));
                 sseConnections := sseConnections w;
                 connectionIdCounter := connectionIdCounter w |}.
Proof.
  intros (Hs & Hc & Hr). repeat split; cbn.
  - now apply distinct_set.
  - exact Hc.
  - intros k r Hin. rewrite length_app. cbn.
    apply in_set in Hin as [[= _ ->]|Hin]; [lia|]. specialize (Hr k r Hin). lia.
Qed.

Lemma well_formed_delete_session (w : World) (key : string) :
  well_formed w ->
  well_formed {| objects := objects w;
                 authSessions := JsMap.delete (authSessions w) key;
                 sseConnections := sseConnections w;
                 connectionIdCounter := connectionIdCounter w |}.
Proof.
  intros (Hs & Hc & Hr). repeat split; cbn.
  - now apply distinct_delete.
  - exact Hc.
  - intros k r Hin. apply (Hr k r). now apply in_delete in Hin.
Qed.

Lemma well_formed_assign (w : World) (ref : nat) (f : Session -> Session) :
  well_formed w ->
  well_formed {| objects := assign (objects w) ref f;
                 authSessions := authSessions w;
                 sseConnections := sseConnections w;
                 connectionIdCounter := connectionIdCounter w |}.
Proof.
  intros (Hs & Hc & Hr). repeat split; cbn; auto.
  intros k r Hin. rewrite length_assign. now apply (Hr k r).
Qed.

Lemma well_formed_connections (w : World) (conns : list (Z * Connection)) (counter : Z) :
  well_formed w -> distinct_keys conns = true ->
  well_formed {| objects := objects w;
                 authSessions := authSessions w;
                 sseConnections := conns;
                 connectionIdCounter := counter |}.
Proof. intros (Hs & Hc & Hr) Hd. repeat split; cbn; auto. Qed.

Lemma keeps_assign_session (ref : nat) (f : Session -> Session) :
  keeps well_formed (DuoSse.assign_session ref f).
Proof. cbn. intros w Hw. split; [now apply well_formed_assign|exact I]. Qed.

Lemma keeps_delete_session (key : string) : keeps well_formed (DuoSse.delete_session key).
Proof. cbn. intros w Hw. split; [now apply well_formed_delete_session|exact I]. Qed.

Lemma keeps_delete_connection (id : Z) : keeps well_formed (DuoSse.delete_connection id).
Proof.
  cbn. intros w Hw. split; [|exact I]. apply well_formed_connections; [exact Hw|].
  apply distinct_delete, Hw.
Qed.

Lemma keeps_sweep_entries (entries : list (string * nat)) :
  keeps well_formed (DuoSse.sweep_entries entries).
Proof.
  induction entries as [|[key ref] rest IH]; [exact I|].
  cbn [DuoSse.sweep_entries now load bind keeps]. intros t w Hw.
  apply keeps_bind; [|intros _; exact IH].
  destruct (nth_error (objects w) ref) as [value|]; [|exact I].
  destruct (t - timestamp value >? _); [apply keeps_delete_session|exact I].
Qed.

Lemma keeps_cleanup_entries (t : Z) (entries : list (Z * Connection)) :
  keeps well_formed (DuoSse.cleanup_entries t entries).
Proof.
  induction entries as [|[id conn] rest IH]; [exact I|].
  cbn [DuoSse.cleanup_entries]. apply keeps_bind; [|intros _; exact IH].
  destruct (t - connectedAt conn >? _); [apply keeps_delete_connection|exact I].
Qed.

(** Walks a handler of the Duo SSE server down to its stores. *)
Ltac stores :=
  repeat first
    [ progress intros
    | match goal with
      | |- True => exact I
      | |- keeps _ (Ret _) => exact I
      | |- keeps _ (Throw _) => exact I
      | |- keeps _ (lift _) => apply keeps_lift
      | |- keeps _ (verifyDuoToken _ _ _ _) => apply keeps_verifyDuoToken
      | |- keeps _ (DuoSse.assign_session _ _) => apply keeps_assign_session
      | |- keeps _ (DuoSse.delete_connection _) => apply keeps_delete_connection
      | |- keeps _ (DuoSse.on_close _) => apply keeps_delete_connection
      | |- keeps _ (DuoSse.sweep_entries _) => apply keeps_sweep_entries
      | |- keeps _ (DuoSse.cleanup_entries _ _) => apply keeps_cleanup_entries
      | |- keeps _ (bind _ _) => apply keeps_bind
      | |- keeps _ (try_catch _ _) => apply keeps_try_catch
      | |- keeps _ (json _) => unfold json
      | |- keeps _ (if ?b then _ else _) => destruct b
      | |- keeps _ (match ?x with _ => _ end) => destruct x
      | |- _ /\ _ => split
      | H : well_formed ?w |- well_formed _ =>
          first [ exact H
                | apply well_formed_set_session; exact H
                | apply well_formed_connections;
                  [exact H | first [apply distinct_set | exact (proj1 (proj2 H))]; apply H] ]
      end
    | progress cbn [keeps emit store load now randomBytes fetch bind
                    DuoSse.sendSSE DuoSse.sendJSONRPCResponse DuoSse.sendJSONRPCError
                    DuoSse.ok_reply DuoSse.set_session DuoSse.set_connection
                    DuoSse.next_connection_id DuoSse.sweep DuoSse.cleanup
                    DuoSse.on_close] ].

(** The empty maps are well formed, and every route and timer of the Duo
    SSE server leaves the module state well formed. *)
Theorem duo_sse_keeps_well_formed (d : Deployment) :
  well_formed empty_world
  /\ keeps well_formed (Deployed.initiate d)
  /\ (forall code state, keeps well_formed (Deployed.callback d code state))
  /\ (forall state, keeps well_formed (DuoSse.auth_status state))
  /\ (forall authorization, keeps well_formed (Deployed.open_stream d authorization))
  /\ (forall authorization message,
        keeps well_formed (Deployed.post_sse d authorization message))
  /\ (forall id, keeps well_formed (DuoSse.on_close id))
  /\ keeps well_formed DuoSse.cleanup.
Proof.
  split; [repeat split; intros ? ? []|].
  unfold Deployed.initiate, Deployed.callback, Deployed.open_stream, Deployed.post_sse,
    DuoSse.auth_duo_initiate, DuoSse.auth_callback, DuoSse.auth_status, DuoSse.get_mcp,
    DuoSse.post_mcp, DuoSse.verify, DuoSse.dispatch, DuoSse.postToSlack.
  repeat match goal with |- _ /\ _ => split end; stores.
Qed.

(** So a run of any of them from a well-formed state ends in one. *)
Corollary initiate_keeps_well_formed (d : Deployment) (o : Oracle) (w : World) :
  (forall k w', well_formed w' -> well_formed (meanwhile o k w')) ->
  well_formed w ->
  well_formed (final (run o (Deployed.initiate d) w)).
Proof.
  intros Hloop Hw. unfold run. apply (keeps_exec well_formed); auto.
  apply (duo_sse_keeps_well_formed d).
Qed.

(** * Further properties of the handlers *)

(** ** Every path of a handler *)

Lemma paths_exec {A : Type} (p : Prog A) (Q : A -> list Event -> Prop)
    (E : Exn -> list Event -> Prop) (o : Oracle) :
  forall tr c w,
    paths p tr Q E ->
    match outcome (exec o c p w) with
    | inr a => Q a (tr ++ trace (exec o c p w))%list
    | inl e => E e (tr ++ trace (exec o c p w))%list
    end.
Proof.
  induction p as [a|e|k IH|n k IH|rq k IH|k IH|w' k IH|out k IH]; intros tr c w Hp; cbn in *.
  - now rewrite app_nil_r.
  - now rewrite app_nil_r.
  - apply IH, Hp.
  - apply IH, Hp.
  - specialize (IH _ _ {| reads := reads c; draws := draws c; awaits := S (awaits c) |}
                  (meanwhile o (awaits c) w) (Hp (network o (awaits c) rq))).
    now rewrite <- app_assoc in IH.
  - apply IH, Hp.
  - apply IH, Hp.
  - specialize (IH (tr ++ [Sent out])%list c w Hp). now rewrite <- app_assoc in IH.
Qed.

(** A handler none of whose paths throws returns, with what its paths
    promise. *)
Lemma paths_run {A : Type} (p : Prog A) (Q : A -> list Event -> Prop) (o : Oracle) (w : World) :
  paths p [] Q (fun _ _ => False) ->
  exists a, outcome (run o p w) = inr a /\ Q a (trace (run o p w)).
Proof.
  intros Hp. pose proof (paths_exec p Q _ o [] start w Hp) as H. unfold run.
  destruct (outcome (exec o start p w)) as [e|a]; [contradiction|]. exists a. auto.
Qed.

Lemma paths_bind {A B : Type} (p : Prog A) (f : A -> Prog B) tr Q E :
  paths p tr (fun a tr' => paths (f a) tr' Q E) E -> paths (bind p f) tr Q E.
Proof.
  revert tr. induction p as [a|e|k IH|n k IH|rq k IH|k IH|w' k IH|out k IH];
    intros tr Hp; cbn in *; auto.
Qed.

Lemma paths_weaken {A : Type} (p : Prog A) tr (Q Q' : A -> list Event -> Prop)
    (E E' : Exn -> list Event -> Prop) :
  (forall a t, Q a t -> Q' a t) -> (forall e t, E e t -> E' e t) ->
  paths p tr Q E -> paths p tr Q' E'.
Proof.
  intros HQ HE. revert tr.
  induction p as [a|e|k IH|n k IH|rq k IH|k IH|w' k IH|out k IH]; intros tr Hp; cbn in *; auto.
Qed.

(** The sweep and the cleanup loops send nothing, ask nothing and do not
    throw. *)
Lemma paths_sweep_entries (entries : list (string * nat)) tr
    (Q : unit -> list Event -> Prop) E :
  Q tt tr -> paths (DuoSse.sweep_entries entries) tr Q E.
Proof.
  intros HQ. induction entries as [|[key ref] rest IH]; [exact HQ|].
  cbn [DuoSse.sweep_entries now load bind paths]. intros t w.
  destruct (nth_error (objects w) ref) as [value|]; [|exact IH].
  destruct (t - timestamp value >? _); [|exact IH].
  cbn. intros _. exact IH.
Qed.

Lemma paths_cleanup_entries (t : Z) (entries : list (Z * Connection)) tr
    (Q : unit -> list Event -> Prop) E :
  Q tt tr -> paths (DuoSse.cleanup_entries t entries) tr Q E.
Proof.
  intros HQ. induction entries as [|[id conn] rest IH]; [exact HQ|].
  cbn [DuoSse.cleanup_entries]. destruct (t - connectedAt conn >? _); [|exact IH].
  cbn. intros _. exact IH.
Qed.

(** [verifyDuoToken] is one call on every path and does not throw. *)
Lemma paths_verifyDuoToken {B : Type} endpoint id secret token (f : Verification.t -> Prog B)
    tr Q E :
  (forall v, paths (f v) (tr ++ [Called (introspection_request endpoint id secret token)])%list
               Q E) ->
  paths (bind (verifyDuoToken endpoint id secret token) f) tr Q E.
Proof.
  intros Hf. unfold verifyDuoToken, fetch. cbn. intros [m|resp]; cbn; [apply Hf|].
  destruct (response_ok resp); cbn; [|apply Hf].
  unfold json. destruct (body_json resp) as [m|data]; cbn; [apply Hf|].
  destruct data as [| b | n | s | items | ms]; cbn; try apply Hf.
  destruct (truthy (assoc "active" ms)); cbn; apply Hf.
Qed.

(** The term a program waits on: the scrutinee under its binds and catches. *)
Ltac scrutinee t :=
  lazymatch t with
  | (if ?b then _ else _) => scrutinee b
  | (match ?x with _ => _ end) => scrutinee x
  | negb ?b => scrutinee b
  | orb ?b _ => scrutinee b
  | andb ?b _ => scrutinee b
  | _ => t
  end.

Ltac head_stuck p :=
  lazymatch p with
  | bind ?q _ => head_stuck q
  | try_catch ?q _ => head_stuck q
  | lift ?r => scrutinee r
  | _ => scrutinee p
  end.

(** Follows every path of a handler down to its leaves. *)
Ltac explore :=
  unfold json, fetch, emit, store, load, now, randomBytes;
  repeat first
    [ progress cbn [paths bind try_catch lift prop destructure prop_opt app negb orb andb]
    | progress intros
    | match goal with
      | |- paths (bind (verifyDuoToken _ _ _ _) _) _ _ _ => apply paths_verifyDuoToken
      | |- paths ?p _ _ _ =>
          let s := head_stuck p in
          let T := type of s in
          lazymatch T with
          | Prog _ => fail
          | _ => destruct s eqn:?
          end
      end ].

Ltac unfold_servers :=
  unfold receive, Deployed.initiate, Deployed.callback, Deployed.open_stream,
    Deployed.post_sse, Deployed.post_duo,
    Http.serve, HttpDuo.serve, DuoSse.serve, express_json,
    Ws.on_message, Ws.slack_post_message, Ws.finish,
    Http.post_mcp, Http.slack_post_message, Http.finish,
    HttpDuo.post_mcp, HttpDuo.authenticateRequest, HttpDuo.dispatch,
    HttpDuo.slack_post_message, HttpDuo.finish,
    DuoSse.post_mcp, DuoSse.get_mcp, DuoSse.verify, DuoSse.dispatch, DuoSse.postToSlack,
    DuoSse.auth_status, DuoSse.auth_callback,
    DuoSse.sendJSONRPCResponse, DuoSse.sendJSONRPCError, DuoSse.sendSSE, DuoSse.ok_reply,
    DuoSse.assign_session, DuoSse.set_connection, DuoSse.next_connection_id.

(** ** What every request gets *)

(** X1. The WebSocket message handler lets no exception escape, whatever
    the frame holds and however the Slack call settles: it returns after
    sending at most one frame (and nothing else: no HTTP reply, no stream
    event), and a message for which it called the network is always
    answered by exactly one frame. *)
Theorem ws_message_is_handled (token : string) (parse : string -> option JSON)
    (data : string) (o : Oracle) (w : World) :
  let r := run o (Ws.on_message token parse data) w in
  outcome r = inr tt
  /\ (List.length (outputs (trace r)) <= 1)%nat
  /\ replies (trace r) = []
  /\ stream_writes (trace r) = []
  /\ (calls (trace r) <> [] -> List.length (frames (trace r)) = 1%nat).
Proof.
  cbv zeta.
  destruct (paths_run (Ws.on_message token parse data)
              (fun _ tr => (List.length (outputs tr) <= 1)%nat
                           /\ replies tr = [] /\ stream_writes tr = []
                           /\ (calls tr <> [] -> List.length (frames tr) = 1%nat)) o w)
    as ([] & Ho & HQ); [|split; assumption].
  unfold_servers. explore; cbn; repeat split; try lia; try congruence.
Qed.


(** X3. Every JSON-RPC message a server sends in answer to a request
    carries the [id] of that request (no [id] when the request has none or
    is not an object), with two exceptions that are built without reading
    the request and carry [id: null]: the parse error -32700 and the -32600
    error of the Duo HTTP middleware. *)
Theorem replies_carry_request_id (d : Deployment) (v : Variant)
    (authorization : option string) (raw : string) (o : Oracle) (w : World) :
  Forall (echoes (JSON_parse d raw))
         (rpc_replies v (outputs (trace (run o (receive d v authorization raw) w)))).
Proof.
  assert (H : forall p : Prog unit,
    paths p [] (fun _ tr => Forall (echoes (JSON_parse d raw)) (rpc_replies v (outputs tr)))
      (fun _ tr => Forall (echoes (JSON_parse d raw)) (rpc_replies v (outputs tr))) ->
    Forall (echoes (JSON_parse d raw)) (rpc_replies v (outputs (trace (run o p w))))).
  { intros p Hp. pose proof (paths_exec p _ _ o [] start w Hp) as Hr. unfold run.
    destruct (outcome (exec o start p w)); exact Hr. }
  apply H. destruct v; unfold_servers; explore;
    cbn -[rpc_result rpc_error parse_error];
    repeat match goal with |- Forall _ _ => constructor end;
    first [ left; first [apply rpc_result_id | apply rpc_error_id]
          | right; split; [reflexivity | first [left; reflexivity | right; reflexivity]] ].
Qed.

(** X4. The servers call out to Slack and to Duo only, and at most once
    each for one request. A message to a server whose dispatcher is not
    behind the Duo gate makes no call or one Slack call with the bot token;
    behind the gate a request makes no call, or the introspection of the
    token its header carries, or that introspection followed by one Slack
    call. Opening a stream makes at most that introspection call, the OAuth
    callback at most one token exchange with the code it was given, and
    [/auth/duo-initiate], [/auth/status] and the cleanup timer make no
    call. *)
Theorem servers_ask_only_slack_and_duo (d : Deployment) (v : Variant)
    (authorization : option string) (raw : string) (o : Oracle) (w : World) :
  asked d authorization (gated d v)
    (calls (trace (run o (receive d v authorization raw) w)))
  /\ (let opened := calls (trace (run o (Deployed.open_stream d authorization) w)) in
      opened = []
      \/ exists token, extractToken authorization = Some token /\ token <> ""
                       /\ opened = [Deployed.introspect d token])
  /\ (forall code state,
        let returned := calls (trace (run o (Deployed.callback d code state) w)) in
        returned = []
        \/ exists c verifier, code = Some c /\ returned = [Deployed.exchange d c verifier])
  /\ calls (trace (run o (Deployed.initiate d) w)) = []
  /\ (forall state, calls (trace (run o (DuoSse.auth_status state) w)) = [])
  /\ calls (trace (run o DuoSse.cleanup w)) = [].
Proof.
  assert (H : forall (p : Prog unit) (P : list Request -> Prop),
    paths p [] (fun _ tr => P (calls tr)) (fun _ tr => P (calls tr)) ->
    P (calls (trace (run o p w)))).
  { intros p P Hp. pose proof (paths_exec p _ _ o [] start w Hp) as Hr. unfold run.
    destruct (outcome (exec o start p w)); exact Hr. }
  split; [|split; [|split; [|split; [|split]]]]; cbv zeta; intros.
  - apply (H _ (asked d authorization (gated d v))).
    destruct v; unfold_servers; unfold Deployed.introspect; cbn [gated];
      destruct (extractToken authorization) as [token|] eqn:Hext;
      explore; cbn [calls app no_token] in *;
      repeat match goal with
             | Hne : String.eqb _ "" = false |- _ => apply String.eqb_neq in Hne
             end;
      first [ apply asked_nothing
            | apply asked_slack; congruence
            | apply asked_duo; congruence
            | apply asked_duo_slack; congruence ].
  - apply (H _ (fun rqs => rqs = [] \/ exists token, extractToken authorization = Some token
                             /\ token <> "" /\ rqs = [Deployed.introspect d token])).
    unfold_servers; unfold Deployed.introspect.
    destruct (extractToken authorization) as [token|] eqn:Hext;
      explore; cbn [calls app]; auto;
      right; exists token;
      match goal with
      | Hne : String.eqb token "" = false |- _ => apply String.eqb_neq in Hne
      end; auto.
  - apply (H _ (fun rqs => rqs = [] \/ exists c verifier,
                             code = Some c /\ rqs = [Deployed.exchange d c verifier])).
    unfold_servers; unfold Deployed.exchange, session_ref, DuoSse.present.
    explore; cbn [calls app]; auto; right; eauto.
  - apply (H _ (fun rqs => rqs = [])).
    unfold Deployed.initiate, DuoSse.auth_duo_initiate, DuoSse.set_session, DuoSse.sweep.
    explore; try apply paths_bind, paths_sweep_entries; cbn; auto.
  - apply (H _ (fun rqs => rqs = [])). unfold_servers. explore; reflexivity.
  - apply (H _ (fun rqs => rqs = [])). unfold DuoSse.cleanup. explore.
    apply paths_cleanup_entries. reflexivity.
Qed.

(** ** Behind the gate *)

(** X5. When the header carries a bearer token that introspection does
    not find valid, the Duo HTTP server (Duo enabled) and both [/mcp]
    routes of the Duo SSE server make that one introspection call, answer
    401 and stop: no dispatch, no Slack call, nothing written to the module
    state. The Duo HTTP middleware answers with the JSON-RPC error -32600
    and [id: null], the Duo SSE routes with
    [{ error: 'Invalid or expired token' }]. *)
Theorem invalid_token_is_refused (d : Deployment) (authorization : option string)
    (token : string) (message : Value) (o : Oracle) (w : World) :
  extractToken authorization = Some token ->
  token <> "" ->
  Verification.valid (verdict (network o 0 (Deployed.introspect d token))) = false ->
  DUO_ENABLED d = true ->
  decoded message ->
  let refused (p : Prog unit) (body : JSON) :=
    trace (run o p w) = [Called (Deployed.introspect d token); Sent (Reply 401 (Json body))]
    /\ outcome (run o p w) = inr tt
    /\ final (run o p w) = meanwhile o 0 w in
  refused (Deployed.post_duo d authorization message)
          (rpc_error (Some JNull) (-32600) "Invalid or expired token")
  /\ refused (Deployed.open_stream d authorization)
             (obj [("error", str "Invalid or expired token")])
  /\ refused (Deployed.post_sse d authorization message)
             (obj [("error", str "Invalid or expired token")]).
Proof.
  intros Hext Hne Hvalid Hon Hmsg. cbv zeta. apply String.eqb_neq in Hne.
  unfold Deployed.introspect in *. split; [|split].
  - unfold Deployed.post_duo, HttpDuo.post_mcp, HttpDuo.authenticateRequest, run.
    rewrite Hon, Hext. cbn [negb no_token]. rewrite Hne, exec_verifyDuoToken.
    cbn [start awaits reads draws]. rewrite Hvalid. cbn. auto.
  - unfold Deployed.open_stream, DuoSse.get_mcp, DuoSse.verify, run.
    rewrite Hext, Hne, exec_verifyDuoToken.
    cbn [start awaits reads draws]. rewrite Hvalid. cbn. auto.
  - unfold Deployed.post_sse, DuoSse.post_mcp, DuoSse.verify, run.
    destruct message as [[| b | n | s | items | ms]|]; cbn in Hmsg; try contradiction;
      cbn [lift prop bind]; rewrite Hext, Hne, exec_verifyDuoToken;
      cbn [start awaits reads draws]; rewrite Hvalid; cbn; auto.
Qed.

Lemma invalid_token_is_refused_witness :
  outputs (trace (run (oracle_answering inactive)
                    (Deployed.post_duo sample_deployment (Some "Bearer stale")
                       (JsonText.parse (call_text "slack_post_message" "channel_id")))
                    sample_world))
  = [Reply 401 (Json (rpc_error (Some JNull) (-32600) "Invalid or expired token"))]
  /\ calls (trace (run (oracle_answering inactive)
                     (Deployed.post_sse sample_deployment (Some "Bearer stale")
                        (JsonText.parse (call_text "postMessage" "channel")))
                     sample_world))
     = [Deployed.introspect sample_deployment "stale"].
Proof.
  destruct (invalid_token_is_refused sample_deployment (Some "Bearer stale") "stale"
              (JsonText.parse (call_text "slack_post_message" "channel_id"))
              (oracle_answering inactive) sample_world)
    as ((H1 & _) & _ & _).
  - reflexivity.
  - discriminate.
  - reflexivity.
  - reflexivity.
  - vm_compute. exact I.
  - destruct (invalid_token_is_refused sample_deployment (Some "Bearer stale") "stale"
                (JsonText.parse (call_text "postMessage" "channel"))
                (oracle_answering inactive) sample_world)
      as (_ & _ & (H3 & _)).
    + reflexivity.
    + discriminate.
    + reflexivity.
    + reflexivity.
    + vm_compute. exact I.
    + rewrite H1, H3. split; reflexivity.
Defined.

(** ** The Slack tool *)

(** Runs a handler on what the hypotheses say of the request and of the
    network. *)
Ltac drive :=
  repeat (cbn; unfold json; repeat match goal with
                      | H : ?l = _ |- context [?l] => rewrite H
                      end).







(** X9. On the WebSocket server, the plain HTTP server and the Duo HTTP
    server with Duo disabled, a call of [slack_post_message] that fails
    before Slack's answer is read is reported as a JSON-RPC error with code
    -32000, the request's [id] and the exception's message: without
    [arguments] the first property read of them throws and Slack is not
    called (the plain servers read [channel_id] first, the Duo HTTP server
    [text]); a rejected [fetch] and an answer of Slack that is not JSON give
    the error after the one call. *)
Theorem failed_post_is_error_32000 (d : Deployment) (v : Variant)
    (authorization : option string) (raw : string) (ms ps : list (string * JSON))
    (o : Oracle) (w : World) :
  v = WebSocket \/ v = PlainHttp \/ (v = DuoHttp /\ DUO_ENABLED d = false) ->
  JSON_parse d raw = Some (JObj ms) ->
  assoc "method" ms = Some (JStr "tools/call") ->
  assoc "params" ms = Some (JObj ps) ->
  assoc "name" ps = Some (JStr "slack_post_message") ->
  let r := run o (receive d v authorization raw) w in
  let failed (m : string) := answer v 200 (rpc_error (assoc "id" ms) (-32000) m) in
  (assoc "arguments" ps = None ->
   trace r = [Sent (failed ("Cannot read properties of undefined (reading '"
                              ++ first_argument v ++ "')"))])
  /\ (forall args post,
        assoc "arguments" ps = Some (JObj args) ->
        post = slack_request (env_string (SLACK_BOT_TOKEN d))
                 (assoc "channel_id" args) (assoc "text" args) ->
        (forall m, network o 0 post = Rejected m ->
                   trace r = [Called post; Sent (failed m)])
        /\ (forall resp m, network o 0 post = Resolved resp -> body_json resp = inl m ->
                           trace r = [Called post; Sent (failed m)])).
Proof.
  intros Hv Hp Hm Hps Hn. cbv zeta.
  rewrite (receive_object d v authorization raw ms Hp).
  destruct Hv as [->|[->|[-> Hoff]]]; cbn [answer first_argument].
  - unfold run, Ws.on_message. split.
    + intros Ha. drive. reflexivity.
    + intros args post Ha ->. split.
      * intros m Hnet. drive. reflexivity.
      * intros resp m Hnet Hb. drive. reflexivity.
  - unfold run, Http.post_mcp. split.
    + intros Ha. drive. reflexivity.
    + intros args post Ha ->. split.
      * intros m Hnet. drive. reflexivity.
      * intros resp m Hnet Hb. drive. reflexivity.
  - rewrite (post_duo_open d authorization _ o w Hoff). unfold HttpDuo.dispatch. split.
    + intros Ha. drive. reflexivity.
    + intros args post Ha ->. split.
      * intros m Hnet. drive. reflexivity.
      * intros resp m Hnet Hb. drive. reflexivity.
Qed.

Lemma failed_post_is_error_32000_witness :
  outputs (trace (run (oracle_answering slack_unreachable)
                    (receive sample_deployment PlainHttp None
                       (call_text "slack_post_message" "channel_id"))
                    sample_world))
  = [Reply 200 (Json (rpc_error (num 7) (-32000) "fetch failed"))]
  /\ outputs (trace (run (sample_oracle slack_ok)
                       (receive sample_deployment WebSocket None
                          (request_text 8 "tools/call"
                             (object [("name", str "slack_post_message")])))
                       sample_world))
     = [WsSend (rpc_error (num 8) (-32000)
                  "Cannot read properties of undefined (reading 'channel_id')")].
Proof.
  split.
  - destruct (failed_post_is_error_32000 sample_deployment PlainHttp None
                (call_text "slack_post_message" "channel_id")
                [("jsonrpc", JStr "2.0"); ("id", JNum 7); ("method", JStr "tools/call");
                 ("params", JObj [("name", JStr "slack_post_message");
                                  ("arguments", JObj [("channel_id", JStr "C123");
                                                      ("text", JStr "hi")])])]
                [("name", JStr "slack_post_message");
                 ("arguments", JObj [("channel_id", JStr "C123"); ("text", JStr "hi")])]
                (oracle_answering slack_unreachable) sample_world) as (_ & H).
    + right. now left.
    + vm_compute. reflexivity.
    + reflexivity.
    + reflexivity.
    + reflexivity.
    + destruct (H _ _ eq_refl eq_refl) as (Hrej & _).
      rewrite (Hrej "fetch failed" eq_refl). reflexivity.
  - destruct (failed_post_is_error_32000 sample_deployment WebSocket None
                (request_text 8 "tools/call" (object [("name", str "slack_post_message")]))
                [("jsonrpc", JStr "2.0"); ("id", JNum 8); ("method", JStr "tools/call");
                 ("params", JObj [("name", JStr "slack_post_message")])]
                [("name", JStr "slack_post_message")]
                (sample_oracle slack_ok) sample_world) as (H & _).
    + now left.
    + vm_compute. reflexivity.
    + reflexivity.
    + reflexivity.
    + reflexivity.
    + rewrite (H eq_refl). reflexivity.
Defined.

(** ** What the dispatchers make of other requests *)
















(** ** What an initiation issues *)

Lemma list_ascii_app (a b : string) :
  list_ascii_of_string (a ++ b) = (list_ascii_of_string a ++ list_ascii_of_string b)%list.
Proof. induction a as [|c a IH]; cbn; [reflexivity|now rewrite IH]. Qed.

Lemma length_app_string (a b : string) :
  String.length (a ++ b) = (String.length a + String.length b)%nat.
Proof. induction a as [|c a IH]; cbn; [reflexivity|now rewrite IH]. Qed.

Lemma within_app (alphabet a b : string) :
  within alphabet (a ++ b) = within alphabet a && within alphabet b.
Proof. unfold within. now rewrite list_ascii_app, forallb_app. Qed.

Lemma get_within (alphabet : string) (k : nat) :
  (k < String.length alphabet)%nat ->
  exists c, String.get k alphabet = Some c
            /\ existsb (Ascii.eqb c) (list_ascii_of_string alphabet) = true.
Proof.
  revert k. induction alphabet as [|a r IH]; intros k Hk; cbn in Hk; [lia|].
  destruct k as [|k]; cbn.
  - exists a. now rewrite Ascii.eqb_refl.
  - destruct (IH k ltac:(lia)) as (c & Hc & Hin). exists c. rewrite Hc, Hin.
    now rewrite orb_true_r.
Qed.

(** A digit drawn from an alphabet is one character of it. *)
Lemma digit_of_within (alphabet : string) (n : Z) :
  0 <= n < Z.of_nat (String.length alphabet) ->
  String.length (digit_of alphabet n) = 1%nat /\ within alphabet (digit_of alphabet n) = true.
Proof.
  intros Hn. unfold digit_of.
  destruct (get_within alphabet (Z.to_nat n) ltac:(lia)) as (c & -> & Hin).
  split; [reflexivity|]. unfold within. cbn. now rewrite Hin.
Qed.

(** [toString('hex')] gives two hexadecimal digits a byte. *)
Lemma hex_format (bs : list Z) :
  Forall byte bs ->
  String.length (hex bs) = (2 * List.length bs)%nat
  /\ within "0123456789abcdef" (hex bs) = true.
Proof.
  induction 1 as [|b r Hb Hr [IHl IHw]]; [split; reflexivity|].
  unfold byte in Hb. cbn [hex].
  destruct (digit_of_within "0123456789abcdef" (b / 16)) as [H1 H2];
    [cbn; Z.to_euclidean_division_equations; lia|].
  destruct (digit_of_within "0123456789abcdef" (b mod 16)) as [H3 H4];
    [cbn; Z.to_euclidean_division_equations; lia|].
  rewrite !length_app_string, !within_app, H1, H2, H3, H4, IHl, IHw.
  split; [cbn [List.length]; lia|reflexivity].
Qed.

Lemma list_by_three {A : Type} (P : list A -> Prop) :
  P [] -> (forall a, P [a]) -> (forall a b, P [a; b]) ->
  (forall a b c r, P r -> P (a :: b :: c :: r)) ->
  forall l, P l.
Proof.
  intros H0 H1 H2 H3 l.
  assert (H : P l /\ (forall a, P (a :: l)) /\ (forall a b, P (a :: b :: l))).
  { induction l as [|x l (IH0 & IH1 & IH2)]; [auto|].
    split; [apply IH1|]. split; [intros a; apply IH2|]. intros a b. apply H3, IH0. }
  apply H.
Qed.

(** [toString('base64url')] gives characters of the URL-safe alphabet,
    four for three bytes and no padding. *)
Lemma base64url_format (bs : list Z) :
  Forall byte bs ->
  String.length (base64url bs) = base64url_length (List.length bs)
  /\ within base64url_alphabet (base64url bs) = true.
Proof.
  unfold base64url. pattern bs. apply list_by_three; clear bs.
  - split; reflexivity.
  - intros a Ha. inversion Ha as [|? ? Hb _]; subst. unfold byte in Hb. cbn [base64_with].
    destruct (digit_of_within base64url_alphabet (a / 4)) as [H1 H2];
      [cbn; Z.to_euclidean_division_equations; lia|].
    destruct (digit_of_within base64url_alphabet (a mod 4 * 16)) as [H3 H4];
      [cbn; Z.to_euclidean_division_equations; lia|].
    rewrite !length_app_string, !within_app, H1, H2, H3, H4. split; reflexivity.
  - intros a b Hab. inversion Hab as [|? ? Ha Hr]; subst.
    inversion Hr as [|? ? Hb _]; subst. unfold byte in Ha, Hb. cbn [base64_with].
    destruct (digit_of_within base64url_alphabet (a / 4)) as [H1 H2];
      [cbn; Z.to_euclidean_division_equations; lia|].
    destruct (digit_of_within base64url_alphabet (a mod 4 * 16 + b / 16)) as [H3 H4];
      [cbn; Z.to_euclidean_division_equations; lia|].
    destruct (digit_of_within base64url_alphabet (b mod 16 * 4)) as [H5 H6];
      [cbn; Z.to_euclidean_division_equations; lia|].
    rewrite !length_app_string, !within_app, H1, H2, H3, H4, H5, H6. split; reflexivity.
  - intros a b c r IH Habc. inversion Habc as [|? ? Ha Hr1]; subst.
    inversion Hr1 as [|? ? Hb Hr2]; subst. inversion Hr2 as [|? ? Hc Hr]; subst.
    destruct (IH Hr) as [IHl IHw]. unfold byte in Ha, Hb, Hc. cbn [base64_with].
    destruct (digit_of_within base64url_alphabet (a / 4)) as [H1 H2];
      [cbn; Z.to_euclidean_division_equations; lia|].
    destruct (digit_of_within base64url_alphabet (a mod 4 * 16 + b / 16)) as [H3 H4];
      [cbn; Z.to_euclidean_division_equations; lia|].
    destruct (digit_of_within base64url_alphabet (b mod 16 * 4 + c / 64)) as [H5 H6];
      [cbn; Z.to_euclidean_division_equations; lia|].
    destruct (digit_of_within base64url_alphabet (c mod 64)) as [H7 H8];
      [cbn; Z.to_euclidean_division_equations; lia|].
    rewrite !length_app_string, !within_app, H1, H2, H3, H4, H5, H6, H7, H8, IHl, IHw.
    split; reflexivity.
Qed.

Lemma be_bytes_format (n : nat) (x : Z) :
  Forall byte (Sha256.be_bytes n x) /\ List.length (Sha256.be_bytes n x) = n.
Proof.
  induction n as [|n [IHb IHl]]; cbn [Sha256.be_bytes]; [split; [constructor|reflexivity]|].
  split; [|cbn; now rewrite IHl]. constructor; [|exact IHb].
  unfold byte. apply Z.mod_pos_bound. lia.
Qed.

Lemma round_length (st : list Z) (kw : Z * Z) :
  List.length (Sha256.round st kw) = List.length st.
Proof.
  destruct st as [|a [|b [|c [|d [|e [|f [|g [|h [|i t]]]]]]]]]; reflexivity.
Qed.

Lemma zip_add_length (xs ys : list Z) :
  List.length xs = List.length ys -> List.length (Sha256.zip_add xs ys) = List.length xs.
Proof.
  revert ys. induction xs as [|x xs IH]; intros [|y ys] H; cbn in *; try lia.
  now rewrite IH by lia.
Qed.

Lemma compress_length (st block : list Z) :
  List.length (Sha256.compress st block) = List.length st.
Proof.
  unfold Sha256.compress. apply zip_add_length.
  generalize (combine Sha256.K (block ++ Sha256.schedule 48 block)%list). intros kws.
  revert st. induction kws as [|kw kws IH]; intros st; cbn; [reflexivity|].
  rewrite <- IH. now rewrite round_length.
Qed.

(** A SHA-256 digest is 32 bytes. *)
Lemma digest_format (msg : list Z) :
  Forall byte (Sha256.digest msg) /\ List.length (Sha256.digest msg) = 32%nat.
Proof.
  unfold Sha256.digest. cbv zeta.
  set (blocks := Sha256.blocks _ _).
  assert (Hlen : List.length (fold_left Sha256.compress blocks Sha256.H0) = 8%nat).
  { generalize Sha256.H0 (eq_refl : List.length Sha256.H0 = 8%nat). clearbody blocks.
    induction blocks as [|b bl IH]; intros st Hst; cbn; [exact Hst|].
    apply IH. now rewrite compress_length. }
  generalize dependent (fold_left Sha256.compress blocks Sha256.H0). intros st Hst.
  assert (H : forall l : list Z,
    Forall byte (flat_map (Sha256.be_bytes 4) l)
    /\ List.length (flat_map (Sha256.be_bytes 4) l) = (4 * List.length l)%nat).
  { induction l as [|x l [IHb IHl]]; [split; [constructor|reflexivity]|].
    cbn [flat_map]. destruct (be_bytes_format 4 x) as [Hb Hl]. split.
    - apply Forall_app. auto.
    - rewrite length_app, Hl, IHl. cbn [List.length]. lia. }
  destruct (H st) as [Hb Hl]. split; [exact Hb|]. rewrite Hl, Hst. reflexivity.
Qed.

(** [encodeURIComponent] leaves the characters of both alphabets alone. *)
Lemma encodeURIComponent_within (alphabet s : string) :
  forallb uri_unreserved (list_ascii_of_string alphabet) = true ->
  within alphabet s = true -> encodeURIComponent s = s.
Proof.
  intros Halpha. unfold within. induction s as [|c s IH]; cbn; [reflexivity|].
  intros H. apply andb_true_iff in H as [Hc Hs].
  apply existsb_exists in Hc as (c' & Hin & Heq). apply Ascii.eqb_eq in Heq. subst c'.
  rewrite forallb_forall in Halpha. rewrite (Halpha c Hin), (IH Hs). reflexivity.
Qed.

Lemma entropy_bytes (o : Oracle) (from n : nat) :
  Forall byte (map (fun i => entropy o i mod 256) (seq from n))
  /\ List.length (map (fun i => entropy o i mod 256) (seq from n)) = n.
Proof.
  split; [|now rewrite length_map, length_seq].
  apply Forall_map, Forall_forall. intros i _. unfold byte. apply Z.mod_pos_bound. lia.
Qed.

(** X16. What [/auth/duo-initiate] issues, whatever the random bytes: the
    state is 64 lower-case hexadecimal digits, the code verifier and the
    code challenge are 43 characters of the URL-safe base64 alphabet
    without padding. So [encodeURIComponent] would leave the state and the
    challenge as they are (the URL carries them unencoded), and the state
    passes the [!state] checks of the callback and of the status route. *)
Theorem issued_values_are_url_safe (o : Oracle) :
  let state := fresh_state o in
  let verifier := fresh_verifier o in
  let challenge := base64url (Sha256.digest (bytes_of_string verifier)) in
  (String.length state = 64%nat /\ within "0123456789abcdef" state = true)
  /\ (String.length verifier = 43%nat /\ within base64url_alphabet verifier = true)
  /\ (String.length challenge = 43%nat /\ within base64url_alphabet challenge = true)
  /\ encodeURIComponent state = state
  /\ encodeURIComponent challenge = challenge
  /\ DuoSse.present (Some state) = Some state.
Proof.
  cbv zeta. unfold fresh_state, fresh_verifier.
  destruct (entropy_bytes o 0 32) as [Hb1 Hl1]. destruct (entropy_bytes o 32 32) as [Hb2 Hl2].
  destruct (hex_format _ Hb1) as [Hsl Hsw]. rewrite Hl1 in Hsl.
  destruct (base64url_format _ Hb2) as [Hvl Hvw]. rewrite Hl2 in Hvl.
  set (verifier := base64url _) in *.
  destruct (digest_format (bytes_of_string verifier)) as [Hb3 Hl3].
  destruct (base64url_format _ Hb3) as [Hcl Hcw]. rewrite Hl3 in Hcl.
  set (state := hex _) in *.
  repeat split; try assumption.
  - now apply (encodeURIComponent_within "0123456789abcdef").
  - now apply (encodeURIComponent_within base64url_alphabet).
  - unfold DuoSse.present. destruct state; [discriminate Hsl|reflexivity].
Qed.

(** ** The authorization-code flow, end to end *)

Lemma fresh_state_not_empty (o : Oracle) : fresh_state o <> "".
Proof.
  unfold fresh_state. destruct (entropy_bytes o 0 32) as [Hb Hl].
  destruct (hex_format _ Hb) as [Hlen _]. rewrite Hl in Hlen.
  intros Heq. rewrite Heq in Hlen. discriminate Hlen.
Qed.

(** With a code, and a state the map holds, the callback asks the token
    endpoint once, whatever the endpoint answers. *)
Lemma callback_calls (d : Deployment) (o : Oracle) (w : World) (code state : string)
    (s : Session) :
  code <> "" -> state <> "" -> session_of w state = Some s ->
  calls (trace (run o (Deployed.callback d (Some code) (Some state)) w))
  = [Deployed.exchange d code (codeVerifier s)].
Proof.
  intros Hcode Hstate Hs. apply String.eqb_neq in Hcode, Hstate.
  unfold session_of in Hs.
  destruct (JsMap.get (authSessions w) state) as [ref|] eqn:Hget; [|discriminate].
  unfold run, Deployed.callback, Deployed.exchange, DuoSse.auth_callback, DuoSse.present.
  rewrite Hcode, Hstate. cbn [bind load exec]. unfold session_ref. rewrite Hget, Hs.
  unfold fetch, json, DuoSse.assign_session, emit, load, store, now.
  cbn [try_catch bind exec logged trace calls start awaits reads draws].
  f_equal.
  destruct (network o 0 _) as [m|resp]; cbn; [reflexivity|].
  destruct (response_ok resp); cbn; [|reflexivity].
  destruct (body_json resp) as [m|data]; cbn; [reflexivity|].
  destruct data; reflexivity.
Qed.

(** X17. PKCE, end to end: when the callback comes back with the state
    that [/auth/duo-initiate] issued, the [code_verifier] it sends to the
    token endpoint is the verifier whose SHA-256 digest, in base64url, the
    authorization URL carried as [code_challenge]. This needs Duo
    configured, a session map with distinct keys and an initiation whose
    own sweep does not find the new session older than ten minutes. *)
Theorem verifier_sent_matches_challenge (d : Deployment) (o o' : Oracle) (w : World)
    (code : string) :
  DuoSse.missing (DUO_API_HOSTNAME d) = false ->
  DuoSse.missing (DUO_CLIENT_ID d) = false ->
  distinct_keys (authSessions w) = true ->
  (forall k, (k <= S (List.length (authSessions w)))%nat ->
             clock o k - clock o 0 <= 10 * 60 * 1000) ->
  code <> "" ->
  let started := run o (Deployed.initiate d) w in
  let returned :=
    run o' (Deployed.callback d (Some code) (Some (fresh_state o))) (final started) in
  exists verifier,
    outputs (trace started)
    = [Reply 200 (Json (obj [
         ("authUrl", str (DuoSse.authUrl (DUO_API_HOSTNAME d) (DUO_CLIENT_ID d)
                            (DUO_REDIRECT_URI d) (fresh_state o)
                            (base64url (Sha256.digest (bytes_of_string verifier)))));
         ("state", str (fresh_state o))]))]
    /\ calls (trace returned) = [Deployed.exchange d code verifier]
    /\ body (Deployed.exchange d code verifier)
       = FormBody [("grant_type", "authorization_code"); ("code", code);
                   ("redirect_uri", DUO_REDIRECT_URI d); ("code_verifier", verifier)].
Proof.
  intros Hhost Hid Hd Hclock Hcode. cbv zeta. exists (fresh_verifier o).
  rewrite (run_initiate d o w Hhost Hid). cbv zeta. cbn [final trace outputs].
  split; [reflexivity|]. split; [|reflexivity].
  rewrite (callback_calls d o' _ code (fresh_state o)
             (DuoSse.new_session (fresh_verifier o) (clock o 0)) Hcode
             (fresh_state_not_empty o)); [reflexivity|].
  apply (initiate_keeps_new_session o w Hd Hclock).
Qed.

Lemma verifier_sent_matches_challenge_witness :
  let o := sample_oracle slack_ok in
  exists verifier,
    calls (trace (run o (Deployed.callback sample_deployment (Some "code-1")
                           (Some (fresh_state o)))
                    (final (run o (Deployed.initiate sample_deployment) sample_world))))
    = [Deployed.exchange sample_deployment "code-1" verifier].
Proof.
  cbv zeta.
  destruct (verifier_sent_matches_challenge sample_deployment (sample_oracle slack_ok)
              (sample_oracle slack_ok) sample_world "code-1")
    as (verifier & _ & Hcalls & _).
  - reflexivity.
  - reflexivity.
  - reflexivity.
  - intros k Hk. change (1700000000000 + Z.of_nat k - (1700000000000 + 0) <= 10 * 60 * 1000).
    change (k <= 3)%nat in Hk. lia.
  - discriminate.
  - exists verifier. exact Hcalls.
Defined.

(** X18. When the token exchange fails (the [fetch] is rejected, the
    status is outside 200..299, or the 2xx body is not JSON), the callback
    answers 500 with the [Authentication Failed] page showing the error's
    message and writes nothing to the module state, so the session stays
    as it was. The run is the exchange call and that reply. *)
Theorem failed_exchange_leaves_session (d : Deployment) (o : Oracle) (w : World)
    (code state : string) (ref : nat) (s : Session) :
  code <> "" ->
  state <> "" ->
  JsMap.get (authSessions w) state = Some ref ->
  nth_error (objects w) ref = Some s ->
  let rq := Deployed.exchange d code (codeVerifier s) in
  let r := run o (Deployed.callback d (Some code) (Some state)) w in
  let failed (m : string) :=
    trace r = [Called rq; Sent (Reply 500 (Html (AuthenticationFailed m)))]
    /\ final r = meanwhile o 0 w
    /\ outcome r = inr tt in
  (forall m, network o 0 rq = Rejected m -> failed m)
  /\ (forall resp, network o 0 rq = Resolved resp -> ~ 200 <= status resp <= 299 ->
        failed ("Token exchange failed: " ++ Z_to_string (status resp) ++ " - "
                  ++ body_text resp))
  /\ (forall resp m, network o 0 rq = Resolved resp -> 200 <= status resp <= 299 ->
        body_json resp = inl m -> failed m).
Proof.
  intros Hcode Hstate Hget Hobj. cbv zeta.
  apply String.eqb_neq in Hcode, Hstate.
  unfold run, Deployed.callback, Deployed.exchange, DuoSse.auth_callback, DuoSse.present.
  rewrite Hcode, Hstate. cbn [bind load exec]. unfold session_ref. rewrite Hget, Hobj.
  cbn [fetch try_catch bind exec start awaits reads draws].
  split; [|split].
  - intros m Hnet. rewrite Hnet. cbn. auto.
  - intros resp Hnet Hstatus. rewrite Hnet.
    rewrite <- response_ok_range in Hstatus. apply not_true_is_false in Hstatus.
    cbn [try_catch bind exec]. rewrite Hstatus. cbn. auto.
  - intros resp m Hnet Hstatus Hbody. rewrite Hnet. apply response_ok_range in Hstatus.
    cbn [try_catch bind exec]. rewrite Hstatus. cbn [negb]. unfold json. rewrite Hbody.
    cbn. auto.
Qed.

Lemma failed_exchange_leaves_session_witness :
  let o := oracle_answering exchange_refused in
  let r := run o (Deployed.callback sample_deployment (Some "abc") (Some "state-recent"))
             sample_world in
  outputs (trace r)
  = [Reply 500 (Html (AuthenticationFailed "Token exchange failed: 400 - invalid_grant"))]
  /\ final r = sample_world.
Proof.
  cbv zeta.
  destruct (failed_exchange_leaves_session sample_deployment (oracle_answering exchange_refused)
              sample_world "abc" "state-recent" 1%nat
              {| codeVerifier := "verifier-recent"; timestamp := 1700000000000 - 60000;
                 authenticated := false; accessToken := None; refreshToken := None;
                 expiresAt := None |}) as (_ & H & _).
  - discriminate.
  - discriminate.
  - reflexivity.
  - reflexivity.
  - destruct (H _ eq_refl) as (Ht & Hf & _).
    + cbn. lia.
    + rewrite Ht, Hf. split; reflexivity.
Defined.

(** X19. When the token endpoint answers 2xx with the body [null], the
    callback sets [session.authenticated = true] before the read of
    [tokenData.access_token] throws: the caller gets the 500 page with the
    [TypeError]'s message, yet the session is left authenticated with its
    tokens and expiry as they were, and [/auth/status] then reports
    [authenticated: true]. *)
Theorem null_token_body_marks_session (d : Deployment) (o : Oracle) (w : World)
    (code state : string) (ref : nat) (s s1 : Session) (resp : Response) :
  code <> "" ->
  state <> "" ->
  JsMap.get (authSessions w) state = Some ref ->
  nth_error (objects w) ref = Some s ->
  network o 0 (Deployed.exchange d code (codeVerifier s)) = Resolved resp ->
  200 <= status resp <= 299 ->
  body_json resp = inr JNull ->
  nth_error (objects (meanwhile o 0 w)) ref = Some s1 ->
  JsMap.get (authSessions (meanwhile o 0 w)) state = Some ref ->
  let r := run o (Deployed.callback d (Some code) (Some state)) w in
  let marked :=
    {| codeVerifier := codeVerifier s1; timestamp := timestamp s1; authenticated := true;
       accessToken := accessToken s1; refreshToken := refreshToken s1;
       expiresAt := expiresAt s1 |} in
  outputs (trace r)
  = [Reply 500 (Html (AuthenticationFailed
       "Cannot read properties of null (reading 'access_token')"))]
  /\ session_of (final r) state = Some marked
  /\ forall o',
       outputs (trace (run o' (DuoSse.auth_status (Some state)) (final r)))
       = [Reply 200 (Json (obj [("authenticated", bool_value true);
                                ("token", accessToken s1);
                                ("expiresAt", option_map number_json (expiresAt s1))]))].
Proof.
  intros Hcode Hstate Hget Hobj Hnet Hstatus Hbody Hobj1 Hget1. cbv zeta.
  apply String.eqb_neq in Hcode. apply response_ok_range in Hstatus.
  assert (Hrun : run o (Deployed.callback d (Some code) (Some state)) w =
    {| outcome := inr tt;
       final :=
         {| objects :=
              assign (objects (meanwhile o 0 w)) ref (fun s0 =>
                {| codeVerifier := codeVerifier s0; timestamp := timestamp s0;
                   authenticated := true;
                   accessToken := accessToken s0; refreshToken := refreshToken s0;
                   expiresAt := expiresAt s0 |});
            authSessions := authSessions (meanwhile o 0 w);
            sseConnections := sseConnections (meanwhile o 0 w);
            connectionIdCounter := connectionIdCounter (meanwhile o 0 w) |};
       trace := [Called (Deployed.exchange d code (codeVerifier s));
                 Sent (Reply 500 (Html (AuthenticationFailed
                   "Cannot read properties of null (reading 'access_token')")))];
       position := {| reads := 0; draws := 0; awaits := 1 |} |}).
  { unfold run, Deployed.callback, Deployed.exchange, DuoSse.auth_callback, DuoSse.present in *.
    rewrite Hcode. pose proof Hstate as Hs. apply String.eqb_neq in Hs. rewrite Hs.
    cbn [bind load exec]. unfold session_ref. rewrite Hget, Hobj.
    cbn [fetch try_catch bind exec start awaits reads draws]. rewrite Hnet.
    cbn [try_catch bind exec]. rewrite Hstatus. cbn [negb]. unfold json. rewrite Hbody.
    cbn. reflexivity. }
  rewrite Hrun. cbn [trace outputs final].
  assert (Hs : session_of
    {| objects :=
         assign (objects (meanwhile o 0 w)) ref (fun s0 =>
           {| codeVerifier := codeVerifier s0; timestamp := timestamp s0;
              authenticated := true;
              accessToken := accessToken s0; refreshToken := refreshToken s0;
              expiresAt := expiresAt s0 |});
       authSessions := authSessions (meanwhile o 0 w);
       sseConnections := sseConnections (meanwhile o 0 w);
       connectionIdCounter := connectionIdCounter (meanwhile o 0 w) |} state
    = Some {| codeVerifier := codeVerifier s1; timestamp := timestamp s1;
              authenticated := true;
              accessToken := accessToken s1; refreshToken := refreshToken s1;
              expiresAt := expiresAt s1 |}).
  { unfold session_of. cbn [authSessions objects].
    rewrite Hget1, nth_error_assign_same, Hobj1. reflexivity. }
  split; [reflexivity|]. split; [exact Hs|].
  intros o'. rewrite run_status. unfold DuoSse.present.
  apply String.eqb_neq in Hstate. rewrite Hstate, Hs. reflexivity.
Qed.

Lemma null_token_body_marks_session_witness :
  let o := oracle_answering exchange_null in
  let r := run o (Deployed.callback sample_deployment (Some "abc") (Some "state-recent"))
             sample_world in
  outputs (trace (run o (DuoSse.auth_status (Some "state-recent")) (final r)))
  = [Reply 200 (Json (obj [("authenticated", bool_value true)]))].
Proof.
  cbv zeta.
  destruct (null_token_body_marks_session sample_deployment (oracle_answering exchange_null)
              sample_world "abc" "state-recent" 1%nat
              {| codeVerifier := "verifier-recent"; timestamp := 1700000000000 - 60000;
                 authenticated := false; accessToken := None; refreshToken := None;
                 expiresAt := None |}
              {| codeVerifier := "verifier-recent"; timestamp := 1700000000000 - 60000;
                 authenticated := false; accessToken := None; refreshToken := None;
                 expiresAt := None |}
              {| status := 200; body_text := "null"; body_json := inr JNull |})
    as (_ & _ & H).
  - discriminate.
  - discriminate.
  - reflexivity.
  - reflexivity.
  - reflexivity.
  - cbn. lia.
  - reflexivity.
  - reflexivity.
  - reflexivity.
  - exact (H (oracle_answering exchange_null)).
Defined.

(** ** What each handler leaves alone *)

Lemma keeps_sweep_entries_of (Inv : World -> Prop) (entries : list (string * nat)) :
  (forall w key, Inv w ->
     Inv {| objects := objects w;
            authSessions := JsMap.delete (authSessions w) key;
            sseConnections := sseConnections w;
            connectionIdCounter := connectionIdCounter w |}) ->
  keeps Inv (DuoSse.sweep_entries entries).
Proof.
  intros Hdel. induction entries as [|[key ref] rest IH]; [exact I|].
  cbn [DuoSse.sweep_entries now load bind keeps]. intros t w Hw.
  apply keeps_bind; [|intros _; exact IH].
  destruct (nth_error (objects w) ref) as [value|]; [|exact I].
  destruct (t - timestamp value >? _); [|exact I].
  cbn. intros w' Hw'. split; [now apply Hdel|exact I].
Qed.

Lemma keeps_cleanup_entries_of (Inv : World -> Prop) (t : Z)
    (entries : list (Z * Connection)) :
  (forall w id, Inv w ->
     Inv {| objects := objects w;
            authSessions := authSessions w;
            sseConnections := JsMap.delete (sseConnections w) id;
            connectionIdCounter := connectionIdCounter w |}) ->
  keeps Inv (DuoSse.cleanup_entries t entries).
Proof.
  intros Hdel. induction entries as [|[id conn] rest IH]; [exact I|].
  cbn [DuoSse.cleanup_entries]. apply keeps_bind; [|intros _; exact IH].
  destruct (t - connectedAt conn >? _); [|exact I].
  cbn. intros w' Hw'. split; [now apply Hdel|exact I].
Qed.

(** Follows a handler down to the states it stores. *)
Ltac explore_keeps :=
  unfold json, fetch, emit, store, load, now, randomBytes;
  repeat first
    [ progress cbn [keeps bind try_catch lift prop destructure prop_opt negb orb andb]
    | progress intros
    | match goal with
      | |- True => exact I
      | |- _ /\ _ => split
      | |- keeps _ (bind (verifyDuoToken _ _ _ _) _) =>
          apply keeps_bind; [apply keeps_verifyDuoToken|]
      | |- keeps _ ?p =>
          let s := head_stuck p in
          let T := type of s in
          lazymatch T with
          | Prog _ => fail
          | _ => destruct s eqn:?
          end
      end ].

(** X20. The OAuth routes and the stream routes keep to their own part
    of the module state (with no other handler running in between):
    [/auth/status] and POST [/mcp] change nothing; the callback adds and
    removes no session and leaves the connection registry and the
    connection counter alone; [/auth/duo-initiate] leaves the registry and
    the counter alone; opening a stream, closing one and the cleanup timer
    leave the sessions alone, and closing and cleanup leave the counter
    alone. *)
Theorem oauth_and_streams_do_not_interfere (d : Deployment) (o : Oracle) (w : World) :
  (forall k w', meanwhile o k w' = w') ->
  let after (p : Prog unit) := final (run o p w) in
  (forall state, after (DuoSse.auth_status state) = w)
  /\ (forall authorization message, after (Deployed.post_sse d authorization message) = w)
  /\ (forall code state,
        authSessions (after (Deployed.callback d code state)) = authSessions w
        /\ sseConnections (after (Deployed.callback d code state)) = sseConnections w
        /\ connectionIdCounter (after (Deployed.callback d code state))
           = connectionIdCounter w)
  /\ (sseConnections (after (Deployed.initiate d)) = sseConnections w
      /\ connectionIdCounter (after (Deployed.initiate d)) = connectionIdCounter w)
  /\ (forall authorization,
        objects (after (Deployed.open_stream d authorization)) = objects w
        /\ authSessions (after (Deployed.open_stream d authorization)) = authSessions w)
  /\ (forall id,
        objects (after (DuoSse.on_close id)) = objects w
        /\ authSessions (after (DuoSse.on_close id)) = authSessions w
        /\ connectionIdCounter (after (DuoSse.on_close id)) = connectionIdCounter w)
  /\ (objects (after DuoSse.cleanup) = objects w
      /\ authSessions (after DuoSse.cleanup) = authSessions w
      /\ connectionIdCounter (after DuoSse.cleanup) = connectionIdCounter w).
Proof.
  intros Hloop. cbv zeta.
  assert (H : forall (Inv : World -> Prop) (p : Prog unit),
    keeps Inv p -> Inv w -> Inv (final (run o p w))).
  { intros Inv p Hp Hw. unfold run. apply (keeps_exec Inv); auto.
    intros k w' Hw'. now rewrite Hloop. }
  split; [|split; [|split; [|split; [|split; [|split]]]]].
  - intros state. apply (H (fun w' => w' = w)); [|reflexivity].
    unfold_servers. explore_keeps.
  - intros authorization message. apply (H (fun w' => w' = w)); [|reflexivity].
    unfold_servers. explore_keeps.
  - intros code state.
    apply (H (fun w' => authSessions w' = authSessions w
                        /\ sseConnections w' = sseConnections w
                        /\ connectionIdCounter w' = connectionIdCounter w)); [|auto].
    unfold_servers. unfold session_ref. explore_keeps; cbn; intuition congruence.
  - apply (H (fun w' => sseConnections w' = sseConnections w
                        /\ connectionIdCounter w' = connectionIdCounter w)); [|auto].
    unfold Deployed.initiate, DuoSse.auth_duo_initiate, DuoSse.set_session, DuoSse.sweep.
    explore_keeps; try (cbn; intuition congruence).
    apply keeps_bind; [|intros; explore_keeps].
    apply keeps_sweep_entries_of. intros w' key Hw'. exact Hw'.
  - intros authorization.
    apply (H (fun w' => objects w' = objects w /\ authSessions w' = authSessions w)); [|auto].
    unfold_servers. explore_keeps; cbn; intuition congruence.
  - intros id.
    apply (H (fun w' => objects w' = objects w /\ authSessions w' = authSessions w
                        /\ connectionIdCounter w' = connectionIdCounter w)); [|auto].
    unfold DuoSse.on_close, DuoSse.delete_connection. explore_keeps; cbn; intuition congruence.
  - apply (H (fun w' => objects w' = objects w /\ authSessions w' = authSessions w
                        /\ connectionIdCounter w' = connectionIdCounter w)); [|auto].
    unfold DuoSse.cleanup. explore_keeps.
    apply keeps_cleanup_entries_of. intros w' id Hw'. exact Hw'.
Qed.

Lemma oauth_and_streams_do_not_interfere_witness :
  final (run (sample_oracle slack_ok)
           (Deployed.post_sse sample_deployment (Some "Bearer tok")
              (JsonText.parse (call_text "postMessage" "channel")))
           sample_world) = sample_world.
Proof.
  destruct (oauth_and_streams_do_not_interfere sample_deployment (sample_oracle slack_ok)
              sample_world) as (_ & H & _).
  - reflexivity.
  - apply H.
Defined.

(** ** The registry of streams *)


Lemma find_connection_first (earlier later : list (Z * Connection)) (id : Z)
    (c : Connection) (e : Value) :
  (forall id' c', In (id', c') earlier -> strict_eq (email (user c')) e = false) ->
  strict_eq (email (user c)) e = true ->
  DuoSse.find_connection (earlier ++ (id, c) :: later) e = Some c.
Proof.
  intros Hearlier Hc. induction earlier as [|[k c'] r IH]; cbn.
  - now rewrite Hc.
  - rewrite (Hearlier k c' (or_introl eq_refl)). apply IH.
    intros id' c'' Hin. apply (Hearlier id' c''). now right.
Qed.




(** X22. An authenticated POST [/mcp] writes at most one event, and only
    [message] events, and only to the first stream in registration order
    whose user email [===] the caller's verified email: with several open
    streams of one user the earliest one gets the answer. *)
Theorem post_is_answered_on_earliest_stream (d : Deployment)
    (authorization : option string) (message : Value) (token : string)
    (earlier later : list (Z * Connection)) (id : Z) (conn : Connection)
    (o : Oracle) (w : World) :
  decoded message ->
  extractToken authorization = Some token ->
  token <> "" ->
  Verification.valid (verdict (network o 0 (Deployed.introspect d token))) = true ->
  let caller := Verification.email (verdict (network o 0 (Deployed.introspect d token))) in
  sseConnections (meanwhile o 0 w) = (earlier ++ (id, conn) :: later)%list ->
  (forall id' c, In (id', c) earlier -> strict_eq (email (user c)) caller = false) ->
  strict_eq (email (user conn)) caller = true ->
  let r := run o (Deployed.post_sse d authorization message) w in
  Forall (fun write => fst (fst write) = res conn /\ snd (fst write) = "message")
         (stream_writes (trace r))
  /\ (List.length (stream_writes (trace r)) <= 1)%nat.
Proof.
  cbv zeta. intros Hmsg Hext Hne Hvalid Hconns Hearlier Hconn.
  rewrite (post_sse_admitted d authorization message token o w Hmsg Hext Hne Hvalid).
  rewrite Hconns, (find_connection_first earlier later id conn _ Hearlier Hconn).
  cbn [logged trace stream_writes].
  set (p := try_catch _ _).
  assert (Hp : paths p []
    (fun _ tr => Forall (fun write => fst (fst write) = res conn
                                      /\ snd (fst write) = "message") (stream_writes tr)
                 /\ (List.length (stream_writes tr) <= 1)%nat)
    (fun _ tr => Forall (fun write => fst (fst write) = res conn
                                      /\ snd (fst write) = "message") (stream_writes tr)
                 /\ (List.length (stream_writes tr) <= 1)%nat)).
  { subst p. unfold_servers. explore; cbn; repeat constructor. }
  pose proof (paths_exec p _ _ o [] {| reads := 0; draws := 0; awaits := 1 |}
                (meanwhile o 0 w) Hp) as Hr.
  destruct (outcome (exec o _ p _)); exact Hr.
Qed.

Lemma post_is_answered_on_earliest_stream_witness :
  Forall (fun write => fst (fst write) = 1 /\ snd (fst write) = "message")
    (stream_writes (trace (run (sample_oracle slack_ok)
                             (Deployed.post_sse sample_deployment (Some "Bearer tok")
                                (JsonText.parse (request_text 1 "initialize" None)))
                             two_streams))).
Proof.
  apply (post_is_answered_on_earliest_stream sample_deployment (Some "Bearer tok")
           (JsonText.parse (request_text 1 "initialize" None)) "tok"
           [] [(2, {| res := 2; user := alice; connectedAt := 1700000000000 - 5000 |})]
           1 {| res := 1; user := alice; connectedAt := 1700000000000 - 9000 |}
           (sample_oracle slack_ok) two_streams).
  - vm_compute. exact I.
  - reflexivity.
  - discriminate.
  - reflexivity.
  - reflexivity.
  - intros id' c [].
  - reflexivity.
Defined.

(** X23. Connection ids are never reused: in every state the routes and
    timers of the Duo SSE server leave behind, each registered connection
    has an id that is at most the counter, provided this held before and
    the handlers that ran in between kept it. *)
Theorem connection_ids_are_never_reused (d : Deployment) (p : Prog unit) (o : Oracle)
    (w : World) :
  handler d p ->
  (forall k w', ids_issued w' -> ids_issued (meanwhile o k w')) ->
  ids_issued w ->
  ids_issued (final (run o p w)).
Proof.
  intros Hp Hloop Hw.
  assert (Hdel : forall w' id, ids_issued w' ->
    ids_issued {| objects := objects w';
                  authSessions := authSessions w';
                  sseConnections := JsMap.delete (sseConnections w') id;
                  connectionIdCounter := connectionIdCounter w' |}).
  { intros w' id Hw' k c Hin. cbn in Hin. apply in_delete in Hin. now apply (Hw' k c). }
  assert (Hkeeps : forall q : Prog unit,
    keeps ids_issued q -> ids_issued (final (run o q w))).
  { intros q Hq. unfold run. apply (keeps_exec ids_issued); auto. }
  destruct Hp.
  - apply Hkeeps.
    unfold Deployed.initiate, DuoSse.auth_duo_initiate, DuoSse.set_session, DuoSse.sweep.
    explore_keeps; try assumption.
    apply keeps_bind; [|intros; explore_keeps].
    apply keeps_sweep_entries_of. intros w' key Hw'. exact Hw'.
  - apply Hkeeps. unfold_servers. unfold session_ref. explore_keeps; assumption.
  - apply Hkeeps. unfold_servers. explore_keeps.
  - unfold Deployed.open_stream, DuoSse.get_mcp, DuoSse.verify, run.
    destruct (extractToken authorization) as [token|]; [|exact Hw].
    destruct (String.eqb token ""); [exact Hw|].
    rewrite exec_verifyDuoToken. cbn [start awaits reads draws].
    specialize (Hloop 0%nat w Hw).
    destruct (Verification.valid _); cbn; [|exact Hloop].
    intros k c Hin. cbn in Hin |- *. apply in_set in Hin as [[= -> _]|Hin]; [lia|].
    specialize (Hloop k c Hin). lia.
  - apply Hkeeps. unfold_servers. explore_keeps.
  - apply Hkeeps. unfold DuoSse.on_close, DuoSse.delete_connection. explore_keeps.
    now apply Hdel.
  - apply Hkeeps. unfold DuoSse.cleanup. explore_keeps. now apply keeps_cleanup_entries_of.
Qed.

Lemma connection_ids_are_never_reused_witness :
  ids_issued (final (run bob_oracle
                       (Deployed.open_stream sample_deployment (Some "Bearer bobs-token"))
                       sample_world)).
Proof.
  apply (connection_ids_are_never_reused sample_deployment _ bob_oracle sample_world
           (handles_open sample_deployment (Some "Bearer bobs-token"))).
  - intros k w' Hw'. exact Hw'.
  - intros id c [[= <- <-]|[]]. cbn. lia.
Defined.

(** X24. Every route and timer of the Duo SSE server leaves the module
    state well formed when it found it so (and the handlers running in
    between keep it so): each map holds a key once and every state of the
    session map still leads to a session object. *)
Theorem state_stays_well_formed (d : Deployment) (p : Prog unit) (o : Oracle) (w : World) :
  handler d p ->
  (forall k w', well_formed w' -> well_formed (meanwhile o k w')) ->
  well_formed w ->
  well_formed (final (run o p w))
  /\ forall state ref,
       JsMap.get (authSessions (final (run o p w))) state = Some ref ->
       session_of (final (run o p w)) state <> None.
Proof.
  intros Hp Hloop Hw.
  assert (Hwf : well_formed (final (run o p w))).
  { unfold run. apply (keeps_exec well_formed); auto.
    destruct Hp; apply (duo_sse_keeps_well_formed d). }
  split; [exact Hwf|]. intros state ref Hget. unfold session_of. rewrite Hget.
  destruct Hwf as (Hd & _ & Hrefs). apply nth_error_Some, (Hrefs state), get_in, Hget.
Qed.

Lemma state_stays_well_formed_witness :
  well_formed (final (run (sample_oracle slack_ok) (Deployed.initiate sample_deployment)
                        sample_world)).
Proof.
  apply (state_stays_well_formed sample_deployment _ (sample_oracle slack_ok) sample_world
           (handles_initiate sample_deployment)).
  - intros k w' Hw'. exact Hw'.
  - repeat split.
    intros state ref [[= <- <-]|[[= <- <-]|[]]]; cbn; lia.
Defined.

(** ** The cleanup timer *)

(** The loop deletes the expired entries among those it visits. *)
Lemma exec_cleanup_entries (o : Oracle) (t : Z) (entries : list (Z * Connection))
    (c : Cursor) (w : World) :
  exec o c (DuoSse.cleanup_entries t entries) w =
  {| outcome := inr tt;
     final :=
       {| objects := objects w;
          authSessions := authSessions w;
          sseConnections :=
            fold_left (fun m kc => if expired t (snd kc) then JsMap.delete m (fst kc) else m)
                      entries (sseConnections w);
          connectionIdCounter := connectionIdCounter w |};
     trace := [];
     position := c |}.
Proof.
  revert w. induction entries as [|[id conn] rest IH]; intros w.
  - destruct w; reflexivity.
  - cbn [DuoSse.cleanup_entries]. rewrite exec_bind. unfold expired at 1. cbn [snd fst fold_left].
    destruct (t - connectedAt conn >? 3600000) eqn:Hold;
      cbn [exec bind load store DuoSse.delete_connection outcome final trace position];
      rewrite IH; unfold expired; cbn; rewrite ?Hold; reflexivity.
Qed.

Lemma delete_app_absent {V : Type} (kept rest : list (Z * V)) (k : Z) (v : V) :
  (forall v', ~ In (k, v') kept) ->
  JsMap.delete (kept ++ (k, v) :: rest) k = (kept ++ rest)%list.
Proof.
  intros Habsent. induction kept as [|[k' v'] r IH]; cbn.
  - now rewrite Z.eqb_refl.
  - destruct (Z.eqb_spec k' k) as [->|_].
    + exfalso. apply (Habsent v'). now left.
    + f_equal. apply IH. intros v'' Hin. apply (Habsent v''). now right.
Qed.

Lemma cleanup_fold (t : Z) (entries kept : list (Z * Connection)) :
  distinct_keys (kept ++ entries) = true ->
  fold_left (fun m kc => if expired t (snd kc) then JsMap.delete m (fst kc) else m)
            entries (kept ++ entries)%list
  = (kept ++ filter (fun kc => negb (expired t (snd kc))) entries)%list.
Proof.
  revert kept. induction entries as [|[id conn] rest IH]; intros kept Hd; [reflexivity|].
  cbn [fold_left filter fst snd].
  assert (Habsent : forall v', ~ In (id, v') kept).
  { clear IH. induction kept as [|[k v] r IHk]; [intros v' []|].
    cbn in Hd. apply andb_true_iff in Hd as [Hk Hr]. intros v' [[= -> ->]|Hin].
    - apply negb_true_iff in Hk. rewrite existsb_app in Hk. cbn in Hk.
      rewrite Z.eqb_refl, orb_true_r in Hk. discriminate.
    - now apply (IHk Hr v'). }
  destruct (expired t conn); cbn [negb].
  - rewrite (delete_app_absent kept rest id conn Habsent). apply IH.
    clear IH Habsent. induction kept as [|[k v] r IHk]; cbn in *.
    + now apply andb_true_iff in Hd as [_ Hd].
    + apply andb_true_iff in Hd as [Hk Hr]. rewrite (IHk Hr), andb_true_r.
      rewrite existsb_app in *. cbn in Hk. apply negb_true_iff in Hk.
      apply orb_false_iff in Hk as [H1 H2]. apply orb_false_iff in H2 as [_ H2].
      now rewrite H1, H2.
  - change (kept ++ (id, conn) :: rest)%list with (kept ++ [(id, conn)] ++ rest)%list.
    rewrite app_assoc. rewrite IH; [now rewrite <- app_assoc|].
    now rewrite <- app_assoc.
Qed.

(** X25. The cleanup timer removes from a registry with distinct ids
    exactly the connections that opened more than an hour (3600000 ms) before the one
    clock reading it takes, keeps the others in their order, touches
    nothing else of the module state, and sends and calls nothing. A
    connection exactly one hour old is kept. *)
Theorem cleanup_drops_streams_older_than_an_hour (o : Oracle) (w : World) :
  distinct_keys (sseConnections w) = true ->
  let r := run o DuoSse.cleanup w in
  sseConnections (final r)
  = filter (fun kc => negb (clock o 0 - connectedAt (snd kc) >? 3600000)) (sseConnections w)
  /\ objects (final r) = objects w
  /\ authSessions (final r) = authSessions w
  /\ connectionIdCounter (final r) = connectionIdCounter w
  /\ trace r = [].
Proof.
  intros Hd. cbv zeta. unfold run, DuoSse.cleanup.
  cbn [now load bind exec start reads]. rewrite exec_cleanup_entries.
  cbn [final trace objects authSessions sseConnections connectionIdCounter].
  repeat split. apply (cleanup_fold (clock o 0) (sseConnections w) [] Hd).
Qed.

Lemma cleanup_drops_streams_older_than_an_hour_witness :
  sseConnections (final (run (oracle_answering inactive) DuoSse.cleanup
    {| objects := []; authSessions := [];
       sseConnections :=
         [(1, {| res := 1; user := alice; connectedAt := 1700000000000 - 3600001 |});
          (2, {| res := 2; user := alice; connectedAt := 1700000000000 - 3600000 |})];
       connectionIdCounter := 2 |}))
  = [(2, {| res := 2; user := alice; connectedAt := 1700000000000 - 3600000 |})].
Proof.
  destruct (cleanup_drops_streams_older_than_an_hour (oracle_answering inactive)
    {| objects := []; authSessions := [];
       sseConnections :=
         [(1, {| res := 1; user := alice; connectedAt := 1700000000000 - 3600001 |});
          (2, {| res := 2; user := alice; connectedAt := 1700000000000 - 3600000 |})];
       connectionIdCounter := 2 |} eq_refl) as (H & _).
  rewrite H. reflexivity.
Defined.

(** ** The handlers registered with the SDK *)





(** ** Startup *)

(** X27. Startup of the Duo HTTP server. The process exits with code 1
    exactly when the bot token is missing or empty, or [DUO_ENABLED] is the
    string [true] and the introspection endpoint, the client id or the
    client secret is missing or empty. When it starts, the gate is on
    exactly when [DUO_ENABLED] is the string [true] (any other spelling
    leaves it off): if on, every introspection request goes to the
    configured endpoint with the configured non-empty id and secret as
    basic credentials; if off, every request runs the dispatcher as
    [Anonymous User], whatever its [Authorization] header. *)
Theorem duo_gate_needs_exact_true (parse : string -> option JSON) (env : Env) :
  (Boot.duo_http parse env = Exited 1
   <-> DuoSse.missing (env "SLACK_BOT_TOKEN") = true
       \/ (env "DUO_ENABLED" = Some "true"
           /\ (DuoSse.missing (env "DUO_TOKEN_INTROSPECTION_ENDPOINT") = true
               \/ DuoSse.missing (env "DUO_CLIENT_ID") = true
               \/ DuoSse.missing (env "DUO_CLIENT_SECRET") = true)))
  /\ forall d,
       Boot.duo_http parse env = Listening d ->
       (DUO_ENABLED d = true <-> env "DUO_ENABLED" = Some "true")
       /\ (DUO_ENABLED d = true ->
           forall token,
             exists endpoint id secret,
               env "DUO_TOKEN_INTROSPECTION_ENDPOINT" = Some endpoint /\ endpoint <> ""
               /\ env "DUO_CLIENT_ID" = Some id /\ id <> ""
               /\ env "DUO_CLIENT_SECRET" = Some secret /\ secret <> ""
               /\ Deployed.introspect d token
                  = {| url := endpoint;
                       http_method := "POST";
                       headers := [("Content-Type", "application/x-www-form-urlencoded");
                                   ("Authorization",
                                    "Basic " ++ base64 (bytes_of_string (id ++ ":" ++ secret)))];
                       body := FormBody [("token", token)] |})
       /\ (DUO_ENABLED d = false ->
           forall authorization request o w,
             run o (Deployed.post_duo d authorization request) w
             = exec o start
                 (HttpDuo.dispatch (env_string (SLACK_BOT_TOKEN d)) false request
                    {| username := None; displayName := str "Anonymous User";
                       email := None |}) w).
Proof.
  assert (Hset : forall v, DuoSse.missing v = false -> exists s, v = Some s /\ s <> "").
  { intros [s|]; cbn; [|discriminate]. intros H. apply String.eqb_neq in H. eauto. }
  assert (Henabled : exists on,
            match env "DUO_ENABLED" with
            | Some v => String.eqb v "true"
            | None => false
            end = on
            /\ (on = true <-> env "DUO_ENABLED" = Some "true")).
  { eexists. split; [reflexivity|].
    destruct (env "DUO_ENABLED") as [v|]; [|split; discriminate].
    rewrite String.eqb_eq. split; congruence. }
  destruct Henabled as (on & Hmatch & Hon).
  unfold Boot.duo_http. rewrite Hmatch. clear Hmatch.
  destruct (DuoSse.missing (env "SLACK_BOT_TOKEN")).
  { split; [split; auto|discriminate]. }
  destruct on; cbn [andb].
  - assert (Htrue : env "DUO_ENABLED" = Some "true") by now apply Hon.
    destruct (DuoSse.missing (env "DUO_TOKEN_INTROSPECTION_ENDPOINT")) eqn:H1;
      [split; [split; auto|discriminate]|].
    destruct (DuoSse.missing (env "DUO_CLIENT_ID")) eqn:H2;
      [split; [split; auto|discriminate]|].
    destruct (DuoSse.missing (env "DUO_CLIENT_SECRET")) eqn:H3;
      [split; [split; auto|discriminate]|].
    cbn [orb]. split.
    + split; [discriminate|]. intros [H|(_ & [H|[H|H]])]; discriminate.
    + intros d [= <-]. cbn [DUO_ENABLED]. split; [tauto|]. split; [|discriminate].
      intros _ token.
      destruct (Hset _ H1) as (endpoint & He & Hne1).
      destruct (Hset _ H2) as (id & Hi & Hne2).
      destruct (Hset _ H3) as (secret & Hs & Hne3).
      exists endpoint, id, secret.
      unfold Deployed.introspect, introspection_request, basic_credentials.
      cbn. rewrite He, Hi, Hs. repeat split; assumption.
  - assert (Hfalse : env "DUO_ENABLED" <> Some "true").
    { intros H. apply Hon in H. discriminate. }
    split.
    + split; [discriminate|]. intros [H|(H & _)]; [discriminate|contradiction].
    + intros d [= <-]. cbn [DUO_ENABLED]. split; [|split; [discriminate|]].
      * split; [discriminate|contradiction].
      * intros _ authorization request o w. now apply post_duo_open.
Qed.

Lemma duo_gate_needs_exact_true_witness :
  exists d,
    Boot.duo_http JsonText.parse shouting_env = Listening d
    /\ calls (trace (run (sample_oracle slack_ok)
                       (receive d DuoHttp None (call_text "slack_post_message" "channel_id"))
                       sample_world))
       = [slack_request "xoxb-sample" (str "C123") (str "hi")].
Proof.
  destruct (duo_gate_needs_exact_true JsonText.parse shouting_env) as (_ & H).
  eexists. split; [reflexivity|].
  match goal with
  | |- context [receive ?d _ _ _] => destruct (H d eq_refl) as (_ & _ & Hoff)
  end.
  rewrite (receive_object _ DuoHttp None _
             [("jsonrpc", JStr "2.0"); ("id", JNum 7); ("method", JStr "tools/call");
              ("params", JObj [("name", JStr "slack_post_message");
                               ("arguments", JObj [("channel_id", JStr "C123");
                                                   ("text", JStr "hi")])])]);
    [|vm_compute; reflexivity].
  rewrite (Hoff eq_refl). vm_compute. reflexivity.
Defined.
